(** * DINO training loop (main_dino.py): loss engine, schedules, teacher EMA

    A shallow embedding of the control logic of [main_dino.py]:
    [DINOLoss.__init__], [DINOLoss.forward], [DINOLoss.update_center],
    [DataAugmentationDINO.__call__], the architecture selection of
    [train_dino], the initialisation of the teacher and one iteration of
    [train_one_epoch].

    Numbers.  Tensor entries and Python floats are modelled as real numbers
    extended with the three IEEE special values (+inf, -inf, NaN).  The
    arithmetic on finite values is exact (no rounding, no overflow, one
    zero); the arithmetic on special values follows IEEE 754.  Properties
    that depend on rounding are outside this model.

    Errors.  Python exceptions are results of type [res]; [sys.exit] is an
    outcome of the training iteration.

    Collaborators.  The networks, the optimizer and the image transforms
    are section variables; [torch.chunk], [np.linspace], [np.ones],
    [load_state_dict] and the row and column reductions are modelled by
    their documented behaviour.  The other workers of a distributed run
    appear as the teacher outputs they contribute to the all-reduce. *)

From Stdlib Require Import String Ascii.
From Stdlib Require Import Reals Lra List ZArith Lia Bool FinFun.
Import ListNotations.

(** ** Scalars *)

Module Scalar.

Local Open Scope R_scope.

Inductive scalar : Type :=
| Fin (r : R)
| PInf
| NInf
| NaN.

Definition isfinite (x : scalar) : bool :=
  match x with Fin _ => true | _ => false end.

(** Sign of a real, used to pick the infinity produced by a product or a
    quotient; a zero gives NaN ([0 * inf], [0 / 0]). *)
Definition sgn (r : R) : comparison :=
  if Rlt_dec 0 r then Gt else if Rlt_dec r 0 then Lt else Eq.

Definition inf_of_sign (c : comparison) : scalar :=
  match c with Gt => PInf | Lt => NInf | Eq => NaN end.

Definition sneg (x : scalar) : scalar :=
  match x with
  | Fin r => Fin (- r)
  | PInf => NInf
  | NInf => PInf
  | NaN => NaN
  end.

Definition sadd (x y : scalar) : scalar :=
  match x, y with
  | NaN, _ | _, NaN => NaN
  | Fin a, Fin b => Fin (a + b)
  | PInf, NInf | NInf, PInf => NaN
  | PInf, _ | _, PInf => PInf
  | NInf, _ | _, NInf => NInf
  end.

Definition ssub (x y : scalar) : scalar := sadd x (sneg y).

Definition smul (x y : scalar) : scalar :=
  match x, y with
  | NaN, _ | _, NaN => NaN
  | Fin a, Fin b => Fin (a * b)
  | Fin a, PInf | PInf, Fin a => inf_of_sign (sgn a)
  | Fin a, NInf | NInf, Fin a => inf_of_sign (sgn (- a))
  | PInf, PInf | NInf, NInf => PInf
  | PInf, NInf | NInf, PInf => NInf
  end.

Definition sdiv (x y : scalar) : scalar :=
  match x, y with
  | NaN, _ | _, NaN => NaN
  | Fin a, Fin b =>
      if Req_dec_T b 0 then inf_of_sign (sgn a) else Fin (a / b)
  | Fin _, _ => Fin 0
  | PInf, Fin b => match sgn b with Lt => NInf | _ => PInf end
  | NInf, Fin b => match sgn b with Lt => PInf | _ => NInf end
  | _, _ => NaN
  end.

Definition sexp (x : scalar) : scalar :=
  match x with
  | Fin r => Fin (exp r)
  | PInf => PInf
  | NInf => Fin 0
  | NaN => NaN
  end.

Definition slog (x : scalar) : scalar :=
  match x with
  | Fin r => match sgn r with
             | Gt => Fin (ln r)
             | Eq => NInf
             | Lt => NaN
             end
  | PInf => PInf
  | _ => NaN
  end.

(** [x == 0] on a tensor entry. *)
Definition is_zero (x : scalar) : bool :=
  match x with
  | Fin r => if Req_dec_T r 0 then true else false
  | _ => false
  end.

Definition of_nat (n : nat) : scalar := Fin (INR n).
Definition of_Z (z : Z) : scalar := Fin (IZR z).

End Scalar.
Export Scalar.

Declare Scope scalar_scope.
Delimit Scope scalar_scope with S.
Infix "+" := sadd : scalar_scope.
Infix "-" := ssub : scalar_scope.
Infix "*" := smul : scalar_scope.
Infix "/" := sdiv : scalar_scope.
Notation "- x" := (sneg x) : scalar_scope.

(** ** Python exceptions and results *)

Inductive exn : Type :=
| IndexError
| ValueError
| RuntimeError
| ZeroDivisionError
| AttributeError
| TypeError
| UnboundLocalError (name : string).

Inductive res (A : Type) : Type :=
| Ok (a : A)
| Raise (e : exn).
Arguments Ok {A} a.
Arguments Raise {A} e.

Definition bind {A B} (m : res A) (k : A -> res B) : res B :=
  match m with
  | Ok a => k a
  | Raise e => Raise e
  end.

Notation "'let*' x ':=' m 'in' k" := (bind m (fun x => k))
  (at level 10, x pattern, m at level 100, k at level 200).

(** ** Lists as Python sequences and arrays *)

(** [l[i]] with Python's index rules: a negative index counts from the end,
    anything outside [-len, len) raises [IndexError]. *)
Definition py_index {A} (l : list A) (i : Z) : res A :=
  let n := Z.of_nat (length l) in
  let j := (if i <? 0 then n + i else i)%Z in
  if ((0 <=? j) && (j <? n))%Z then
    match nth_error l (Z.to_nat j) with
    | Some a => Ok a
    | None => Raise IndexError
    end
  else Raise IndexError.

(** [enumerate(l)]. *)
Definition enumerate {A} (l : list A) : list (nat * A) :=
  combine (seq 0 (length l)) l.

(** [range(k)] for a Python int [k]: empty when [k <= 0]. *)
Definition py_range (k : Z) : list nat := seq 0 (Z.to_nat k).

(** [range(a, b)]: empty when [b <= a]. *)
Definition py_range_from (a b : Z) : list Z :=
  map (fun i => (a + Z.of_nat i)%Z) (seq 0 (Z.to_nat (b - a))).

(** ** Tensors

    A two-dimensional tensor is a list of rows together with its column
    count ([shape[1]], still known when there are no rows) and its
    [requires_grad] flag.  Elementwise operations pair the entries of rows
    position by position; statements that depend on tensor values assume
    operands of the shapes the training loop passes. *)

Definition matrix : Type := list (list scalar).

Record Tensor : Type := mkTensor {
  rows : matrix;
  ncols : nat;
  requires_grad : bool
}.

Definition wf_tensor (t : Tensor) : Prop :=
  Forall (fun r => length r = ncols t) (rows t).

Fixpoint zip_with {A B C} (f : A -> B -> C) (l1 : list A) (l2 : list B)
  : list C :=
  match l1, l2 with
  | a :: l1', b :: l2' => f a b :: zip_with f l1' l2'
  | _, _ => []
  end.

(** [torch.sum] of a one-dimensional tensor. *)
Definition vsum (l : list scalar) : scalar := fold_left sadd l (Fin 0).

(** [t.mean()] of a one-dimensional tensor: an empty one gives [0/0]. *)
Definition vmean (l : list scalar) : scalar :=
  (vsum l / of_nat (length l))%S.

(** [m / s] and [m * s] for a scalar [s]. *)
Definition mdiv_scalar (m : matrix) (s : scalar) : matrix :=
  map (map (fun x => x / s)%S) m.
Definition mmul_scalar (m : matrix) (s : scalar) : matrix :=
  map (map (fun x => x * s)%S) m.

(** [m - c] where [c] has one row, broadcast over the rows of [m]. *)
Definition msub_row (m : matrix) (c : list scalar) : matrix :=
  map (fun r => zip_with ssub r c) m.

(** Elementwise operation on two tensors of the same shape. *)
Definition mzip (f : scalar -> scalar -> scalar) (a b : matrix) : matrix :=
  zip_with (zip_with f) a b.

Definition mneg (m : matrix) : matrix := map (map sneg) m.

(** [F.softmax(m, dim=-1)] and [F.log_softmax(m, dim=-1)], by their
    defining formulas [exp x_i / sum_j exp x_j] and
    [x_i - log (sum_j exp x_j)], row by row. *)
Definition softmax_row (r : list scalar) : list scalar :=
  let e := map sexp r in
  map (fun x => x / vsum e)%S e.
Definition log_softmax_row (r : list scalar) : list scalar :=
  let l := slog (vsum (map sexp r)) in
  map (fun x => x - l)%S r.
Definition softmax (m : matrix) : matrix := map softmax_row m.
Definition log_softmax (m : matrix) : matrix := map log_softmax_row m.

(** [torch.sum(m, dim=-1)]: one sum per row. *)
Definition sum_last_dim (m : matrix) : list scalar := map vsum m.

(** [torch.sum(m, dim=0, keepdim=True)] of a tensor with [d] columns: the
    column sums, as one row.  No rows give a row of zeros. *)
Definition sum_dim0 (d : nat) (m : matrix) : list scalar :=
  fold_left (zip_with sadd) m (repeat (Fin 0) d).

(** *** [torch.chunk] *)

(** [t.narrow(0, start, len)]. *)
Definition narrow {A} (l : list A) (start len : nat) : list A :=
  firstn len (skipn start l).

(** [t.split(split_size)]: pieces of [split_size] rows, the last one
    shorter when the row count is not a multiple; always at least one
    piece. *)
Definition split {A} (l : list A) (split_size : nat) : list (list A) :=
  let n := length l in
  let num_splits :=
    if Nat.eqb split_size 0 then 1
    else Nat.max ((n + split_size - 1) / split_size) 1 in
  let last_split_size := split_size - (split_size * num_splits - n) in
  map (fun i =>
         narrow l (i * split_size)
                (if Nat.ltb i (num_splits - 1) then split_size
                 else last_split_size))
      (seq 0 num_splits).

(** [t.chunk(chunks)]: [chunks <= 0] is a runtime error; a tensor without
    rows gives [chunks] empty pieces; otherwise the tensor is split in
    pieces of [ceil (n / chunks)] rows, which can give fewer pieces than
    asked for. *)
Definition chunk {A} (l : list A) (chunks : Z) : res (list (list A)) :=
  if (chunks <=? 0)%Z then Raise RuntimeError
  else
    let c := Z.to_nat chunks in
    let n := length l in
    let split_size := (n + c - 1) / c in
    if Nat.eqb split_size 0 && Nat.eqb n 0 then Ok (repeat [] c)
    else Ok (split l split_size).

(** *** NumPy arrays used by the temperature schedule *)

(** [np.linspace(start, stop, num)] (endpoint included): a negative [num]
    is a [ValueError]; the samples are [i * step + start] with
    [step = (stop - start) / (num - 1)], computed as [(i / div) * delta]
    when the step is zero, and the last sample is set to [stop] when there
    is more than one. *)
Definition np_linspace (start stop : scalar) (num : Z) : res (list scalar) :=
  if (num <? 0)%Z then Raise ValueError
  else
    let n := Z.to_nat num in
    let div := n - 1 in
    let delta := (stop - start)%S in
    let y := map of_nat (seq 0 n) in
    let y :=
      if Nat.ltb 0 div then
        let step := (delta / of_nat div)%S in
        if is_zero step
        then map (fun x => (x / of_nat div) * delta)%S y
        else map (fun x => x * step)%S y
      else map (fun x => x * delta)%S y in
    let y := map (fun x => x + start)%S y in
    Ok (if Nat.ltb 1 n then removelast y ++ [stop] else y).

(** [np.ones(k)]: a negative length is a [ValueError]. *)
Definition np_ones (k : Z) : res (list scalar) :=
  if (k <? 0)%Z then Raise ValueError
  else Ok (repeat (Fin 1) (Z.to_nat k)).

(** [torch.zeros(1, d)]: a negative dimension is a runtime error. *)
Definition torch_zeros_row (d : Z) : res Tensor :=
  if (d <? 0)%Z then Raise RuntimeError
  else Ok (mkTensor [repeat (Fin 0) (Z.to_nat d)] (Z.to_nat d) false).

(** ** The loss engine: [class DINOLoss] *)

Record DINOLoss : Type := mkDINOLoss {
  student_temp : scalar;
  center_momentum : scalar;
  ncrops : Z;
  center : Tensor;
  teacher_temp_schedule : list scalar
}.

Definition default_student_temp : scalar := Fin (1 / 10).
Definition default_center_momentum : scalar := Fin (9 / 10).

(** [DINOLoss.__init__]. *)
Definition DINOLoss_init (out_dim ncrops : Z)
    (warmup_teacher_temp teacher_temp : scalar)
    (warmup_teacher_temp_epochs nepochs : Z)
    (student_temp center_momentum : scalar) : res DINOLoss :=
  let* center := torch_zeros_row out_dim in
  let* ramp :=
    np_linspace warmup_teacher_temp teacher_temp warmup_teacher_temp_epochs in
  let* ones := np_ones (nepochs - warmup_teacher_temp_epochs) in
  Ok (mkDINOLoss student_temp center_momentum ncrops center
        (ramp ++ map (fun o => o * teacher_temp)%S ones)).

(** *** Gradient mode

    The only autograd fact the training loop relies on: a tensor computed
    under [torch.no_grad] does not require grad, whatever its inputs. *)

Inductive grad_mode : Type := GradEnabled | NoGrad.

Definition result_requires_grad (mode : grad_mode) (inputs : list Tensor)
  : bool :=
  match mode with
  | NoGrad => false
  | GradEnabled => existsb requires_grad inputs
  end.

(** *** [DINOLoss.update_center]

    [peers] are the [teacher_output] tensors of the other workers in the
    same step: [dist.all_reduce] adds their column sums to the local one,
    and [dist.get_world_size()] counts them and the local worker. *)

Definition all_reduce (local : list scalar) (contributions : list (list scalar))
  : list scalar :=
  fold_left (zip_with sadd) contributions local.

Definition get_world_size (peers : list Tensor) : nat := S (length peers).

Definition center_row (self : DINOLoss) : list scalar :=
  hd [] (rows (center self)).

Definition update_center (self : DINOLoss) (teacher_output : Tensor)
    (peers : list Tensor) : DINOLoss :=
  let batch_center :=
    sum_dim0 (ncols teacher_output) (rows teacher_output) in
  let batch_center :=
    all_reduce batch_center
      (map (fun p => sum_dim0 (ncols p) (rows p)) peers) in
  let batch_center :=
    map (fun x => x / of_nat (length (rows teacher_output)
                              * get_world_size peers))%S batch_center in
  (* ema update *)
  let new_center :=
    mzip sadd
      (mmul_scalar (rows (center self)) (center_momentum self))
      (mmul_scalar [batch_center] (Fin 1 - center_momentum self)%S) in
  mkDINOLoss (student_temp self) (center_momentum self) (ncrops self)
    (mkTensor new_center (ncols (center self))
       (result_requires_grad NoGrad [center self; teacher_output]))
    (teacher_temp_schedule self).

(** *** [DINOLoss.forward] *)

(** One pair term: [torch.sum(-q * F.log_softmax(s, dim=-1), dim=-1).mean()]. *)
Definition pair_loss (q s : matrix) : scalar :=
  vmean (sum_last_dim (mzip smul (mneg q) (log_softmax s))).

(** The double loop over teacher views and student views; the state is
    [(total_loss, n_loss_terms)]. *)
Definition loss_loop (teacher_out student_out : list matrix)
  : scalar * nat :=
  fold_left
    (fun acc iqq =>
       let '(iq, q) := iqq in
       fold_left
         (fun acc v =>
            if Nat.eqb v iq then acc
            else
              let loss := pair_loss q (nth v student_out []) in
              ((fst acc + loss)%S, S (snd acc)))
         (seq 0 (length student_out)) acc)
    (enumerate teacher_out) (Fin 0, 0).

Definition forward (self : DINOLoss) (student_output teacher_output : Tensor)
    (epoch : Z) (peers : list Tensor) : res (scalar * DINOLoss) :=
  let student_out := mdiv_scalar (rows student_output) (student_temp self) in
  let* student_out := chunk student_out (ncrops self) in
  (* teacher centering and sharpening *)
  let* temp := py_index (teacher_temp_schedule self) epoch in
  let teacher_out :=
    softmax (mdiv_scalar (msub_row (rows teacher_output) (center_row self))
                         temp) in
  let* teacher_out := chunk teacher_out 2 in
  let '(total_loss, n_loss_terms) := loss_loop teacher_out student_out in
  if Nat.eqb n_loss_terms 0 then Raise ZeroDivisionError
  else
    let total_loss := (total_loss / of_nat n_loss_terms)%S in
    Ok (total_loss, update_center self teacher_output peers).

(** The loss-engine state after a call: every raise of [forward] happens
    before its only assignment, the one in [update_center]. *)
Definition state_after (self : DINOLoss) (r : res (scalar * DINOLoss))
  : DINOLoss :=
  match r with
  | Ok (_, self') => self'
  | Raise _ => self
  end.

(** ** Multi-crop augmentation: [class DataAugmentationDINO] *)

(** The members of a [transforms.Compose]. *)
Inductive transform : Type :=
| RandomResizedCrop (size : nat) (scale : scalar * scalar)
| flip_and_color_jitter
| augmix_aug
| augmix_aug1
| augmix_aug2
| normalize.

Record DataAugmentationDINO : Type := mkDataAugmentationDINO {
  global_transfo1 : list transform;
  global_transfo2 : list transform;
  local_crops_number : Z;
  local_transfo : list transform
}.

(** [DataAugmentationDINO.__init__]; [args_augmix] is the module-level
    [args.augmix] the constructor reads. *)
Definition DataAugmentationDINO_init (args_augmix : bool)
    (global_crops_scale local_crops_scale : scalar * scalar)
    (local_crops_number : Z) : DataAugmentationDINO :=
  mkDataAugmentationDINO
    [RandomResizedCrop 224 global_crops_scale;
     if args_augmix then augmix_aug1 else flip_and_color_jitter;
     normalize]
    [RandomResizedCrop 224 global_crops_scale;
     if args_augmix then augmix_aug2 else flip_and_color_jitter;
     normalize]
    local_crops_number
    [RandomResizedCrop 96 local_crops_scale;
     if args_augmix then augmix_aug else flip_and_color_jitter;
     normalize].

Section Augmentation.

(** Images (PIL images and image tensors alike) and the state of the
    random generators the transforms draw from. *)
Variables Image Rng : Type.

(** One torchvision or AugMix transform applied to an image. *)
Variable apply_transform : transform -> Image -> Rng -> Image * Rng.

(** [transforms.Compose(ts)(image)]. *)
Definition Compose (ts : list transform) (image : Image) (rng : Rng)
  : Image * Rng :=
  fold_left (fun ir t => apply_transform t (fst ir) (snd ir)) ts (image, rng).

(** [DataAugmentationDINO.__call__]. *)
Definition DataAugmentationDINO_call (self : DataAugmentationDINO)
    (image : Image) (rng : Rng) : list Image * Rng :=
  let crops := [] in
  let '(c1, rng) := Compose (global_transfo1 self) image rng in
  let crops := crops ++ [c1] in
  let '(c2, rng) := Compose (global_transfo2 self) image rng in
  let crops := crops ++ [c2] in
  fold_left
    (fun (st : list Image * Rng) (i : nat) =>
       let '(c, rng') := Compose (local_transfo self) image (snd st) in
       (fst st ++ [c], rng'))
    (py_range (local_crops_number self)) (crops, rng).

(** The generator state before the [i]-th local crop is drawn. *)
Fixpoint rng_before_local (local : list transform) (image : Image)
    (rng : Rng) (i : nat) : Rng :=
  match i with
  | O => rng
  | S i' => rng_before_local local image (snd (Compose local image rng)) i'
  end.

End Augmentation.

(** ** Architecture selection in [train_dino] *)

(** [s.replace(old, new)] for a non-empty [old]: occurrences are replaced
    left to right without overlap.  [skip] counts the characters of a
    matched occurrence still to be dropped. *)
Fixpoint str_replace_from (old new : string) (skip : nat) (s : string)
  : string :=
  match s with
  | EmptyString => EmptyString
  | String c s' =>
      match skip with
      | S k => str_replace_from old new k s'
      | O =>
          if prefix old s
          then append new (str_replace_from old new (String.length old - 1) s')
          else String c (str_replace_from old new 0 s')
      end
  end.

Definition str_replace (s old new : string) : string :=
  str_replace_from old new 0 s.

Definition str_in (s : string) (l : list string) : bool :=
  existsb (String.eqb s) l.

(** Where a network was built from. *)
Inductive model : Type :=
| VitsModel (arch : string) (patch_size : Z) (drop_path_rate : option scalar)
| HubXcitModel (arch : string) (drop_path_rate : option scalar)
| TorchvisionModel (arch : string).

(** The local variables of [train_dino] bound by the selection: [None] is
    a name that was never assigned. *)
Record arch_locals : Type := mkArchLocals {
  args_arch : string;
  student_local : option model;
  teacher_local : option model;
  embed_dim_local : option Z;
  printed : list string
}.

Section Architecture.

(** [vits.__dict__.keys()], [torch.hub.list("facebookresearch/xcit:main")]
    and [torchvision_models.__dict__.keys()]. *)
Variables vits_names hub_xcit_names torchvision_names : list string.

(** [torchvision_archs]: the lower-case callables of torchvision. *)
Variable torchvision_archs : list string.

(** The call that builds a network, [vits.__dict__[arch](...)],
    [torch.hub.load(...)] or [torchvision_models.__dict__[arch]()]: the
    exception it raises, if any.  The tables hold every name of a module,
    not only its model builders, and a name bound to something that is not
    callable, or that needs other arguments, raises when it is called. *)
Variable build_raises : model -> option exn.

Definition build (m : model) : res model :=
  match build_raises m with
  | Some e => Raise e
  | None => Ok m
  end.

(** [student.embed_dim], or [student.fc.weight.shape[1]] for torchvision:
    [None] for a model without the attribute read, as the torchvision
    models that have no [fc] layer. *)
Variable embed_dim_of : model -> option Z.

Definition read_embed_dim (student : model) : res Z :=
  match embed_dim_of student with
  | Some embed_dim => Ok embed_dim
  | None => Raise AttributeError
  end.

(** Lines 167-188: the renaming of DeiT and the [if / elif / elif / else]
    over the three model sources. *)
Definition select_arch (arch : string) (patch_size : Z)
    (drop_path_rate : scalar) : res arch_locals :=
  let arch := str_replace arch "deit" "vit" in
  if str_in arch vits_names then
    let* student := build (VitsModel arch patch_size (Some drop_path_rate)) in
    let* teacher := build (VitsModel arch patch_size None) in
    let* embed_dim := read_embed_dim student in
    Ok (mkArchLocals arch (Some student) (Some teacher) (Some embed_dim) [])
  else if str_in arch hub_xcit_names then
    let* student := build (HubXcitModel arch (Some drop_path_rate)) in
    let* teacher := build (HubXcitModel arch None) in
    let* embed_dim := read_embed_dim student in
    Ok (mkArchLocals arch (Some student) (Some teacher) (Some embed_dim) [])
  else if str_in arch torchvision_names then
    let* student := build (TorchvisionModel arch) in
    let* teacher := build (TorchvisionModel arch) in
    let* embed_dim := read_embed_dim student in
    Ok (mkArchLocals arch (Some student) (Some teacher) (Some embed_dim) [])
  else
    Ok (mkArchLocals arch None None None
          [append "Unknow architecture: " arch]).

(** Reading a local variable. *)
Definition read_local {A} (name : string) (v : option A) : res A :=
  match v with
  | Some a => Ok a
  | None => Raise (UnboundLocalError name)
  end.

(** Lines 191-200: the two [utils.MultiCropWrapper(...)] calls, as far as
    the names they read: [student] and [embed_dim], then [teacher]. *)
Definition wrap_networks (l : arch_locals) : res (model * model) :=
  let* student := read_local "student" (student_local l) in
  let* _ := read_local "embed_dim" (embed_dim_local l) in
  let* teacher := read_local "teacher" (teacher_local l) in
  Ok (student, teacher).

(** [--arch] as declared in [get_args_parser]: the accepted names. *)
Definition arch_choices : list string :=
  ["vit_tiny"; "vit_small"; "vit_base"; "xcit"; "deit_tiny"; "deit_small"]%string
  ++ torchvision_archs ++ hub_xcit_names.

End Architecture.

(** ** Student and teacher parameters, one training iteration *)

(** A parameter set: names with their tensors, in module order. *)
Definition ParameterSet : Type := list (string * Tensor).

Definition lookup_state (name : string) (state : list (string * Tensor))
  : option Tensor :=
  option_map snd (find (fun kv => String.eqb name (fst kv)) state).

Definition same_shape (a b : Tensor) : bool :=
  Nat.eqb (length (rows a)) (length (rows b)) && Nat.eqb (ncols a) (ncols b).

(** [module.load_state_dict(state)] (strict): every name of the module must
    be in [state] with the same shape and [state] must have no other name,
    else a runtime error; the values are copied into the module's own
    tensors, whose [requires_grad] flags stay as they are. *)
Definition load_state_dict (target : ParameterSet)
    (state : list (string * Tensor)) : res ParameterSet :=
  if forallb (fun kv => str_in (fst kv) (map fst target)) state
     && forallb (fun kv => match lookup_state (fst kv) state with
                           | Some v => same_shape (snd kv) v
                           | None => false
                           end) target
  then
    Ok (map (fun kv =>
               match lookup_state (fst kv) state with
               | Some v => (fst kv, mkTensor (rows v) (ncols (snd kv))
                                             (requires_grad (snd kv)))
               | None => kv
               end) target)
  else Raise RuntimeError.

(** [for p in teacher.parameters(): p.requires_grad = False]. *)
Definition freeze (ps : ParameterSet) : ParameterSet :=
  map (fun kv => (fst kv, mkTensor (rows (snd kv)) (ncols (snd kv)) false)) ps.

(** Lines 215-219 of [train_dino]: the teacher starts with the student's
    weights and its parameters stop requiring gradients. *)
Definition init_teacher (student teacher : ParameterSet) : res ParameterSet :=
  let* teacher := load_state_dict teacher student in
  Ok (freeze teacher).

(** [param_k.data.mul_(m).add_((1 - m) * param_q.detach().data)]: the data
    of the teacher parameter is rewritten in place; its flags are not
    touched. *)
Definition ema_param (m : scalar) (param_q param_k : Tensor) : Tensor :=
  mkTensor
    (mzip sadd (mmul_scalar (rows param_k) m)
               (map (map (fun x => (Fin 1 - m) * x)%S) (rows param_q)))
    (ncols param_k) (requires_grad param_k).

(** The loop over [zip(student.parameters(), teacher.parameters())]:
    parameters are paired by position, and the teacher parameters beyond
    the shorter of the two lists are left as they are. *)
Fixpoint ema_update (m : scalar) (student teacher : ParameterSet)
  : ParameterSet :=
  match student, teacher with
  | (_, param_q) :: student', (name, param_k) :: teacher' =>
      (name, ema_param m param_q param_k) :: ema_update m student' teacher'
  | _, _ => teacher
  end.

(** How a Python float prints: the three non-finite values by name. *)
Definition format_float (repr_finite : R -> string) (x : scalar) : string :=
  match x with
  | Fin r => repr_finite r
  | PInf => "inf"
  | NInf => "-inf"
  | NaN => "nan"
  end.

Inductive outcome (S : Type) : Type :=
| Continue (st : S)
| SysExit (code : Z) (st : S)
| Raised (e : exn) (st : S).
Arguments Continue {S} st.
Arguments SysExit {S} code st.
Arguments Raised {S} e st.

(** A parameter group of the optimizer, as far as the training loop writes
    it: its learning rate and its weight decay. *)
Record param_group : Type := mkParamGroup {
  group_lr : scalar;
  group_weight_decay : scalar
}.

(** Lines 319-322 of [train_one_epoch], the loop over
    [enumerate(optimizer.param_groups)] from group [i] on: every group gets
    [lr_schedule[it]] and only the first one [wd_schedule[it]].  The tables
    are read once per group, so an index out of range raises with the
    groups before it written, and is not noticed without groups. *)
Fixpoint set_schedules (lr_schedule wd_schedule : list scalar) (it : Z)
    (i : nat) (param_groups : list param_group)
  : list param_group * option exn :=
  match param_groups with
  | [] => ([], None)
  | g :: rest =>
      match py_index lr_schedule it with
      | Raise e => (g :: rest, Some e)
      | Ok lr =>
          let g := mkParamGroup lr (group_weight_decay g) in
          if Nat.eqb i 0 then (* only the first group is regularized *)
            match py_index wd_schedule it with
            | Raise e => (g :: rest, Some e)
            | Ok wd =>
                let g := mkParamGroup (group_lr g) wd in
                let '(rest, raised) :=
                  set_schedules lr_schedule wd_schedule it (S i) rest in
                (g :: rest, raised)
            end
          else
            let '(rest, raised) :=
              set_schedules lr_schedule wd_schedule it (S i) rest in
            (g :: rest, raised)
      end
  end.

Section Training.

(** A batch of views, and the state of the optimizer other than the
    learning rate and the weight decay of its parameter groups (with the
    gradient scaler when mixed precision is on). *)
Variables Views Optimizer : Type.

(** The two networks: [teacher(images[:2])] and [student(images)]. *)
Variable teacher_net : ParameterSet -> Views -> Tensor.
Variable student_net : ParameterSet -> Views -> Tensor.
Variable first_two : Views -> Views.

(** The student update: [optimizer.zero_grad()], the backward pass of the
    loss, gradient clipping, [cancel_gradients_last_layer] and
    [optimizer.step()] (through the scaler under fp16).  The optimizer is
    built from [utils.get_params_groups(student)] and the loss reaches the
    teacher only through its detached output, so the update is a function
    of the student parameters, the views, that output, the loss engine as
    it was when the loss was computed, the epoch and the parameter groups
    with the learning rate and weight decay the loop has just written. *)
Variable optimizer_step :
  Optimizer -> list param_group -> ParameterSet -> Views -> Tensor ->
  DINOLoss -> Z -> Optimizer * ParameterSet.

(** [repr] of a finite float. *)
Variable repr_finite : R -> string.

Record TrainState : Type := mkTrainState {
  student : ParameterSet;
  teacher : ParameterSet;
  dino_loss : DINOLoss;
  optimizer : Optimizer;
  param_groups : list param_group;
  stdout : list string
}.

Record Schedules : Type := mkSchedules {
  lr_schedule : list scalar;
  wd_schedule : list scalar;
  momentum_schedule : list scalar
}.

(** The body of the [for it, (images, _) in enumerate(...)] loop of
    [train_one_epoch]; [len_data_loader] is [len(data_loader)] and [peers]
    are the teacher outputs of the other workers in this step. *)
Definition train_iteration (sch : Schedules) (epoch len_data_loader : Z)
    (st : TrainState) (it : Z) (images : Views) (peers : list Tensor)
  : outcome TrainState :=
  (* global training iteration *)
  let it := (len_data_loader * epoch + it)%Z in
  (* update weight decay and learning rate according to their schedule *)
  let '(groups, raised) :=
    set_schedules (lr_schedule sch) (wd_schedule sch) it 0 (param_groups st) in
  let st_written :=
    mkTrainState (student st) (teacher st) (dino_loss st) (optimizer st)
      groups (stdout st) in
  match raised with
  | Some e => Raised e st_written
  | None =>
  let teacher_output := teacher_net (teacher st) (first_two images) in
  let student_output := student_net (student st) images in
  match forward (dino_loss st) student_output teacher_output epoch peers with
  | Raise e => Raised e st_written
  | Ok (loss, dino_loss') =>
  if negb (isfinite loss) then
    SysExit 1
      (mkTrainState (student st) (teacher st) dino_loss' (optimizer st)
         groups
         (stdout st ++
          [append "Loss is "
             (append (format_float repr_finite loss)
                     ", stopping training")]))
  else
    (* student update *)
    let '(optimizer', student') :=
      optimizer_step (optimizer st) groups (student st) images teacher_output
        (dino_loss st) epoch in
    (* EMA update for the teacher *)
    match py_index (momentum_schedule sch) it with
    | Raise e =>
        Raised e (mkTrainState student' (teacher st) dino_loss' optimizer'
                    groups (stdout st))
    | Ok m =>
        Continue (mkTrainState student' (ema_update m student' (teacher st))
                    dino_loss' optimizer' groups (stdout st))
    end
  end end.

(** The iterations of one epoch over the batches of the data loader: the
    loop stops at the first exit or exception. *)
Fixpoint train_batches (sch : Schedules) (epoch len_data_loader : Z)
    (st : TrainState) (it : Z) (batches : list (Views * list Tensor))
  : outcome TrainState :=
  match batches with
  | [] => Continue st
  | (images, peers) :: rest =>
      match train_iteration sch epoch len_data_loader st it images peers with
      | Continue st' =>
          train_batches sch epoch len_data_loader st' (it + 1) rest
      | stop => stop
      end
  end.

(** The files written by [utils.save_on_master]: [checkpoint.pth] and
    [checkpoint{epoch:04}.pth]. *)
Inductive checkpoint_path : Type :=
| checkpoint_pth
| checkpoint_numbered (epoch : Z).

(** [save_dict], without [args] and the state of the gradient scaler. *)
Record SaveDict : Type := mkSaveDict {
  saved_student : ParameterSet;
  saved_teacher : ParameterSet;
  saved_optimizer : Optimizer * list param_group;
  saved_epoch : Z;
  saved_dino_loss : DINOLoss
}.

Definition save_dict (st : TrainState) (epoch : Z) : SaveDict :=
  mkSaveDict (student st) (teacher st) (optimizer st, param_groups st)
    (epoch + 1) (dino_loss st).

(** What one epoch of [train_dino] writes after [train_one_epoch] has
    returned: [saveckp_freq] is tested for truth before it divides. *)
Definition epoch_writes (saveckp_freq : Z) (st : TrainState) (epoch : Z)
  : list (checkpoint_path * SaveDict) :=
  (checkpoint_pth, save_dict st epoch)
  :: (if negb (saveckp_freq =? 0)%Z && (epoch mod saveckp_freq =? 0)%Z
      then [(checkpoint_numbered epoch, save_dict st epoch)]
      else []).

(** The loop [for epoch in range(start_epoch, args.epochs)] of
    [train_dino] over the epochs still to run; [data_loader epoch] are the
    batches after [data_loader.sampler.set_epoch(epoch)], and [saved] are
    the writes of the master process in order.  An exit or an exception in
    an epoch ends the loop before that epoch writes. *)
Fixpoint train_epochs (sch : Schedules) (len_data_loader saveckp_freq : Z)
    (data_loader : Z -> list (Views * list Tensor)) (epochs : list Z)
    (st : TrainState) (saved : list (checkpoint_path * SaveDict))
  : outcome TrainState * list (checkpoint_path * SaveDict) :=
  match epochs with
  | [] => (Continue st, saved)
  | epoch :: rest =>
      match train_batches sch epoch len_data_loader st 0 (data_loader epoch)
      with
      | Continue st' =>
          train_epochs sch len_data_loader saveckp_freq data_loader rest st'
            (saved ++ epoch_writes saveckp_freq st' epoch)
      | stop => (stop, saved)
      end
  end.

End Training.

(** [--augmix] as declared in [get_args_parser], [default=True, type=bool]:
    argparse applies [bool] to the string of the command line, and
    [bool(s)] of a string is false for the empty string only.  [None] is a
    command line without the option. *)
Definition py_bool_of_str (s : string) : bool := negb (String.eqb s "").

Definition parse_augmix (value : option string) : bool :=
  match value with
  | None => true
  | Some s => py_bool_of_str s
  end.

(** [--optimizer] as declared in [get_args_parser], and lines 232-238 of
    [train_dino]: an [if / elif / elif] without [else], so another name
    leaves [optimizer] unbound. *)
Definition optimizer_choices : list string := ["adamw"; "sgd"; "lars"]%string.

Inductive optimizer_kind : Type :=
| AdamW                              (* to use with ViTs *)
| SGD (lr momentum : scalar)         (* lr is set by scheduler *)
| LARS.                              (* to use with convnet and large batches *)

Definition select_optimizer (args_optimizer : string) : option optimizer_kind :=
  if String.eqb args_optimizer "adamw" then Some AdamW
  else if String.eqb args_optimizer "sgd" then Some (SGD (Fin 0) (Fin (9 / 10)))
  else if String.eqb args_optimizer "lars" then Some LARS
  else None.

(** Lines 222-229 of [train_dino]: the loss engine is built for the two
    global crops and the local ones, with the default student temperature
    and center momentum of the constructor. *)
Definition train_dino_loss (out_dim local_crops_number : Z)
    (warmup_teacher_temp teacher_temp : scalar)
    (warmup_teacher_temp_epochs epochs : Z) : res DINOLoss :=
  DINOLoss_init out_dim
    (local_crops_number + 2) (* total number of crops *)
    warmup_teacher_temp teacher_temp warmup_teacher_temp_epochs epochs
    default_student_temp default_center_momentum.

(** ** AugMix: [class Augmix] *)

Module Augmix.

(** The augmentation operators, the methods of the class. *)
Inductive aug_op : Type :=
| autocontrast | equalize | posterize | rotate | solarize
| shear_x | shear_y | translate_x | translate_y
| color | contrast | brightness | sharpness.

(** The two operator lists of [aug], [aug1] and [aug2]. *)
Definition augmentations : list aug_op :=
  [autocontrast; equalize; posterize; rotate; solarize; shear_x; shear_y;
   translate_x; translate_y].

Definition augmentations_all : list aug_op :=
  [autocontrast; equalize; posterize; rotate; solarize; color; contrast;
   brightness; sharpness; shear_x; shear_y; translate_x; translate_y].

(** The four attributes the methods read from the module-level [args];
    [None] is an attribute that is not there. *)
Record augmix_args : Type := mkAugmixArgs {
  arg_all_ops : option bool;
  arg_mixture_width : option Z;
  arg_mixture_depth : option Z;
  arg_aug_severity : option R
}.

Record profile : Type := mkProfile {
  all_ops : bool;
  mixture_depth : Z;
  mixture_width : Z;
  aug_severity : R
}.

(** The [try: ... except Exception: ...] at the head of each method: the
    four attributes are read in turn, and the first one that is missing (or
    a missing [args]) sends control to the handler, which sets all four. *)
Definition read_profile (args : option augmix_args) (fallback : profile)
  : profile :=
  match args with
  | None => fallback
  | Some a =>
      match arg_all_ops a with
      | None => fallback
      | Some ops =>
      match arg_mixture_width a with
      | None => fallback
      | Some width =>
      match arg_mixture_depth a with
      | None => fallback
      | Some depth =>
      match arg_aug_severity a with
      | None => fallback
      | Some severity => mkProfile ops depth width severity
      end end end end
  end.

(** The handlers of [aug], [aug1] and [aug2]. *)
Definition aug_fallback : profile := mkProfile true 2 1 2.
Definition aug1_fallback : profile := mkProfile true 2 1 3.
Definition aug2_fallback : profile := mkProfile true 2 2 1.

(** [int(x)] of a finite float: truncation towards zero. *)
Definition py_int (x : R) : Z :=
  if Rle_dec 0 x then Int_part x else (- Int_part (- x))%Z.

(** [int_parameter] and [float_parameter]. *)
Definition int_parameter (level maxval : R) : Z :=
  py_int (level * maxval / 10).

Definition float_parameter (level maxval : R) : R :=
  (level * maxval / 10)%R.

(** What an operator passes to the imaging library. *)
Inductive op_param : Type :=
| NoParam
| IntParam (z : Z)
| FloatParam (r : R).

(** The magnitude each operator computes from its draws: [u] is the value
    of [sample_level(level)], [flip] tells whether the sign draw
    ([np.random.uniform() > 0.5], [np.random.random() > 0.5]) came out
    true, and [IMAGE_SIZE] is the width of the image. *)
Definition op_magnitude (op : aug_op) (IMAGE_SIZE : Z) (u : R) (flip : bool)
  : op_param :=
  let signed_int (z : Z) := if flip then (- z)%Z else z in
  let signed_float (r : R) := if flip then (- r)%R else r in
  match op with
  | autocontrast | equalize => NoParam
  | posterize => IntParam (4 - int_parameter u 4)
  | rotate => IntParam (signed_int (int_parameter u 30))
  | solarize => IntParam (256 - int_parameter u 256)
  | shear_x | shear_y => FloatParam (signed_float (float_parameter u (3 / 10)))
  | translate_x | translate_y =>
      IntParam (signed_int (int_parameter u (IZR IMAGE_SIZE / 3)))
  | color | contrast | brightness | sharpness =>
      FloatParam (float_parameter u (18 / 10) + 1 / 10)
  end.

Section Mixing.

(** Images and the state of NumPy's random generator. *)
Variables Image Rng : Type.

(** [np.float32(np.random.dirichlet(alpha))], [np.float32(np.random.beta(1, 1))],
    [np.random.randint(1, 4)] and [np.random.choice(ops)]. *)
Variable dirichlet : list Z -> Rng -> list scalar * Rng.
Variable beta_1_1 : Rng -> scalar * Rng.
Variable randint_1_4 : Rng -> Z * Rng.
Variable choice : list aug_op -> Rng -> aug_op * Rng.

(** An operator applied to an image at a severity, with its own draws. *)
Variable apply_op : aug_op -> Image -> R -> Rng -> Image * Rng.

(** [self.preprocess] ([ToTensor]), the pixel values as one sequence, and
    [transforms.ToPILImage()]. *)
Variable preprocess : Image -> list scalar.
Variable ToPILImage : list scalar -> Image.

(** The [for _ in range(depth)] loop: each round draws an operator from the
    first list and applies it, then one from the second list. *)
Fixpoint chain (aug_severity : R) (aug_list1 aug_list2 : list aug_op)
    (rounds : list nat) (image_aug : Image) (rng : Rng) : Image * Rng :=
  match rounds with
  | [] => (image_aug, rng)
  | _ :: rounds' =>
      let '(op1, rng) := choice aug_list1 rng in
      let '(image_aug, rng) := apply_op op1 image_aug aug_severity rng in
      let '(op2, rng) := choice aug_list2 rng in
      let '(image_aug, rng) := apply_op op2 image_aug aug_severity rng in
      chain aug_severity aug_list1 aug_list2 rounds' image_aug rng
  end.

(** [depth = mixture_depth if mixture_depth > 0 else np.random.randint(1, 4)]. *)
Definition chain_depth (p : profile) (rng : Rng) : Z * Rng :=
  if (0 <? mixture_depth p)%Z then (mixture_depth p, rng)
  else randint_1_4 rng.

(** The [for i in range(mixture_width)] loop. *)
Fixpoint mix_chains (p : profile) (aug_list1 aug_list2 : list aug_op)
    (image : Image) (ws : list scalar) (indices : list nat)
    (mix : list scalar) (rng : Rng) : res (list scalar * Rng) :=
  match indices with
  | [] => Ok (mix, rng)
  | i :: indices' =>
      let image_aug := image in
      let '(depth, rng) := chain_depth p rng in
      let '(image_aug, rng) :=
        chain (aug_severity p) aug_list1 aug_list2 (py_range depth)
          image_aug rng in
      (* Preprocessing commutes since all coefficients are convex *)
      let* w := py_index ws (Z.of_nat i) in
      mix_chains p aug_list1 aug_list2 image ws indices'
        (zip_with sadd mix (map (fun x => w * x)%S (preprocess image_aug)))
        rng
  end.

(** The body shared by [aug], [aug1] and [aug2], after the profile is
    read. *)
Definition augment_and_mix (p : profile) (image : Image) (rng : Rng)
  : res (Image * Rng) :=
  let aug_list := if all_ops p then augmentations_all else augmentations in
  let '(ws, rng) :=
    dirichlet (repeat 1%Z (Z.to_nat (mixture_width p))) rng in
  let '(m, rng) := beta_1_1 rng in
  let aug_list1 := firstn 8 aug_list in
  let aug_list2 := skipn 8 aug_list in
  let mix := map (fun _ => Fin 0) (preprocess image) in
  let* (mix, rng) :=
    mix_chains p aug_list1 aug_list2 image ws (py_range (mixture_width p))
      mix rng in
  let mixed :=
    zip_with sadd (map (fun x => (Fin 1 - m) * x)%S (preprocess image))
                  (map (fun x => m * x)%S mix) in
  Ok (ToPILImage mixed, rng).

Definition aug (args : option augmix_args) :=
  augment_and_mix (read_profile args aug_fallback).
Definition aug1 (args : option augmix_args) :=
  augment_and_mix (read_profile args aug1_fallback).
Definition aug2 (args : option augmix_args) :=
  augment_and_mix (read_profile args aug2_fallback).

End Mixing.

End Augmix.

(** ** Vocabulary of the statements *)

(** The value at epoch [e] of the straight line from [w] to [t] over [W]
    warmup epochs. *)
Definition ramp_value (w t : R) (W e : nat) : R :=
  (w + INR e * ((t - w) / INR (W - 1)))%R.

(** The rows of view [i] in an embedding batch with [b] samples per view. *)
Definition view (b i : nat) (m : matrix) : matrix := narrow m (i * b) b.

(** The student embeddings scaled by [1 / student_temp]. *)
Definition student_scaled (self : DINOLoss) (student_output : Tensor)
  : matrix :=
  mdiv_scalar (rows student_output) (student_temp self).

(** The sharpened and centered teacher distribution at temperature [temp]. *)
Definition teacher_prob (self : DINOLoss) (teacher_output : Tensor)
    (temp : scalar) : matrix :=
  softmax (mdiv_scalar (msub_row (rows teacher_output) (center_row self))
                       temp).

(** The (teacher view, student view) pairs of [n] student views, in the
    order of the double loop: for each of the two teacher views, the student
    views of every other index. *)
Definition view_pairs (n : nat) : list (nat * nat) :=
  flat_map (fun iq => map (fun v => (iq, v))
                          (filter (fun v => negb (Nat.eqb v iq)) (seq 0 n)))
           [0; 1]%nat.

(** The term of one pair: the batch mean of the per-sample sums over the
    output dimension of [- teacher_prob[iq] * log_softmax(student_scaled[v])]. *)
Definition pair_term (self : DINOLoss) (student_output teacher_output : Tensor)
    (temp : scalar) (b : nat) (p : nat * nat) : scalar :=
  vmean
    (map vsum
       (mzip smul
          (mneg (view b (fst p) (teacher_prob self teacher_output temp)))
          (log_softmax (view b (snd p) (student_scaled self student_output))))).

(** The entry of a tensor at row [i] and column [j]. *)
Definition cell (m : matrix) (i j : nat) : scalar := nth j (nth i m []) NaN.

(** [f 0 + f 1 + ... + f (n - 1)], added up from the left. *)
Definition sum_upto (n : nat) (f : nat -> scalar) : scalar :=
  fold_left sadd (map f (seq 0 n)) (Fin 0).

(** The cross-entropy of teacher view [fst p] against student view [snd p]
    on a batch of [b] samples per view over [d] output dimensions, entry by
    entry.  For sample [i] and dimension [j], with [t] the teacher entry
    less the center entry, over the temperature, and [s] the student entry
    over the student temperature:
    - the teacher probability is [exp t_ij / sum_k exp t_ik],
    - the student log-probability is [s_ij - log (sum_k exp s_ik)],
    and the term is [sum_i (sum_j - prob_ij * logprob_ij) / b]. *)
Definition cross_entropy (self : DINOLoss)
    (student_output teacher_output : Tensor) (temp : scalar) (b d : nat)
    (p : nat * nat) : scalar :=
  let t i j :=
    ((cell (rows teacher_output) (fst p * b + i) j
      - cell (rows (center self)) 0 j) / temp)%S in
  let s i j :=
    (cell (rows student_output) (snd p * b + i) j / student_temp self)%S in
  let prob i j := (sexp (t i j) / sum_upto d (fun k => sexp (t i k)))%S in
  let logprob i j :=
    (s i j - slog (sum_upto d (fun k => sexp (s i k))))%S in
  (sum_upto b (fun i => sum_upto d (fun j => sneg (prob i j) * logprob i j))
   / of_nat b)%S.

(** Entry [j] of the mean of the rows of a tensor. *)
Definition column_mean (m : matrix) (j : nat) : scalar :=
  (sum_upto (length m) (fun i => cell m i j) / of_nat (length m))%S.

(** Entry [j] of the moving average of the center with the mean of the
    rows [m]: [center_j * momentum + mean_j * (1 - momentum)]. *)
Definition averaged_center (self : DINOLoss) (m : matrix) (j : nat) : scalar :=
  (cell (rows (center self)) 0 j * center_momentum self
   + column_mean m j * (Fin 1 - center_momentum self))%S.

(** The teacher rows of all workers of one step, the local ones first. *)
Definition all_rows (teacher_output : Tensor) (peers : list Tensor) : matrix :=
  rows teacher_output ++ concat (map rows peers).

(** Tensors without infinities and NaNs. *)
Definition finite_row (r : list scalar) : Prop :=
  Forall (fun x => isfinite x = true) r.
Definition finite_matrix (m : matrix) : Prop := Forall finite_row m.

(** ** Worked inputs *)

(** A loss engine over one output dimension, with a zero center and the
    constant temperature 0.04. *)
Definition small_loss (center_momentum : scalar) (ncrops : Z) : DINOLoss :=
  mkDINOLoss default_student_temp center_momentum ncrops
    (mkTensor [[Fin 0]] 1 false) [Fin (4 / 100)].

(** A loss engine over two output dimensions, with the center [c] and the
    constant temperature 0.04. *)
Definition wide_loss (c : list scalar) (center_momentum : scalar) (ncrops : Z)
  : DINOLoss :=
  mkDINOLoss default_student_temp center_momentum ncrops
    (mkTensor [c] 2 false) [Fin (4 / 100)].

(** Embeddings over two output dimensions.  An entry [ln 3 * temperature]
    gives the scaled logit [ln 3]: the softmax of the row [[ln 3; 0]] is
    [[3/4; 1/4]], the one of [[0; 0]] is [[1/2; 1/2]]. *)
Definition student_rows (m : matrix) : Tensor := mkTensor m 2 true.
Definition teacher_rows (m : matrix) : Tensor := mkTensor m 2 false.
Definition even_row : list scalar := [Fin 0; Fin 0].
Definition student_skewed_row : list scalar := [Fin (ln 3 / 10); Fin 0].
Definition teacher_skewed_row : list scalar := [Fin (ln 3 / 25); Fin 0].

(** A one-column tensor holding the given entries, one per row. *)
Definition column (entries : list scalar) : Tensor :=
  mkTensor (map (fun x => [x]) entries) 1 false.

(** Images reduced to their side length and the random generators to the
    number of draws made: a crop sets the side, the augmentations keep it. *)
Definition side_transform (t : transform) (side draws : nat) : nat * nat :=
  match t with
  | RandomResizedCrop size _ => (size, S draws)
  | normalize => (side, draws)
  | _ => (side, S draws)
  end.

(** Model names of the three sources, as far as the examples need them. *)
Definition some_vits_names : list string :=
  ["vit_tiny"; "vit_small"; "vit_base"]%string.
Definition some_hub_xcit_names : list string :=
  ["xcit_nano_12_p16"; "xcit_tiny_12_p16"; "xcit_small_12_p16"]%string.
Definition some_torchvision_names : list string :=
  ["resnet18"; "resnet50"; "ResNet"]%string.
Definition some_torchvision_archs : list string :=
  ["resnet18"; "resnet50"]%string.

(** The attribute [embed_dim] is read from: ViT and XCiT models have
    [embed_dim], and of the torchvision models the ResNets have [fc] while
    VGG has not. *)
Definition some_embed_dim (student : model) : option Z :=
  match student with
  | VitsModel _ _ _ | HubXcitModel _ _ => Some 384%Z
  | TorchvisionModel arch =>
      if String.eqb arch "vgg16" then None else Some 512%Z
  end.

(** The calls that build a network: all return but the one of the class
    [ResNet], which has required arguments. *)
Definition some_build_raises (m : model) : option exn :=
  match m with
  | TorchvisionModel arch =>
      if String.eqb arch "ResNet" then Some TypeError else None
  | _ => None
  end.

(** [torch.full]: a tensor with rows of the given lengths, every entry [v]. *)
Definition full (shape : list nat) (v : scalar) : matrix :=
  map (fun n => repeat v n) shape.

(** No parameter of the set requires grad. *)
Definition frozen (ps : ParameterSet) : Prop :=
  Forall (fun kv => requires_grad (snd kv) = false) ps.

(** The names and values of a parameter set, without the flags. *)
Definition values (ps : ParameterSet) : list (string * matrix) :=
  map (fun kv => (fst kv, rows (snd kv))) ps.

(** The state a run ends in. *)
Definition outcome_state {S} (o : outcome S) : S :=
  match o with
  | Continue st | SysExit _ st | Raised _ st => st
  end.

(** A training setup with constant networks: the teacher and the student
    return fixed embeddings, and the optimizer step leaves the student as
    it is.  There is one parameter, a 2 x 2 weight. *)
Definition constant_net (out : Tensor) (ps : ParameterSet) (images : unit)
  : Tensor := out.

Definition idle_optimizer_step (opt : unit) (groups : list param_group)
    (student : ParameterSet) (images : unit) (teacher_output : Tensor)
    (dl : DINOLoss) (epoch : Z) : unit * ParameterSet :=
  (opt, student).

(** Two parameter groups, the regularized one first, before any write. *)
Definition fresh_groups : list param_group :=
  [mkParamGroup (Fin 0) (Fin (4 / 100)); mkParamGroup (Fin 0) (Fin 0)].

Definition weight (v : scalar) (requires_grad : bool) : ParameterSet :=
  [("weight"%string, mkTensor (full [2; 2]%nat v) 2 requires_grad)].

Definition small_schedules (m : scalar) : Schedules :=
  mkSchedules [Fin 1; Fin 1; Fin 1] [Fin 1; Fin 1; Fin 1] [m; m; m].

Definition small_state (student teacher : ParameterSet) : TrainState unit :=
  mkTrainState unit student teacher (small_loss default_center_momentum 2)
    tt fresh_groups [].

Definition small_iteration (student_out teacher_out : Tensor) (m : scalar)
    (st : TrainState unit) (it : Z) : outcome (TrainState unit) :=
  train_iteration unit unit (constant_net teacher_out)
    (constant_net student_out) (fun images => images) idle_optimizer_step
    (fun _ => "finite"%string) (small_schedules m) 0 3 st it tt [].

(** [v] lies between [a] and [b]. *)
Definition between (a b v : R) : Prop := (Rmin a b <= v <= Rmax a b)%R.

(** The workers of a step other than the one of rank [i]. *)
Definition other_workers (i : nat) (workers : list Tensor) : list Tensor :=
  firstn i workers ++ skipn (S i) workers.

(** The sum of the finite entries of a row, as a real number. *)
Fixpoint real_sum (l : list scalar) : R :=
  match l with
  | [] => 0
  | Fin x :: l' => x + real_sum l'
  | _ :: l' => real_sum l'
  end.

(** Rows and tensors of finite entries that all satisfy [P]. *)
Definition row_sat (P : R -> Prop) (r : list scalar) : Prop :=
  Forall (fun x => exists v, x = Fin v /\ P v) r.
Definition matrix_sat (P : R -> Prop) (m : matrix) : Prop :=
  Forall (row_sat P) m.

(** The parameter groups after the scheduled values are written: every
    group holds the learning rate, the first one the weight decay too. *)
Definition scheduled_groups (lr wd : scalar) (groups : list param_group)
  : list param_group :=
  match groups with
  | [] => []
  | g :: rest =>
      mkParamGroup lr wd
      :: map (fun g' => mkParamGroup lr (group_weight_decay g')) rest
  end.

(** The parameters that [zip] pairs have tensors of the same shape. *)
Definition paired_shapes (student teacher : ParameterSet) : Prop :=
  forall p q k,
    nth_error student p = Some q -> nth_error teacher p = Some k ->
    Forall2 (fun rk rq => length rk = length rq)
            (rows (snd k)) (rows (snd q)).

(** The tensors of a step have the width of the center. *)
Definition widths_agree (self : DINOLoss) (tensors : list Tensor) : Prop :=
  Forall (fun t => wf_tensor t /\ ncols t = length (center_row self)) tensors.

(** A toy AugMix run: images are rows of black and white pixels, the
    generator state counts the draws, [choice] takes the first operator of
    its list, an operator inverts the image, the Dirichlet draw for one
    chain is the weight 1 and the Beta draw is one half. *)
Definition first_choice (ops : list Augmix.aug_op) (draws : nat)
  : Augmix.aug_op * nat :=
  (hd Augmix.autocontrast ops, S draws).

Definition invert_op (op : Augmix.aug_op) (image : list bool) (severity : R)
    (draws : nat) : list bool * nat :=
  (map negb image, S draws).

Definition bit_pixels (image : list bool) : list scalar :=
  map (fun b : bool => if b then Fin 1 else Fin 0) image.

Definition threshold_image (pixels : list scalar) : list bool :=
  map (fun x => negb (is_zero x)) pixels.

Definition sole_weight (alpha : list Z) (draws : nat) : list scalar * nat :=
  ([Fin 1], S draws).

Definition half_beta (draws : nat) : scalar * nat := (Fin (1 / 2), S draws).

Definition one_randint (draws : nat) : Z * nat := (1%Z, S draws).

(** Operators that only log their name on the image. *)
Definition log_op (op : Augmix.aug_op) (image : list Augmix.aug_op)
    (severity : R) (draws : nat) : list Augmix.aug_op * nat :=
  (image ++ [op], S draws).

(** * Properties *)

(** ** Scalars and sequences *)

Lemma sadd_zero_l (x : scalar) : (Fin 0 + x)%S = x.
Proof. destruct x; cbn; try reflexivity. f_equal; lra. Qed.

Lemma sgn_pos (r : R) : (0 < r)%R -> sgn r = Gt.
Proof. intros H. unfold sgn. destruct (Rlt_dec 0 r); [reflexivity | lra]. Qed.

Lemma sgn_eq0 (r : R) : r = 0%R -> sgn r = Eq.
Proof.
  intros ->. unfold sgn. destruct (Rlt_dec 0 0); [lra | reflexivity].
Qed.

Lemma sdiv_fin (a b : R) : b <> 0%R -> (Fin a / Fin b)%S = Fin (a / b).
Proof.
  intros Hb. cbn. destruct (Req_dec_T b 0); [contradiction | reflexivity].
Qed.

Lemma py_index_nth {A} (l : list A) (i : Z) (d : A) :
  (0 <= i < Z.of_nat (length l))%Z ->
  py_index l i = Ok (nth (Z.to_nat i) l d).
Proof.
  intros Hi. unfold py_index.
  replace (i <? 0)%Z with false by (symmetry; apply Z.ltb_ge; lia).
  replace (0 <=? i)%Z with true by (symmetry; apply Z.leb_le; lia).
  replace (i <? Z.of_nat (length l))%Z with true
    by (symmetry; apply Z.ltb_lt; lia).
  cbn. assert (Hn : (Z.to_nat i < length l)%nat) by lia.
  destruct (nth_error l (Z.to_nat i)) eqn:E.
  - f_equal. symmetry. now apply nth_error_nth.
  - apply nth_error_None in E. lia.
Qed.

Lemma nth_map_seq {A} (f : nat -> A) (n i : nat) (d : A) :
  (i < n)%nat -> nth i (map f (seq 0 n)) d = f i.
Proof.
  intros Hi. rewrite (nth_indep _ d (f 0%nat)) by (rewrite length_map, length_seq; lia).
  rewrite (map_nth f (seq 0 n) 0%nat i). now rewrite seq_nth.
Qed.

(** ** The teacher temperature schedule (C5) *)

Lemma np_linspace_fin (w t : R) (num : Z) :
  (0 <= num)%Z ->
  exists l, np_linspace (Fin w) (Fin t) num = Ok l
    /\ length l = Z.to_nat num
    /\ forall i, (i < Z.to_nat num)%nat ->
         nth i l NaN = Fin (ramp_value w t (Z.to_nat num) i).
Proof.
  intros Hnum. unfold np_linspace.
  replace (num <? 0)%Z with false by (symmetry; apply Z.ltb_ge; lia).
  set (n := Z.to_nat num). clearbody n. clear Hnum num.
  eexists. split; [reflexivity |].
  destruct n as [| [| k]].
  - cbn. split; [reflexivity | intros i Hi; lia].
  - cbn. split; [reflexivity |]. intros i Hi. assert (i = 0)%nat by lia. subst i.
    cbn. unfold ramp_value. cbn. f_equal. lra.
  - assert (Hdiv : INR (S k) <> 0%R) by (apply not_0_INR; lia).
    replace (Nat.ltb 1 (S (S k))) with true by reflexivity.
    replace (S (S k) - 1)%nat with (S k) by lia.
    replace (Nat.ltb 0 (S k)) with true by reflexivity.
    set (y := map (fun x => (x + Fin w)%S) _).
    assert (Hy : y = map (fun i => Fin (ramp_value w t (S (S k)) i))
                         (seq 0 (S (S k)))).
    { subst y. unfold ssub. cbn [sneg sadd].
      change (of_nat (S k)) with (Fin (INR (S k))).
      rewrite sdiv_fin by assumption. unfold is_zero.
      destruct (Req_dec_T ((t + - w) / INR (S k)) 0) as [Hz | Hz];
        rewrite !map_map; apply map_ext; intros i; unfold ramp_value, of_nat;
        replace (S (S k) - 1)%nat with (S k) by lia.
      - rewrite sdiv_fin by assumption. cbn. f_equal.
        assert (Ht : (t + - w = 0)%R).
        { apply (Rmult_eq_compat_r (INR (S k))) in Hz.
          unfold Rdiv in Hz. rewrite Rmult_assoc, Rinv_l in Hz by assumption.
          lra. }
        replace (t - w)%R with 0%R by lra. rewrite Ht.
        unfold Rdiv. lra.
      - cbn. f_equal. unfold Rdiv. lra. }
    rewrite Hy. clear y Hy.
    rewrite (seq_S (S k) 0), map_app. cbn [map Nat.add].
    rewrite removelast_last. split.
    + rewrite length_app, length_map, length_seq. cbn. lia.
    + intros i Hi. destruct (Nat.eq_dec i (S k)) as [-> | Hne].
      * rewrite app_nth2 by (rewrite length_map, length_seq; lia).
        rewrite length_map, length_seq, Nat.sub_diag. cbn [nth].
        f_equal. unfold ramp_value.
        replace (S (S k) - 1)%nat with (S k) by lia. field. assumption.
      * rewrite app_nth1 by (rewrite length_map, length_seq; lia).
        apply (nth_map_seq (fun j => Fin (ramp_value w t (S (S k)) j))). lia.
Qed.

Lemma ramp_value_first (w t : R) (W : nat) : ramp_value w t W 0 = w.
Proof. unfold ramp_value. cbn. lra. Qed.

Lemma ramp_value_last (w t : R) (W : nat) :
  (2 <= W)%nat -> ramp_value w t W (W - 1) = t.
Proof.
  intros HW. unfold ramp_value. field. apply not_0_INR. lia.
Qed.

(** C5.  For [0 <= warmup_teacher_temp_epochs <= nepochs] the constructor
    succeeds and builds a table with one entry per epoch: reading it at any
    epoch of [[0, nepochs)] is within bounds; the entries of the warmup
    epochs lie on the straight line that starts at [warmup_teacher_temp]
    and reaches [teacher_temp] at the last warmup epoch, and every later
    entry is [teacher_temp]. *)
Theorem teacher_temp_schedule_ramp_then_constant
    (out_dim ncrops_arg W n : Z) (w t : R) (st cm : scalar) :
  (0 <= out_dim)%Z -> (0 <= W <= n)%Z ->
  exists self,
    DINOLoss_init out_dim ncrops_arg (Fin w) (Fin t) W n st cm = Ok self
    /\ length (teacher_temp_schedule self) = Z.to_nat n
    /\ (forall epoch, (0 <= epoch < W)%Z ->
          py_index (teacher_temp_schedule self) epoch
          = Ok (Fin (ramp_value w t (Z.to_nat W) (Z.to_nat epoch))))
    /\ (forall epoch, (W <= epoch < n)%Z ->
          py_index (teacher_temp_schedule self) epoch = Ok (Fin t))
    /\ ramp_value w t (Z.to_nat W) 0 = w
    /\ ((2 <= W)%Z -> ramp_value w t (Z.to_nat W) (Z.to_nat W - 1) = t).
Proof.
  intros Hd [HW Hn].
  destruct (np_linspace_fin w t W HW) as (l & Hl & Hlen & Hnth).
  unfold DINOLoss_init, torch_zeros_row, np_ones.
  replace (out_dim <? 0)%Z with false by (symmetry; apply Z.ltb_ge; lia).
  replace (n - W <? 0)%Z with false by (symmetry; apply Z.ltb_ge; lia).
  cbn [bind]. rewrite Hl. cbn [bind].
  eexists. split; [reflexivity |]. cbn [teacher_temp_schedule].
  assert (Hlen' : length (l ++ map (fun o => (o * Fin t)%S)
                               (repeat (Fin 1) (Z.to_nat (n - W))))
                  = Z.to_nat n).
  { rewrite length_app, length_map, repeat_length, Hlen. lia. }
  split; [exact Hlen' |]. split; [| split; [| split]].
  - intros epoch He.
    rewrite (py_index_nth _ _ NaN) by lia.
    rewrite app_nth1 by lia. f_equal. apply Hnth. lia.
  - intros epoch He.
    rewrite (py_index_nth _ _ NaN) by lia.
    rewrite app_nth2 by lia. f_equal.
    rewrite map_repeat.
    rewrite nth_repeat_lt by lia. 
    cbn. f_equal. lra.
  - apply ramp_value_first.
  - intros H2. apply ramp_value_last. lia.
Qed.

(** C5, at [warmup_teacher_temp = 0.04], [teacher_temp = 0.07], 30 warmup
    epochs out of 100. *)
Lemma teacher_temp_schedule_ramp_then_constant_witness :
  (0 <= 1024)%Z /\ (0 <= 30 <= 100)%Z /\
  exists self,
    DINOLoss_init 1024 8 (Fin (4 / 100)) (Fin (7 / 100)) 30 100
      default_student_temp default_center_momentum = Ok self
    /\ length (teacher_temp_schedule self) = Z.to_nat 100
    /\ (forall epoch, (0 <= epoch < 30)%Z ->
          py_index (teacher_temp_schedule self) epoch
          = Ok (Fin (ramp_value (4 / 100) (7 / 100) (Z.to_nat 30)
                       (Z.to_nat epoch))))
    /\ (forall epoch, (30 <= epoch < 100)%Z ->
          py_index (teacher_temp_schedule self) epoch = Ok (Fin (7 / 100)))
    /\ ramp_value (4 / 100) (7 / 100) (Z.to_nat 30) 0 = (4 / 100)%R
    /\ ((2 <= 30)%Z ->
        ramp_value (4 / 100) (7 / 100) (Z.to_nat 30) (Z.to_nat 30 - 1)
        = (7 / 100)%R).
Proof.
  split; [lia |]. split; [lia |].
  apply teacher_temp_schedule_ramp_then_constant; lia.
Defined.

(** ** [torch.chunk] on an embedding batch *)

Lemma map_const_repeat {A B} (b : B) (l : list A) :
  map (fun _ => b) l = repeat b (length l).
Proof. induction l as [| a l IH]; cbn; [reflexivity | now rewrite IH]. Qed.

(** A batch of [c] views with [b] rows each is cut back into its views. *)
Lemma chunk_views {A} (l : list A) (c b : nat) :
  (0 < c)%nat -> length l = (c * b)%nat ->
  chunk l (Z.of_nat c) = Ok (map (fun i => narrow l (i * b) b) (seq 0 c)).
Proof.
  intros Hc Hl. unfold chunk.
  replace (Z.of_nat c <=? 0)%Z with false by (symmetry; apply Z.leb_gt; lia).
  rewrite Nat2Z.id, Hl.
  destruct b as [| b'].
  - rewrite Nat.mul_0_r, Nat.add_0_l.
    rewrite (Nat.div_small (c - 1) c) by lia. cbn [Nat.eqb andb].
    f_equal.
    transitivity (map (fun _ : nat => @nil A) (seq 0 c)).
    + now rewrite map_const_repeat, length_seq.
    + apply map_ext. intros i. unfold narrow. reflexivity.
  - set (b := S b') in *.
    assert (Hss : ((c * b + c - 1) / c = b)%nat).
    { replace (c * b + c - 1)%nat with (b * c + (c - 1))%nat by lia.
      rewrite Nat.div_add_l by lia. rewrite Nat.div_small by lia. lia. }
    rewrite Hss.
    replace (Nat.eqb b 0) with false by reflexivity. cbn [andb].
    f_equal. unfold split. rewrite Hl.
    replace (Nat.eqb b 0) with false by reflexivity.
    assert (Hns : ((c * b + b - 1) / b = c)%nat).
    { replace (c * b + b - 1)%nat with (c * b + (b - 1))%nat by lia.
      rewrite Nat.div_add_l by (subst b; lia).
      rewrite Nat.div_small by (subst b; lia). lia. }
    rewrite Hns, Nat.max_l by lia.
    apply map_ext. intros i.
    replace (b - (b * c - c * b))%nat with b by lia.
    now destruct (Nat.ltb i (c - 1)).
Qed.

(** ** The pairing loop (C1, C4) *)

Lemma filter_all {A} (f : A -> bool) (l : list A) :
  (forall x, In x l -> f x = true) -> filter f l = l.
Proof.
  induction l as [| a l IH]; intros H; cbn; [reflexivity |].
  rewrite (H a) by now left. f_equal. apply IH. intros x Hx. apply H. now right.
Qed.

(** [range(n)] without the index [iq]. *)
Lemma filter_other_views (iq n : nat) :
  (iq < n)%nat ->
  filter (fun v => negb (Nat.eqb v iq)) (seq 0 n)
  = seq 0 iq ++ seq (S iq) (n - S iq).
Proof.
  intros Hlt.
  replace n with (iq + (1 + (n - S iq)))%nat at 1 by lia.
  rewrite seq_app, seq_app, !filter_app. cbn [seq filter Nat.add].
  rewrite Nat.eqb_refl. cbn [negb app]. rewrite Nat.add_1_r.
  rewrite !filter_all; [reflexivity | |].
  - intros x Hx. apply in_seq in Hx.
    apply negb_true_iff, Nat.eqb_neq. lia.
  - intros x Hx. apply in_seq in Hx.
    apply negb_true_iff, Nat.eqb_neq. lia.
Qed.

Lemma length_other_views (iq n : nat) :
  (iq < n)%nat ->
  length (filter (fun v => negb (Nat.eqb v iq)) (seq 0 n)) = (n - 1)%nat.
Proof.
  intros Hlt. rewrite filter_other_views by assumption.
  rewrite length_app, !length_seq. lia.
Qed.

Lemma length_view_pairs (n : nat) :
  (2 <= n)%nat -> length (view_pairs n) = (2 * (n - 1))%nat.
Proof.
  intros Hn. unfold view_pairs. cbn [flat_map].
  rewrite app_nil_r, length_app, !length_map, !length_other_views by lia. lia.
Qed.

Lemma in_view_pairs (n iq v : nat) :
  In (iq, v) (view_pairs n) <-> (iq < 2 /\ v < n /\ v <> iq)%nat.
Proof.
  unfold view_pairs. rewrite in_flat_map. split.
  - intros (i & Hi & Hin). apply in_map_iff in Hin.
    destruct Hin as (v' & Heq & Hv'). inversion Heq; subst.
    apply filter_In in Hv'. destruct Hv' as [Hs Hne].
    apply in_seq in Hs. apply negb_true_iff, Nat.eqb_neq in Hne.
    cbn in Hi. lia.
  - intros (Hiq & Hv & Hne). exists iq. split.
    + cbn. lia.
    + apply in_map. apply filter_In. split.
      * apply in_seq. lia.
      * apply negb_true_iff, Nat.eqb_neq. assumption.
Qed.

(** The inner loop over the student views for one teacher view: the terms
    of the views other than [iq] are added to the total, in order, and
    counted. *)
Lemma inner_loop_terms (iq : nat) (q : matrix) (student_out : list matrix)
    (l : list nat) (acc : scalar * nat) :
  fold_left
    (fun acc v =>
       if Nat.eqb v iq then acc
       else ((fst acc + pair_loss q (nth v student_out []))%S, S (snd acc)))
    l acc
  = (fold_left sadd
       (map (fun v => pair_loss q (nth v student_out []))
            (filter (fun v => negb (Nat.eqb v iq)) l))
       (fst acc),
     (snd acc + length (filter (fun v => negb (Nat.eqb v iq)) l))%nat).
Proof.
  revert acc. induction l as [| v l IH]; intros acc; cbn [fold_left filter].
  - cbn. rewrite Nat.add_0_r. now destruct acc.
  - destruct (Nat.eqb v iq); cbn [negb].
    + apply IH.
    + rewrite IH. cbn [fst snd map fold_left length]. f_equal. lia.
Qed.

(** With two teacher views the double loop adds one term per pair of
    [view_pairs], in that order, and counts them. *)
Lemma loss_loop_two_views (q0 q1 : matrix) (student_out : list matrix) :
  loss_loop [q0; q1] student_out
  = (fold_left sadd
       (map (fun p => pair_loss (nth (fst p) [q0; q1] [])
                                (nth (snd p) student_out []))
            (view_pairs (length student_out)))
       (Fin 0),
     length (view_pairs (length student_out))).
Proof.
  unfold loss_loop, enumerate. cbn [length seq combine fold_left].
  rewrite !inner_loop_terms. cbn [fst snd].
  unfold view_pairs. cbn [flat_map].
  rewrite app_nil_r, map_app, fold_left_app, !map_map, length_app, !length_map.
  reflexivity.
Qed.

(** [forward] on an embedding batch of [n >= 2] student views and two
    teacher views, [b] samples per view: the chunks are the views, the loop
    accumulates the terms of [view_pairs n], and the loss is their sum
    divided by their number. *)
Lemma forward_on_views (self : DINOLoss) (student_output teacher_output : Tensor)
    (epoch : Z) (peers : list Tensor) (n b : nat) (temp : scalar) :
  ncrops self = Z.of_nat n -> (2 <= n)%nat ->
  length (rows student_output) = (n * b)%nat ->
  length (rows teacher_output) = (2 * b)%nat ->
  py_index (teacher_temp_schedule self) epoch = Ok temp ->
  let terms :=
    map (pair_term self student_output teacher_output temp b) (view_pairs n) in
  exists student_out teacher_out,
    chunk (student_scaled self student_output) (ncrops self) = Ok student_out
    /\ chunk (teacher_prob self teacher_output temp) 2 = Ok teacher_out
    /\ loss_loop teacher_out student_out
       = (fold_left sadd terms (Fin 0), (2 * (n - 1))%nat)
    /\ forward self student_output teacher_output epoch peers
       = Ok ((fold_left sadd terms (Fin 0) / of_nat (2 * (n - 1)))%S,
             update_center self teacher_output peers).
Proof.
  intros Hn Hn2 HS HT Htemp terms.
  assert (Hcs : chunk (student_scaled self student_output) (ncrops self)
                = Ok (map (fun i => view b i (student_scaled self student_output))
                          (seq 0 n))).
  { rewrite Hn. apply chunk_views; [lia |].
    unfold student_scaled, mdiv_scalar. now rewrite length_map. }
  assert (Hct : chunk (teacher_prob self teacher_output temp) 2
                = Ok [view b 0 (teacher_prob self teacher_output temp);
                      view b 1 (teacher_prob self teacher_output temp)]).
  { change 2%Z with (Z.of_nat 2). rewrite (chunk_views _ 2 b).
    - reflexivity.
    - lia.
    - unfold teacher_prob, softmax, mdiv_scalar, msub_row.
      now rewrite !length_map. }
  assert (Hloop :
    loss_loop [view b 0 (teacher_prob self teacher_output temp);
               view b 1 (teacher_prob self teacher_output temp)]
              (map (fun i => view b i (student_scaled self student_output))
                   (seq 0 n))
    = (fold_left sadd terms (Fin 0), (2 * (n - 1))%nat)).
  { rewrite loss_loop_two_views, length_map, length_seq.
    rewrite length_view_pairs by assumption. f_equal. f_equal.
    subst terms. apply map_ext_in. intros [iq v] Hin.
    apply in_view_pairs in Hin. destruct Hin as (Hiq & Hv & _).
    cbn [fst snd]. unfold pair_term, pair_loss, sum_last_dim. cbn [fst snd].
    rewrite (nth_map_seq (fun i => view b i (student_scaled self student_output)))
      by assumption.
    destruct iq as [| [| iq']]; [reflexivity | reflexivity | lia]. }
  eexists. eexists. split; [exact Hcs |]. split; [exact Hct |].
  split; [exact Hloop |].
  unfold forward. fold (student_scaled self student_output).
  rewrite Hcs. cbn [bind]. rewrite Htemp. cbn [bind].
  fold (teacher_prob self teacher_output temp). rewrite Hct. cbn [bind].
  rewrite Hloop.
  replace (Nat.eqb (2 * (n - 1)) 0) with false
    by (symmetry; apply Nat.eqb_neq; lia).
  reflexivity.
Qed.

(** *** The term of a pair, entry by entry *)

Lemma map_seq_nth {A B} (f : A -> B) (l : list A) (d : A) :
  map f l = map (fun j => f (nth j l d)) (seq 0 (length l)).
Proof.
  apply (nth_ext _ _ (f d) (f d)).
  - now rewrite !length_map, length_seq.
  - intros i Hi. rewrite length_map in Hi.
    rewrite (map_nth f), nth_map_seq by assumption. reflexivity.
Qed.

Lemma zip_with_map_same {A B C D} (f : B -> C -> D) (g : A -> B) (h : A -> C)
    (l : list A) :
  zip_with f (map g l) (map h l) = map (fun x => f (g x) (h x)) l.
Proof. induction l as [| a l IH]; cbn; [reflexivity | now rewrite IH]. Qed.

Lemma zip_with_seq {A B C} (f : A -> B -> C) (l1 : list A) (l2 : list B)
    (d1 : A) (d2 : B) :
  length l1 = length l2 ->
  zip_with f l1 l2
  = map (fun j => f (nth j l1 d1) (nth j l2 d2)) (seq 0 (length l1)).
Proof.
  intros H.
  rewrite <- (zip_with_map_same f (fun j => nth j l1 d1) (fun j => nth j l2 d2)).
  rewrite <- (map_seq_nth (fun x => x) l1 d1), map_id.
  rewrite H, <- (map_seq_nth (fun x => x) l2 d2), map_id. reflexivity.
Qed.

Lemma narrow_map {A B} (f : A -> B) (l : list A) (start len : nat) :
  narrow (map f l) start len = map f (narrow l start len).
Proof. unfold narrow. now rewrite skipn_map, firstn_map. Qed.

Lemma narrow_seq {A} (l : list A) (start len : nat) (d : A) :
  (start + len <= length l)%nat ->
  narrow l start len = map (fun i => nth (start + i) l d) (seq 0 len).
Proof.
  intros H. apply (nth_ext _ _ d d).
  - rewrite length_map, length_seq. unfold narrow.
    rewrite length_firstn, length_skipn. lia.
  - intros i Hi. unfold narrow in *.
    rewrite length_firstn, length_skipn in Hi.
    assert (Hlt : (i < len)%nat) by lia.
    rewrite nth_firstn, nth_skipn.
    apply Nat.ltb_lt in Hlt as Hb. rewrite Hb.
    now rewrite nth_map_seq by assumption.
Qed.

Lemma vsum_map_seq (f : nat -> scalar) (n : nat) :
  vsum (map f (seq 0 n)) = sum_upto n f.
Proof. reflexivity. Qed.

Lemma sum_upto_ext (n : nat) (f g : nat -> scalar) :
  (forall i, (i < n)%nat -> f i = g i) -> sum_upto n f = sum_upto n g.
Proof.
  intros H. unfold sum_upto. f_equal. apply map_ext_in.
  intros i Hi. apply in_seq in Hi. apply H. lia.
Qed.

Lemma vmean_map_seq (f : nat -> scalar) (n : nat) :
  vmean (map f (seq 0 n)) = (sum_upto n f / of_nat n)%S.
Proof. unfold vmean. now rewrite length_map, length_seq. Qed.

Lemma softmax_row_seq (f : nat -> scalar) (d : nat) :
  softmax_row (map f (seq 0 d))
  = map (fun j => sexp (f j) / sum_upto d (fun k => sexp (f k)))%S (seq 0 d).
Proof.
  unfold softmax_row. cbn zeta. rewrite !map_map. reflexivity.
Qed.

Lemma log_softmax_row_seq (f : nat -> scalar) (d : nat) :
  log_softmax_row (map f (seq 0 d))
  = map (fun j => f j - slog (sum_upto d (fun k => sexp (f k))))%S (seq 0 d).
Proof.
  unfold log_softmax_row. cbn zeta. rewrite !map_map. reflexivity.
Qed.

Lemma nth_row_length (m : matrix) (d i : nat) :
  Forall (fun r => length r = d) m -> (i < length m)%nat ->
  length (nth i m []) = d.
Proof.
  intros H Hi. rewrite Forall_forall in H. apply H. now apply nth_In.
Qed.

Lemma center_row_nth (self : DINOLoss) :
  center_row self = nth 0 (rows (center self)) [].
Proof. unfold center_row. now destruct (rows (center self)). Qed.

(** On tensors of the width of the center, the term that the loop computes
    for a pair of views is the cross-entropy written out entry by entry. *)
Lemma pair_term_cross_entropy (self : DINOLoss)
    (student_output teacher_output : Tensor) (temp : scalar) (b iq v : nat) :
  widths_agree self [student_output; teacher_output] ->
  (iq * b + b <= length (rows teacher_output))%nat ->
  (v * b + b <= length (rows student_output))%nat ->
  pair_term self student_output teacher_output temp b (iq, v)
  = cross_entropy self student_output teacher_output temp b
      (ncols teacher_output) (iq, v).
Proof.
  intros Hw Hiq Hv.
  inversion Hw as [| ? ? [HwS HdS] Hw']; subst.
  inversion Hw' as [| ? ? [HwT HdT] _]; subst.
  unfold wf_tensor in HwS, HwT.
  set (d := ncols teacher_output) in *.
  assert (HdS' : ncols student_output = d) by (subst d; congruence).
  rewrite HdS' in HwS.
  unfold pair_term, cross_entropy, teacher_prob, student_scaled, softmax,
    log_softmax, mdiv_scalar, msub_row, mneg, mzip, view.
  cbn [fst snd].
  rewrite !narrow_map.
  rewrite (narrow_seq (rows teacher_output) _ _ []) by assumption.
  rewrite (narrow_seq (rows student_output) _ _ []) by assumption.
  rewrite !map_map, zip_with_map_same, map_map.
  rewrite vmean_map_seq. f_equal. apply sum_upto_ext. intros i Hi.
  assert (HrT : length (nth (iq * b + i) (rows teacher_output) []) = d)
    by (apply nth_row_length; [assumption | lia]).
  assert (HrS : length (nth (v * b + i) (rows student_output) []) = d)
    by (apply nth_row_length; [assumption | lia]).
  rewrite (zip_with_seq ssub _ (center_row self) NaN NaN) by congruence.
  rewrite (map_seq_nth (fun x => x / student_temp self)%S _ NaN).
  rewrite HrT, HrS, map_map, softmax_row_seq, log_softmax_row_seq, map_map.
  rewrite zip_with_map_same, vsum_map_seq.
  apply sum_upto_ext. intros j _.
  unfold cell. rewrite <- center_row_nth. reflexivity.
Qed.

(** The terms of all pairs of views of an embedding batch. *)
Lemma pair_terms_cross_entropy (self : DINOLoss)
    (student_output teacher_output : Tensor) (temp : scalar) (n b : nat) :
  length (rows student_output) = (n * b)%nat ->
  length (rows teacher_output) = (2 * b)%nat ->
  widths_agree self [student_output; teacher_output] ->
  map (pair_term self student_output teacher_output temp b) (view_pairs n)
  = map (cross_entropy self student_output teacher_output temp b
           (ncols teacher_output))
        (view_pairs n).
Proof.
  intros HS HT Hw. apply map_ext_in. intros [iq v] Hin.
  apply in_view_pairs in Hin. destruct Hin as (Hiq & Hv & _).
  apply pair_term_cross_entropy; [assumption | nia | nia].
Qed.

(** C1.  With [ncrops = n >= 3], on an embedding batch ([n] student views
    and two teacher views of [b] samples each, all of the width of the
    center) and an epoch whose temperature the table holds, the loop of
    [forward] accumulates exactly [2 * (n - 1)] terms: one for every
    teacher view [iq < 2] and every student view [v < n] with [v <> iq],
    each the batch mean of the per-sample sums over the output dimension of
    [- teacher_prob[iq] * log_softmax(student_scaled[v])], where
    [teacher_prob] is [exp t / sum exp t] for [t = (teacher - center) / temp]
    and [log_softmax(s)] is [s - log (sum exp s)] for
    [s = student / student_temp]. *)
Theorem forward_pair_terms (self : DINOLoss)
    (student_output teacher_output : Tensor) (epoch : Z) (peers : list Tensor)
    (n b : nat) (temp : scalar) :
  ncrops self = Z.of_nat n -> (3 <= n)%nat ->
  length (rows student_output) = (n * b)%nat ->
  length (rows teacher_output) = (2 * b)%nat ->
  widths_agree self [student_output; teacher_output] ->
  py_index (teacher_temp_schedule self) epoch = Ok temp ->
  let terms :=
    map (cross_entropy self student_output teacher_output temp b
           (ncols teacher_output))
        (view_pairs n) in
  length terms = (2 * (n - 1))%nat
  /\ NoDup (view_pairs n)
  /\ (forall iq v, In (iq, v) (view_pairs n) <-> (iq < 2 /\ v < n /\ v <> iq)%nat)
  /\ exists student_out teacher_out,
       chunk (student_scaled self student_output) (ncrops self) = Ok student_out
       /\ chunk (teacher_prob self teacher_output temp) 2 = Ok teacher_out
       /\ loss_loop teacher_out student_out
          = (fold_left sadd terms (Fin 0), (2 * (n - 1))%nat)
       /\ forward self student_output teacher_output epoch peers
          = Ok ((fold_left sadd terms (Fin 0) / of_nat (2 * (n - 1)))%S,
                update_center self teacher_output peers).
Proof.
  intros Hn Hn3 HS HT Hw Htemp terms.
  split; [| split; [| split]].
  - subst terms. rewrite length_map. apply length_view_pairs. lia.
  - unfold view_pairs. cbn [flat_map]. rewrite app_nil_r.
    rewrite !filter_other_views by lia.
    apply NoDup_app.
    + apply Injective_map_NoDup; [intros x y H; now inversion H |].
      apply NoDup_app; try apply seq_NoDup.
      intros x Hx Hy. apply in_seq in Hx, Hy. lia.
    + apply Injective_map_NoDup; [intros x y H; now inversion H |].
      apply NoDup_app; try apply seq_NoDup.
      intros x Hx Hy. apply in_seq in Hx, Hy. lia.
    + intros [iq v] H0 H1. apply in_map_iff in H0, H1.
      destruct H0 as (? & E0 & _), H1 as (? & E1 & _). congruence.
  - intros iq v. apply in_view_pairs.
  - subst terms.
    rewrite <- (pair_terms_cross_entropy self student_output teacher_output
                  temp n b HS HT Hw).
    apply (forward_on_views self student_output teacher_output epoch peers
             n b temp); try assumption. lia.
Qed.

(** ** The center update (C2, C10) *)

Lemma sadd_assoc (x y z : scalar) : (x + (y + z))%S = (x + y + z)%S.
Proof. destruct x, y, z; cbn; try reflexivity; f_equal; lra. Qed.

Lemma sadd_zero_r (x : scalar) : (x + Fin 0)%S = x.
Proof. destruct x; cbn; try reflexivity. f_equal; lra. Qed.

Lemma zip_sadd_assoc (a b c : list scalar) :
  zip_with sadd a (zip_with sadd b c) = zip_with sadd (zip_with sadd a b) c.
Proof.
  revert b c. induction a as [| x a IH]; intros [| y b] [| z c];
    cbn [zip_with]; try reflexivity.
  now rewrite sadd_assoc, IH.
Qed.

Lemma zip_sadd_zeros_l (r : list scalar) :
  zip_with sadd (repeat (Fin 0) (length r)) r = r.
Proof.
  induction r as [| x r IH]; cbn [zip_with repeat length]; [reflexivity |].
  now rewrite sadd_zero_l, IH.
Qed.

Lemma zip_sadd_zeros_r (r : list scalar) :
  zip_with sadd r (repeat (Fin 0) (length r)) = r.
Proof.
  induction r as [| x r IH]; cbn [zip_with repeat length]; [reflexivity |].
  now rewrite sadd_zero_r, IH.
Qed.

Lemma length_zip_with {A B C} (f : A -> B -> C) (l1 : list A) (l2 : list B) :
  length l1 = length l2 -> length (zip_with f l1 l2) = length l1.
Proof.
  revert l2. induction l1 as [| a l1 IH]; intros [| b l2] H; cbn in *;
    try reflexivity; try discriminate.
  f_equal. apply IH. lia.
Qed.

(** Summing rows into an accumulator is adding their sum to it. *)
Lemma fold_zip_sadd_acc (d : nat) (m : matrix) (acc : list scalar) :
  Forall (fun r => length r = d) m -> length acc = d ->
  fold_left (zip_with sadd) m acc
  = zip_with sadd acc (sum_dim0 d m).
Proof.
  unfold sum_dim0. intros Hm. revert acc.
  induction Hm as [| r m Hr Hm IH]; intros acc Hacc; cbn [fold_left].
  - subst d. now rewrite zip_sadd_zeros_r.
  - assert (Hz : zip_with sadd (repeat (Fin 0) d) r = r)
      by (rewrite <- Hr; apply zip_sadd_zeros_l).
    rewrite IH by (rewrite length_zip_with; lia).
    rewrite Hz, (IH r Hr).
    symmetry. apply zip_sadd_assoc.
Qed.

Lemma length_sum_dim0 (d : nat) (m : matrix) :
  Forall (fun r => length r = d) m -> length (sum_dim0 d m) = d.
Proof.
  unfold sum_dim0. generalize (repeat_length (Fin 0) d).
  generalize (repeat (Fin 0) d). intros acc Hacc Hm. revert acc Hacc.
  induction Hm as [| r m Hr Hm IH]; intros acc Hacc; cbn [fold_left].
  - assumption.
  - apply IH. rewrite length_zip_with; lia.
Qed.

(** The all-reduce of the workers' column sums is the column sum over the
    rows of all workers. *)
Lemma all_reduce_sum (d : nat) (local : matrix) (peers : list Tensor) :
  Forall (fun r => length r = d) local ->
  Forall (fun p => wf_tensor p /\ ncols p = d) peers ->
  all_reduce (sum_dim0 d local)
             (map (fun p => sum_dim0 (ncols p) (rows p)) peers)
  = sum_dim0 d (local ++ concat (map rows peers)).
Proof.
  intros Hl Hp. revert local Hl.
  induction Hp as [| p peers [Hwf Hd] Hp IH]; intros local Hl;
    cbn [map concat all_reduce fold_left].
  - now rewrite app_nil_r.
  - unfold wf_tensor in Hwf. rewrite Hd in *.
    rewrite <- fold_zip_sadd_acc by (try assumption; now apply length_sum_dim0).
    fold (all_reduce (fold_left (zip_with sadd) (rows p) (sum_dim0 d local))
            (map (fun p => sum_dim0 (ncols p) (rows p)) peers)).
    replace (fold_left (zip_with sadd) (rows p) (sum_dim0 d local))
      with (sum_dim0 d (local ++ rows p))
      by (unfold sum_dim0; now rewrite fold_left_app).
    rewrite IH by (apply Forall_app; now split).
    now rewrite <- app_assoc.
Qed.

Lemma length_all_rows (teacher_output : Tensor) (peers : list Tensor) :
  Forall (fun p => length (rows p) = length (rows teacher_output)) peers ->
  length (all_rows teacher_output peers)
  = (length (rows teacher_output) * get_world_size peers)%nat.
Proof.
  intros H. unfold all_rows, get_world_size. rewrite length_app.
  induction H as [| p peers Hp H IH]; cbn [map concat length].
  - lia.
  - rewrite length_app, Hp. lia.
Qed.

(** A call of [forward] that returns has run [update_center]. *)
Lemma forward_ok_state (self self' : DINOLoss)
    (student_output teacher_output : Tensor) (epoch : Z) (peers : list Tensor)
    (loss : scalar) :
  forward self student_output teacher_output epoch peers = Ok (loss, self') ->
  self' = update_center self teacher_output peers.
Proof.
  unfold forward. intros H.
  destruct (chunk _ (ncrops self)) as [so |]; cbn [bind] in H; [| discriminate].
  destruct (py_index _ epoch) as [temp |]; cbn [bind] in H; [| discriminate].
  destruct (chunk _ 2) as [to |]; cbn [bind] in H; [| discriminate].
  destruct (loss_loop to so) as [total n].
  destruct (Nat.eqb n 0); [discriminate |].
  now inversion H.
Qed.

Lemma nth_zip_with {A B C} (f : A -> B -> C) (l1 : list A) (l2 : list B)
    (j : nat) (d1 : A) (d2 : B) (d : C) :
  (j < length l1)%nat -> (j < length l2)%nat ->
  nth j (zip_with f l1 l2) d = f (nth j l1 d1) (nth j l2 d2).
Proof.
  revert l2 j. induction l1 as [| a l1 IH]; intros [| b l2] [| j] H1 H2;
    cbn in *; try lia; [reflexivity |].
  apply IH; lia.
Qed.

(** Entry [j] of the sum of rows added into an accumulator. *)
Lemma nth_fold_zip_sadd (d : nat) (m : matrix) (acc : list scalar) (j : nat) :
  Forall (fun r => length r = d) m -> length acc = d -> (j < d)%nat ->
  nth j (fold_left (zip_with sadd) m acc) NaN
  = fold_left sadd (map (fun r => nth j r NaN) m) (nth j acc NaN).
Proof.
  intros Hm. revert acc. induction Hm as [| r m Hr Hm IH]; intros acc Hacc Hj;
    cbn [fold_left map]; [reflexivity |].
  rewrite IH by (try assumption; rewrite length_zip_with; lia).
  now rewrite (nth_zip_with sadd acc r j NaN NaN) by lia.
Qed.

(** Entry [j] of the column sums is the sum of the entries of column [j]. *)
Lemma nth_sum_dim0 (d : nat) (m : matrix) (j : nat) :
  Forall (fun r => length r = d) m -> (j < d)%nat ->
  nth j (sum_dim0 d m) NaN = sum_upto (length m) (fun i => cell m i j).
Proof.
  intros Hm Hj. unfold sum_dim0.
  rewrite (nth_fold_zip_sadd d) by (try assumption; apply repeat_length).
  rewrite (nth_indep _ NaN (Fin 0)) by (rewrite repeat_length; exact Hj).
  rewrite nth_repeat.
  unfold sum_upto, cell. f_equal.
  apply (map_seq_nth (fun r => nth j r NaN) m []).
Qed.

Lemma Forall_all_rows (teacher_output : Tensor) (peers : list Tensor) :
  wf_tensor teacher_output ->
  Forall (fun p => wf_tensor p /\ ncols p = ncols teacher_output) peers ->
  Forall (fun r => length r = ncols teacher_output)
         (all_rows teacher_output peers).
Proof.
  intros Hwf Hpeers. unfold all_rows. apply Forall_app. split; [exact Hwf |].
  induction Hpeers as [| p peers [Hw Hd] _ IH]; cbn; [constructor |].
  apply Forall_app. split; [| exact IH]. unfold wf_tensor in Hw.
  now rewrite Hd in Hw.
Qed.

(** The center after [update_center], entry by entry. *)
Lemma update_center_entries (self : DINOLoss) (teacher_output : Tensor)
    (peers : list Tensor) (c : list scalar) :
  rows (center self) = [c] -> length c = ncols teacher_output ->
  wf_tensor teacher_output ->
  Forall (fun p => wf_tensor p /\ ncols p = ncols teacher_output) peers ->
  Forall (fun p => length (rows p) = length (rows teacher_output)) peers ->
  center (update_center self teacher_output peers)
  = mkTensor
      [map (averaged_center self (all_rows teacher_output peers))
           (seq 0 (ncols teacher_output))]
      (ncols (center self)) false.
Proof.
  intros Hc Hlen Hwf Hpeers Hrows.
  unfold update_center. cbn [center result_requires_grad]. f_equal.
  rewrite (all_reduce_sum _ (rows teacher_output) peers Hwf Hpeers).
  fold (all_rows teacher_output peers).
  rewrite <- (length_all_rows teacher_output peers Hrows).
  pose proof (Forall_all_rows teacher_output peers Hwf Hpeers) as Hall.
  set (d := ncols teacher_output) in *.
  set (m := all_rows teacher_output peers) in *.
  rewrite Hc. unfold mzip, mmul_scalar. cbn [map zip_with]. f_equal.
  rewrite (map_seq_nth (fun x => x * center_momentum self)%S c NaN).
  rewrite (map_seq_nth (fun x => x / of_nat (length m))%S (sum_dim0 d m) NaN).
  rewrite length_sum_dim0, Hlen, map_map, zip_with_map_same by assumption.
  apply map_ext_in. intros j Hj. apply in_seq in Hj.
  unfold averaged_center, column_mean, cell. rewrite Hc. cbn [nth].
  rewrite nth_sum_dim0 by (try assumption; lia). reflexivity.
Qed.

(** C2.  On an embedding batch, with teacher outputs of the width of the
    one-row center on every worker and as many rows on every worker, a
    call of [forward] returns, and it leaves the loss engine with a center
    that does not require grad and whose entry [j] is
    [center_j * center_momentum + batch_mean_j * (1 - center_momentum)],
    where [batch_mean_j] is the sum of column [j] over the teacher rows of
    all workers divided by their number, the local row count times the
    world size. *)
Theorem forward_updates_center (self : DINOLoss)
    (student_output teacher_output : Tensor) (epoch : Z) (peers : list Tensor)
    (n b : nat) (temp : scalar) (c : list scalar) :
  ncrops self = Z.of_nat n -> (2 <= n)%nat ->
  length (rows student_output) = (n * b)%nat ->
  length (rows teacher_output) = (2 * b)%nat ->
  py_index (teacher_temp_schedule self) epoch = Ok temp ->
  rows (center self) = [c] ->
  widths_agree self [student_output; teacher_output] ->
  Forall (fun p => wf_tensor p /\ ncols p = ncols teacher_output) peers ->
  Forall (fun p => length (rows p) = length (rows teacher_output)) peers ->
  exists loss self',
    forward self student_output teacher_output epoch peers = Ok (loss, self')
    /\ center self'
       = mkTensor
           [map (fun j =>
                   nth j c NaN * center_momentum self
                   + (sum_upto (length (all_rows teacher_output peers))
                        (fun i => cell (all_rows teacher_output peers) i j)
                      / of_nat (length (all_rows teacher_output peers)))
                     * (Fin 1 - center_momentum self))%S
                (seq 0 (length c))]
           (ncols (center self)) false
    /\ length (all_rows teacher_output peers)
       = (length (rows teacher_output) * get_world_size peers)%nat.
Proof.
  intros Hn Hn2 HS HT Htemp Hc Hw Hpeers Hlen.
  destruct (forward_on_views self student_output teacher_output epoch peers
              n b temp Hn Hn2 HS HT Htemp) as (so & to & _ & _ & _ & Hfwd).
  inversion Hw as [| ? ? _ Hw']; subst.
  inversion Hw' as [| ? ? [Hwf Hd] _]; subst.
  unfold center_row in Hd. rewrite Hc in Hd. cbn [hd] in Hd.
  eexists. eexists. split; [exact Hfwd |].
  split; [| now apply length_all_rows].
  rewrite (update_center_entries self teacher_output peers c)
    by (try assumption; now symmetry).
  rewrite <- Hd. f_equal. f_equal. apply map_ext. intros j.
  unfold averaged_center, column_mean, cell. now rewrite Hc.
Qed.

(** *** Finite tensors *)

Lemma isfinite_fin (x : scalar) : isfinite x = true -> exists r, x = Fin r.
Proof. destruct x; cbn; intros H; try discriminate. now exists r. Qed.

Lemma sgn_neg (r : R) : (r < 0)%R -> sgn r = Lt.
Proof.
  intros H. unfold sgn.
  destruct (Rlt_dec 0 r); [lra |]. destruct (Rlt_dec r 0); [reflexivity | lra].
Qed.

Lemma smul_one_r (x : scalar) : (x * Fin 1)%S = x.
Proof.
  destruct x; cbn.
  - f_equal. lra.
  - now rewrite sgn_pos by lra.
  - now rewrite sgn_neg by lra.
  - reflexivity.
Qed.

(** [update_center] writes no field but [center]. *)
Lemma update_center_frame (self : DINOLoss) (teacher_output : Tensor)
    (peers : list Tensor) :
  let self' := update_center self teacher_output peers in
  student_temp self' = student_temp self
  /\ center_momentum self' = center_momentum self
  /\ ncrops self' = ncrops self
  /\ teacher_temp_schedule self' = teacher_temp_schedule self.
Proof. cbn. repeat split. Qed.

(** C10.  Whatever the inputs and whether the call returns or raises,
    [forward] leaves [student_temp], [center_momentum], [ncrops] and
    [teacher_temp_schedule] as they were.  A call that raises leaves the
    center as it was too; a call that returns has stored the center that
    [update_center] computes, at every momentum: with
    [center_momentum = 1.0], a one-row center and teacher outputs of its
    width, entry [j] of the stored center is
    [center_j * 1 + batch_mean_j * (1 - 1)], with the batch mean still in
    it. *)
Theorem forward_frame (self : DINOLoss) (student_output teacher_output : Tensor)
    (epoch : Z) (peers : list Tensor) :
  let result := forward self student_output teacher_output epoch peers in
  let self' := state_after self result in
  (student_temp self' = student_temp self
   /\ center_momentum self' = center_momentum self
   /\ ncrops self' = ncrops self
   /\ teacher_temp_schedule self' = teacher_temp_schedule self)
  /\ (forall e, result = Raise e -> self' = self)
  /\ (forall loss s,
        result = Ok (loss, s) ->
        self' = s /\ s = update_center self teacher_output peers)
  /\ (forall loss s c,
        result = Ok (loss, s) ->
        center_momentum self = Fin 1 ->
        rows (center self) = [c] -> length c = ncols teacher_output ->
        wf_tensor teacher_output ->
        Forall (fun p => wf_tensor p /\ ncols p = ncols teacher_output) peers ->
        Forall (fun p => length (rows p) = length (rows teacher_output))
               peers ->
        rows (center s)
        = [map (fun j =>
                  nth j c NaN * Fin 1
                  + (sum_upto (length (all_rows teacher_output peers))
                       (fun i => cell (all_rows teacher_output peers) i j)
                     / of_nat (length (all_rows teacher_output peers)))
                    * (Fin 1 - Fin 1))%S
               (seq 0 (length c))]).
Proof.
  cbn zeta.
  destruct (forward self student_output teacher_output epoch peers)
    as [[loss self'] |] eqn:Hfwd; cbn [state_after].
  - apply forward_ok_state in Hfwd. subst self'.
    split; [apply update_center_frame |].
    split; [discriminate |].
    split; [intros loss' s H; inversion H; now split |].
    intros loss' s c H Hcm Hc Hlen Hwf Hp Hrows. inversion H; subst s.
    rewrite (update_center_entries self teacher_output peers c)
      by assumption.
    cbn [rows]. rewrite <- Hlen. f_equal. apply map_ext. intros j.
    unfold averaged_center, column_mean, cell. now rewrite Hc, Hcm.
  - split; [repeat split |]. split; [reflexivity |].
    split; discriminate.
Qed.

Lemma sdiv_zero_zero : (Fin 0 / Fin 0)%S = NaN.
Proof.
  cbn. destruct (Req_dec_T 0 0) as [_ | H]; [| now contradiction H].
  now rewrite sgn_eq0.
Qed.

(** C10 as stated fails: with [center_momentum = 1.0] and a teacher output
    that holds an infinity, the call returns and the center, zero before,
    is NaN after ([inf * 0] in the moving average); the same happens on a
    batch without rows ([0 / 0] in the batch mean). *)
Lemma center_not_kept_on_infinite_teacher_output :
  let self := small_loss (Fin 1) 2 in
  let student_output := column [Fin 1; Fin 2] in
  let teacher_output := column [PInf; PInf] in
  center_momentum self = Fin 1
  /\ rows (center self) = [[Fin 0]]
  /\ (exists loss self',
        forward self student_output teacher_output 0 [] = Ok (loss, self')
        /\ rows (center self') = [[NaN]])
  /\ center (state_after self
               (forward self student_output teacher_output 0 []))
     <> center self
  /\ (exists loss self',
        forward self (column []) (column []) 0 [] = Ok (loss, self')
        /\ rows (center self') = [[NaN]]).
Proof.
  intros self student_output teacher_output.
  destruct (forward_on_views self student_output teacher_output 0 [] 2 1
              (Fin (4 / 100)))
    as (so & to & _ & _ & _ & Hfwd); try reflexivity; try lia.
  destruct (forward_on_views self (column []) (column []) 0 [] 2 0
              (Fin (4 / 100)))
    as (so' & to' & _ & _ & _ & Hfwd'); try reflexivity; try lia.
  assert (Hrows : rows (center (update_center self teacher_output [])) = [[NaN]]).
  { unfold update_center, all_reduce, sum_dim0, mzip, mmul_scalar, of_nat.
    cbn [self teacher_output small_loss column rows ncols center
         center_momentum map fold_left zip_with repeat length get_world_size
         Nat.mul Nat.add sadd ssub sneg smul sdiv].
    rewrite (sgn_pos (INR 2)) by (apply lt_0_INR; lia).
    cbn [sadd smul].
    rewrite sgn_eq0 by lra. reflexivity. }
  assert (Hrows' : rows (center (update_center self (column []) [])) = [[NaN]]).
  { unfold update_center, all_reduce, sum_dim0, mzip, mmul_scalar, of_nat.
    cbn [self small_loss column rows ncols center center_momentum map
         fold_left zip_with repeat length get_world_size Nat.mul Nat.add INR].
    rewrite sdiv_zero_zero. reflexivity. }
  split; [reflexivity |]. split; [reflexivity |].
  split; [eexists; eexists; split; [exact Hfwd | exact Hrows] |].
  split; [| eexists; eexists; split; [exact Hfwd' | exact Hrows']].
  rewrite Hfwd. cbn [state_after].
  intros Heq. rewrite Heq in Hrows. discriminate Hrows.
Qed.

(** ** Finite embeddings give finite terms *)

Lemma Forall_firstn {A} (P : A -> Prop) (n : nat) (l : list A) :
  Forall P l -> Forall P (firstn n l).
Proof.
  intros H. revert n. induction H as [| x l Hx Hl IH]; intros [| n];
    cbn [firstn]; constructor; [assumption | apply IH].
Qed.

Lemma Forall_skipn {A} (P : A -> Prop) (n : nat) (l : list A) :
  Forall P l -> Forall P (skipn n l).
Proof.
  intros H. revert n. induction H as [| x l Hx Hl IH]; intros [| n];
    cbn [skipn]; try constructor; try assumption. apply IH.
Qed.

Lemma Forall_narrow {A} (P : A -> Prop) (l : list A) (start len : nat) :
  Forall P l -> Forall P (narrow l start len).
Proof.
  intros H. unfold narrow. now apply Forall_firstn, Forall_skipn.
Qed.

Lemma length_narrow {A} (l : list A) (start len : nat) :
  (start + len <= length l)%nat -> length (narrow l start len) = len.
Proof.
  intros H. unfold narrow. rewrite length_firstn, length_skipn. lia.
Qed.

Lemma finite_fold_sadd (l : list scalar) (a : R) :
  finite_row l -> exists s, fold_left sadd l (Fin a) = Fin s.
Proof.
  intros Hl. revert a. induction Hl as [| x l Hx Hl IH]; intros a;
    cbn [fold_left].
  - now exists a.
  - apply isfinite_fin in Hx. destruct Hx as [r ->]. cbn [sadd]. apply IH.
Qed.

Lemma finite_vsum (l : list scalar) :
  finite_row l -> isfinite (vsum l) = true.
Proof.
  intros Hl. destruct (finite_fold_sadd l 0 Hl) as [s Hs].
  unfold vsum. now rewrite Hs.
Qed.

(** The sum of the exponentials of a finite row is a finite number, and a
    positive one unless the row is empty. *)
Lemma fold_exp_pos (r : list scalar) (a : R) :
  finite_row r ->
  exists s, fold_left sadd (map sexp r) (Fin a) = Fin s
            /\ (a <= s)%R /\ (r <> [] -> (a < s)%R).
Proof.
  intros Hr. revert a. induction Hr as [| x r Hx Hr IH]; intros a;
    cbn [map fold_left].
  - exists a. split; [reflexivity |]. split; [lra | congruence].
  - apply isfinite_fin in Hx. destruct Hx as [y ->]. cbn [sexp sadd].
    destruct (IH (a + exp y)%R) as (s & Hs & Hle & _).
    pose proof (exp_pos y) as Hpos.
    exists s. split; [exact Hs |]. split; [lra |]. intros _. lra.
Qed.

Lemma finite_softmax_row (r : list scalar) :
  finite_row r -> finite_row (softmax_row r).
Proof.
  intros Hr. unfold softmax_row, vsum.
  destruct r as [| x r]; [constructor |].
  destruct (fold_exp_pos (x :: r) 0 Hr) as (s & Hs & _ & Hpos).
  rewrite Hs. assert (Hs0 : s <> 0%R) by (specialize (Hpos ltac:(discriminate)); lra).
  clear Hs Hpos. induction Hr as [| y l Hy Hl IH]; cbn [map]; constructor.
  - apply isfinite_fin in Hy. destruct Hy as [a ->]. cbn [sexp].
    now rewrite sdiv_fin.
  - exact IH.
Qed.

Lemma finite_log_softmax_row (r : list scalar) :
  finite_row r -> finite_row (log_softmax_row r).
Proof.
  intros Hr. unfold log_softmax_row, vsum.
  destruct r as [| x r]; [constructor |].
  destruct (fold_exp_pos (x :: r) 0 Hr) as (s & Hs & _ & Hpos).
  rewrite Hs. specialize (Hpos ltac:(discriminate)).
  cbn [slog]. rewrite sgn_pos by assumption.
  clear Hs. induction Hr as [| y l Hy Hl IH]; cbn [map]; constructor.
  - apply isfinite_fin in Hy. destruct Hy as [a ->]. reflexivity.
  - exact IH.
Qed.

Lemma finite_mdiv_scalar (m : matrix) (s : R) :
  s <> 0%R -> finite_matrix m -> finite_matrix (mdiv_scalar m (Fin s)).
Proof.
  intros Hs Hm. unfold mdiv_scalar.
  induction Hm as [| r m Hr Hm IH]; cbn [map]; constructor; [| exact IH].
  clear IH Hm. induction Hr as [| x r Hx Hr IH]; cbn [map]; constructor;
    [| exact IH].
  apply isfinite_fin in Hx. destruct Hx as [a ->]. now rewrite sdiv_fin.
Qed.

Lemma finite_zip_with (f : scalar -> scalar -> scalar) (a b : list scalar) :
  (forall x y, isfinite x = true -> isfinite y = true ->
               isfinite (f x y) = true) ->
  finite_row a -> finite_row b -> finite_row (zip_with f a b).
Proof.
  intros Hf Ha. revert b. induction Ha as [| x a Hx Ha IH]; intros b Hb.
  - constructor.
  - destruct Hb as [| y b Hy Hb]; cbn [zip_with]; constructor.
    + now apply Hf.
    + now apply IH.
Qed.

Lemma finite_msub_row (m : matrix) (c : list scalar) :
  finite_row c -> finite_matrix m -> finite_matrix (msub_row m c).
Proof.
  intros Hc Hm. unfold msub_row.
  induction Hm as [| r m Hr Hm IH]; cbn [map]; constructor; [| exact IH].
  apply finite_zip_with; try assumption.
  intros x y Hx Hy. apply isfinite_fin in Hx, Hy.
  destruct Hx as [a ->], Hy as [b ->]. reflexivity.
Qed.

Lemma finite_map_rows (f : list scalar -> list scalar) (m : matrix) :
  (forall r, finite_row r -> finite_row (f r)) ->
  finite_matrix m -> finite_matrix (map f m).
Proof.
  intros Hf Hm. induction Hm as [| r m Hr Hm IH]; cbn [map]; constructor.
  - now apply Hf.
  - exact IH.
Qed.

(** The term of a pair of finite views with at least one sample is finite. *)
Lemma finite_pair_loss (q s : matrix) :
  finite_matrix q -> finite_matrix s ->
  length q = length s -> q <> [] ->
  isfinite (vmean (map vsum (mzip smul (mneg q) (log_softmax s)))) = true.
Proof.
  intros Hq Hs Hlen Hne.
  assert (Hrows : finite_row (map vsum (mzip smul (mneg q) (log_softmax s)))
                  /\ length (map vsum (mzip smul (mneg q) (log_softmax s)))
                     = length q).
  { clear Hne. revert s Hs Hlen.
    induction Hq as [| r q Hr Hq IH]; intros [| r' s] Hs Hlen;
      try discriminate.
    - split; [constructor | reflexivity].
    - inversion Hs as [| ? ? Hr' Hs']; subst.
      destruct (IH s Hs' ltac:(cbn in Hlen; lia)) as [IH1 IH2].
      cbn [mneg log_softmax mzip map zip_with length]. split.
      + constructor; [| exact IH1]. apply finite_vsum.
        apply finite_zip_with.
        * intros x y Hx Hy. apply isfinite_fin in Hx, Hy.
          destruct Hx as [a ->], Hy as [b ->]. reflexivity.
        * clear - Hr. induction Hr as [| x r Hx Hr IH]; cbn [map];
            constructor; [| exact IH].
          apply isfinite_fin in Hx. destruct Hx as [a ->]. reflexivity.
        * now apply finite_log_softmax_row.
      + f_equal. exact IH2. }
  destruct Hrows as [Hfin Hl]. unfold vmean. rewrite Hl.
  destruct (isfinite_fin _ (finite_vsum _ Hfin)) as [t Ht]. rewrite Ht.
  unfold of_nat. rewrite sdiv_fin; [reflexivity |].
  apply not_0_INR. destruct q; [contradiction | cbn; lia].
Qed.

Lemma finite_pair_term (self : DINOLoss) (student_output teacher_output : Tensor)
    (b iq v : nat) (st tp : R) (c : list scalar) :
  (1 <= b)%nat ->
  (iq * b + b <= length (rows teacher_output))%nat ->
  (v * b + b <= length (rows student_output))%nat ->
  student_temp self = Fin st -> st <> 0%R -> tp <> 0%R ->
  rows (center self) = [c] -> finite_row c ->
  finite_matrix (rows student_output) -> finite_matrix (rows teacher_output) ->
  isfinite (pair_term self student_output teacher_output (Fin tp) b (iq, v))
  = true.
Proof.
  intros Hb Hiq Hv Hst Hst0 Htp Hc Hcfin HS HT.
  unfold pair_term. cbn [fst snd]. apply finite_pair_loss.
  - apply Forall_narrow. unfold teacher_prob, softmax.
    apply finite_map_rows; [apply finite_softmax_row |].
    apply finite_mdiv_scalar; [assumption |].
    apply finite_msub_row; [| assumption].
    unfold center_row. rewrite Hc. exact Hcfin.
  - apply Forall_narrow. unfold student_scaled. rewrite Hst.
    now apply finite_mdiv_scalar.
  - unfold view. rewrite !length_narrow; [reflexivity | |].
    + unfold student_scaled, mdiv_scalar. now rewrite length_map.
    + unfold teacher_prob, softmax, mdiv_scalar, msub_row.
      now rewrite !length_map.
  - intros Hnil. apply (f_equal (@length _)) in Hnil.
    unfold view in Hnil. rewrite length_narrow in Hnil; [cbn in Hnil; lia |].
    unfold teacher_prob, softmax, mdiv_scalar, msub_row.
    now rewrite !length_map.
Qed.

(** C4.  On an embedding batch with [ncrops = n >= 2], of the width of the
    center, [forward] returns the accumulated sum of the pair terms divided
    by their number, [2 * n - 2].  With [n = 2] these are exactly the two
    terms (teacher view 0, student view 1) and (teacher view 1, student
    view 0), and the loss is half their sum. *)
Theorem forward_mean_of_pair_terms (self : DINOLoss)
    (student_output teacher_output : Tensor) (epoch : Z) (peers : list Tensor)
    (n b : nat) (temp : scalar) :
  ncrops self = Z.of_nat n -> (2 <= n)%nat ->
  length (rows student_output) = (n * b)%nat ->
  length (rows teacher_output) = (2 * b)%nat ->
  widths_agree self [student_output; teacher_output] ->
  py_index (teacher_temp_schedule self) epoch = Ok temp ->
  let term :=
    cross_entropy self student_output teacher_output temp b
      (ncols teacher_output) in
  forward self student_output teacher_output epoch peers
  = Ok ((fold_left sadd (map term (view_pairs n)) (Fin 0)
         / of_nat (2 * n - 2))%S,
        update_center self teacher_output peers)
  /\ length (view_pairs n) = (2 * n - 2)%nat
  /\ (n = 2%nat ->
      view_pairs n = [(0, 1); (1, 0)]%nat
      /\ forward self student_output teacher_output epoch peers
         = Ok (((Fin 0 + term (0, 1) + term (1, 0)) / of_nat 2)%S,
               update_center self teacher_output peers))%nat.
Proof.
  intros Hn Hn2 HS HT Hw Htemp term.
  destruct (forward_on_views self student_output teacher_output epoch peers
              n b temp Hn Hn2 HS HT Htemp)
    as (so & to & _ & _ & _ & Hfwd).
  rewrite (pair_terms_cross_entropy self student_output teacher_output
             temp n b HS HT Hw) in Hfwd.
  replace (2 * (n - 1))%nat with (2 * n - 2)%nat in Hfwd by lia.
  split; [exact Hfwd |]. split; [rewrite length_view_pairs; lia |].
  intros ->. split; [reflexivity | exact Hfwd].
Qed.

(** C4 as stated fails below two views.  With [ncrops = 1] on an embedding
    batch the loop accumulates one pair, which is more than
    [2 * ncrops - 2 = 0]; and nothing guards the division: when no pair is
    accumulated (one student chunk, one teacher chunk) the call raises
    [ZeroDivisionError].  With [ncrops = 2] the scalar is not finite when
    the embeddings are not. *)
Lemma no_guard_below_two_views :
  let self := small_loss default_center_momentum 1 in
  (exists student_out teacher_out,
     chunk (student_scaled self (column [Fin 1])) (ncrops self) = Ok student_out
     /\ chunk (teacher_prob self (column [Fin 3; Fin 5]) (Fin (4 / 100))) 2
        = Ok teacher_out
     /\ snd (loss_loop teacher_out student_out) = 1%nat
     /\ ~ (1 <= 2 * 1 - 2)%nat)
  /\ forward self (column [Fin 1]) (column [Fin 3]) 0 []
     = Raise ZeroDivisionError
  /\ (exists self',
        forward (small_loss default_center_momentum 2)
          (column [NaN; NaN]) (column [NaN; NaN]) 0 []
        = Ok (NaN, self')).
Proof.
  intros self. split; [| split].
  - eexists. eexists. split; [reflexivity |]. split; [reflexivity |].
    split; [reflexivity | lia].
  - reflexivity.
  - eexists. reflexivity.
Qed.

(** ** Worked values *)

Lemma sadd_fin (a b : R) : (Fin a + Fin b)%S = Fin (a + b).
Proof. reflexivity. Qed.

Lemma ssub_fin (a b : R) : (Fin a - Fin b)%S = Fin (a - b).
Proof. reflexivity. Qed.

Lemma smul_fin (a b : R) : (Fin a * Fin b)%S = Fin (a * b).
Proof. reflexivity. Qed.

Lemma sneg_fin (a : R) : sneg (Fin a) = Fin (- a).
Proof. reflexivity. Qed.

Lemma sexp_fin (a : R) : sexp (Fin a) = Fin (exp a).
Proof. reflexivity. Qed.

Lemma slog_fin (a : R) : (0 < a)%R -> slog (Fin a) = Fin (ln a).
Proof. intros H. cbn. now rewrite sgn_pos. Qed.

Lemma exp_of_ln (x y : R) : (0 < y)%R -> x = ln y -> exp x = y.
Proof. intros Hy ->. now apply exp_ln. Qed.

Lemma exp_of_zero (x : R) : x = 0%R -> exp x = 1%R.
Proof. intros ->. apply exp_0. Qed.

(** Linear arithmetic knowing that exponentials are positive. *)
Ltac exp_positive :=
  repeat match goal with
         | |- context [exp ?x] =>
             lazymatch goal with
             | _ : (0 < exp x)%R |- _ => fail
             | _ => pose proof (exp_pos x)
             end
         end;
  lra.

(** Evaluation of scalar operations on finite operands. *)
Ltac fin_arith :=
  repeat first
    [ rewrite sadd_fin | rewrite ssub_fin | rewrite smul_fin
    | rewrite sneg_fin | rewrite sexp_fin
    | rewrite sdiv_fin by exp_positive
    | rewrite slog_fin by exp_positive ].

(** The exponentials of the worked rows: [exp 0 = 1], [exp (ln 3) = 3]. *)
Ltac exp_values :=
  repeat match goal with
         | |- context [exp ?x] =>
             first [ rewrite (exp_of_zero x) by lra
                   | rewrite (exp_of_ln x 3) by lra ]
         end;
  replace (0 + 3 + 1)%R with 4%R by lra;
  replace (0 + 1 + 1)%R with 2%R by lra.

(** Equality of structures of finite scalars, field by field. *)
Ltac fin_fields :=
  repeat match goal with
         | |- Fin _ = Fin _ => apply f_equal; lra
         | _ => progress f_equal
         end.

Ltac worked_entropy :=
  unfold cross_entropy, sum_upto, cell, of_nat;
  cbn [wide_loss student_rows teacher_rows even_row student_skewed_row
       teacher_skewed_row rows ncols center student_temp
       fst snd map seq fold_left nth Nat.mul Nat.add INR];
  unfold default_student_temp;
  fin_arith; exp_values; fin_fields.

Ltac worked_center :=
  unfold update_center, all_reduce, sum_dim0, mzip, mmul_scalar,
    get_world_size, of_nat, wide_loss, default_center_momentum;
  cbn [teacher_rows even_row teacher_skewed_row rows ncols center
       center_momentum student_temp ncrops teacher_temp_schedule
       result_requires_grad map fold_left zip_with repeat length
       Nat.mul Nat.add INR];
  fin_arith; fin_fields.

(** The four terms of three views of one sample: a skewed teacher view
    against a skewed student view, and three pairs with an even view. *)
Lemma worked_terms_three_views :
  let self := wide_loss even_row default_center_momentum 3 in
  let student_output :=
    student_rows [even_row; student_skewed_row; even_row] in
  let teacher_output := teacher_rows [teacher_skewed_row; even_row] in
  map (cross_entropy self student_output teacher_output (Fin (4 / 100)) 1 2)
      (view_pairs 3)
  = [Fin (ln 4 - 3 / 4 * ln 3); Fin (ln 2); Fin (ln 2); Fin (ln 2)].
Proof.
  intros self student_output teacher_output.
  change (view_pairs 3) with [(0, 1); (0, 2); (1, 0); (1, 2)]%nat.
  subst self student_output teacher_output. cbn [map].
  f_equal; [| f_equal; [| f_equal; [| f_equal]]]; worked_entropy.
Qed.

Lemma worked_terms_two_views :
  let self := wide_loss even_row default_center_momentum 2 in
  let student_output := student_rows [even_row; student_skewed_row] in
  let teacher_output := teacher_rows [teacher_skewed_row; even_row] in
  cross_entropy self student_output teacher_output (Fin (4 / 100)) 1 2
    (0, 1)%nat
  = Fin (ln 4 - 3 / 4 * ln 3)
  /\ cross_entropy self student_output teacher_output (Fin (4 / 100)) 1 2
       (1, 0)%nat
     = Fin (ln 2).
Proof.
  intros self student_output teacher_output.
  subst self student_output teacher_output. split; worked_entropy.
Qed.

Lemma worked_center_update (n : Z) :
  update_center (wide_loss even_row default_center_momentum n)
    (teacher_rows [teacher_skewed_row; even_row]) []
  = wide_loss [Fin (ln 3 / 500); Fin 0] default_center_momentum n.
Proof. worked_center. Qed.

(** C1, at [ncrops = 3] on one sample per view over two output
    dimensions. *)
Lemma forward_pair_terms_witness :
  let self := wide_loss even_row default_center_momentum 3 in
  let student_output :=
    student_rows [even_row; student_skewed_row; even_row] in
  let teacher_output := teacher_rows [teacher_skewed_row; even_row] in
  (ncrops self = Z.of_nat 3
   /\ (3 <= 3)%nat
   /\ length (rows student_output) = (3 * 1)%nat
   /\ length (rows teacher_output) = (2 * 1)%nat
   /\ widths_agree self [student_output; teacher_output]
   /\ py_index (teacher_temp_schedule self) 0 = Ok (Fin (4 / 100)))
  /\ map (cross_entropy self student_output teacher_output (Fin (4 / 100)) 1 2)
         (view_pairs 3)
     = [Fin (ln 4 - 3 / 4 * ln 3); Fin (ln 2); Fin (ln 2); Fin (ln 2)]
  /\ forward self student_output teacher_output 0 []
     = Ok (Fin ((ln 4 - 3 / 4 * ln 3 + 3 * ln 2) / 4),
           wide_loss [Fin (ln 3 / 500); Fin 0] default_center_momentum 3).
Proof.
  intros self student_output teacher_output.
  assert (Hw : widths_agree self [student_output; teacher_output])
    by repeat constructor.
  split; [repeat split; try lia; exact Hw |].
  destruct (forward_pair_terms self student_output teacher_output 0 []
              3 1 (Fin (4 / 100)) eq_refl (le_n 3) eq_refl eq_refl Hw eq_refl)
    as (_ & _ & _ & so & to & _ & _ & _ & Hfwd).
  split; [exact worked_terms_three_views |].
  rewrite Hfwd. subst self student_output teacher_output.
  cbn [ncols teacher_rows].
  rewrite worked_terms_three_views, worked_center_update.
  unfold of_nat. cbn [fold_left Nat.mul Nat.sub Nat.add INR].
  fin_arith. fin_fields.
Defined.

(** C4, at [ncrops = 2] on one sample per view over two output
    dimensions. *)
Lemma forward_mean_of_pair_terms_witness :
  let self := wide_loss even_row default_center_momentum 2 in
  let student_output := student_rows [even_row; student_skewed_row] in
  let teacher_output := teacher_rows [teacher_skewed_row; even_row] in
  (ncrops self = Z.of_nat 2
   /\ length (rows student_output) = (2 * 1)%nat
   /\ length (rows teacher_output) = (2 * 1)%nat
   /\ widths_agree self [student_output; teacher_output]
   /\ py_index (teacher_temp_schedule self) 0 = Ok (Fin (4 / 100)))
  /\ forward self student_output teacher_output 0 []
     = Ok (Fin ((ln 4 - 3 / 4 * ln 3 + ln 2) / 2),
           wide_loss [Fin (ln 3 / 500); Fin 0] default_center_momentum 2).
Proof.
  intros self student_output teacher_output.
  assert (Hw : widths_agree self [student_output; teacher_output])
    by repeat constructor.
  split; [repeat split; exact Hw |].
  destruct (forward_mean_of_pair_terms self student_output teacher_output 0 []
              2 1 (Fin (4 / 100)) eq_refl (le_n 2) eq_refl eq_refl Hw eq_refl)
    as (_ & _ & H2).
  destruct (H2 eq_refl) as (_ & Hfwd).
  rewrite Hfwd. subst self student_output teacher_output.
  cbn [ncols teacher_rows].
  destruct worked_terms_two_views as [-> ->].
  rewrite worked_center_update.
  unfold of_nat. cbn [INR]. fin_arith. fin_fields.
Defined.

(** C2, with one other worker: the four teacher rows have the column means
    4 and 5. *)
Lemma forward_updates_center_witness :
  let self := wide_loss [Fin 1; Fin 2] default_center_momentum 2 in
  let student_output := student_rows [even_row; even_row] in
  let teacher_output := teacher_rows [[Fin 1; Fin 2]; [Fin 3; Fin 4]] in
  let peers := [teacher_rows [[Fin 5; Fin 6]; [Fin 7; Fin 8]]] in
  (ncrops self = Z.of_nat 2
   /\ length (rows student_output) = (2 * 1)%nat
   /\ length (rows teacher_output) = (2 * 1)%nat
   /\ py_index (teacher_temp_schedule self) 0 = Ok (Fin (4 / 100))
   /\ rows (center self) = [[Fin 1; Fin 2]]
   /\ widths_agree self [student_output; teacher_output]
   /\ Forall (fun p => wf_tensor p /\ ncols p = ncols teacher_output) peers
   /\ Forall (fun p => length (rows p) = length (rows teacher_output)) peers)
  /\ exists loss self',
       forward self student_output teacher_output 0 peers = Ok (loss, self')
       /\ center self' = mkTensor [[Fin (13 / 10); Fin (23 / 10)]] 2 false.
Proof.
  intros self student_output teacher_output peers.
  assert (Hw : widths_agree self [student_output; teacher_output])
    by (repeat constructor).
  assert (Hp : Forall (fun p => wf_tensor p /\ ncols p = ncols teacher_output)
                      peers) by repeat constructor.
  assert (Hl : Forall (fun p => length (rows p) = length (rows teacher_output))
                      peers) by repeat constructor.
  split; [repeat (split; [first [exact Hw | exact Hp | reflexivity] |]);
          exact Hl |].
  destruct (forward_updates_center self student_output teacher_output 0 peers
              2 1 (Fin (4 / 100)) [Fin 1; Fin 2] eq_refl (le_n 2) eq_refl
              eq_refl eq_refl eq_refl Hw Hp Hl)
    as (loss & self' & Hfwd & Hc & _).
  exists loss, self'. split; [exact Hfwd |].
  rewrite Hc. unfold sum_upto, cell, of_nat.
  cbn [self teacher_output peers wide_loss teacher_rows all_rows rows ncols
       center center_momentum default_center_momentum map concat app length
       seq fold_left nth sadd ssub sneg smul INR].
  rewrite !sdiv_fin by lra. cbn [sadd smul].
  fin_fields.
Defined.

(** C10, at [center_momentum = 1.0]: a call that returns on two views of
    one sample, and a call that raises on an epoch outside the table. *)
Lemma forward_frame_witness :
  let self := wide_loss [Fin 1; Fin 2] (Fin 1) 2 in
  let student_output := student_rows [even_row; even_row] in
  let teacher_output := teacher_rows [[Fin 1; Fin 2]; [Fin 3; Fin 4]] in
  (exists loss s,
     forward self student_output teacher_output 0 [] = Ok (loss, s)
     /\ state_after self (forward self student_output teacher_output 0 []) = s
     /\ student_temp s = student_temp self
     /\ center_momentum s = center_momentum self
     /\ ncrops s = ncrops self
     /\ teacher_temp_schedule s = teacher_temp_schedule self
     /\ rows (center s) = [[Fin 1; Fin 2]])
  /\ forward self student_output teacher_output 1 [] = Raise IndexError
  /\ state_after self (forward self student_output teacher_output 1 []) = self.
Proof.
  intros self student_output teacher_output.
  split.
  - destruct (forward_on_views self student_output teacher_output 0 [] 2 1
                (Fin (4 / 100)) eq_refl (le_n 2) eq_refl eq_refl eq_refl)
      as (so & to & _ & _ & _ & Hfwd).
    destruct (forward_frame self student_output teacher_output 0 [])
      as ((H1 & H2 & H3 & H4) & _ & Hok & Hone).
    destruct (Hok _ _ Hfwd) as [Hs _].
    eexists. eexists. split; [exact Hfwd |].
    rewrite Hs in H1, H2, H3, H4.
    split; [exact Hs |].
    split; [exact H1 |]. split; [exact H2 |]. split; [exact H3 |].
    split; [exact H4 |].
    rewrite (Hone _ _ [Fin 1; Fin 2] Hfwd eq_refl eq_refl eq_refl)
      by repeat constructor.
    unfold sum_upto, cell, of_nat.
    cbn [teacher_output teacher_rows all_rows rows map concat app length seq
         fold_left nth INR].
    fin_arith. fin_fields.
  - split; [reflexivity |].
    destruct (forward_frame self student_output teacher_output 1 [])
      as (_ & Hraise & _).
    apply (Hraise IndexError). reflexivity.
Defined.

(** ** The multi-crop views (C8) *)

Section AugmentationFacts.

Variables Image Rng : Type.
Variable apply_transform : transform -> Image -> Rng -> Image * Rng.

Let compose := Compose Image Rng apply_transform.
Let rng_before := rng_before_local Image Rng apply_transform.

(** The loop over [range(local_crops_number)] appends one local crop per
    round, each drawn with the generator state the previous one left. *)
Lemma local_crops_loop (local : list transform) (image : Image)
    (l : list nat) (crops : list Image) (rng : Rng) :
  fold_left
    (fun (st : list Image * Rng) (i : nat) =>
       let '(c, rng') := compose local image (snd st) in
       (fst st ++ [c], rng'))
    l (crops, rng)
  = (crops ++ map (fun i => fst (compose local image
                                   (rng_before local image rng i)))
                  (seq 0 (length l)),
     rng_before local image rng (length l)).
Proof.
  revert crops rng. induction l as [| i l IH]; intros crops rng.
  - cbn. now rewrite app_nil_r.
  - cbn [fold_left fst snd length].
    destruct (compose local image rng) as [c rng'] eqn:E.
    rewrite IH. cbn [seq map]. rewrite <- seq_shift, map_map.
    subst rng_before. cbn [rng_before_local]. fold compose.
    rewrite E. cbn [fst snd]. now rewrite <- app_assoc.
Qed.

(** C8.  For [local_crops_number = K >= 0] the transform returns
    [2 + K] views in the order global 1, global 2, local 1 .. local K:
    view 0 is the image through [global_transfo1] and view 1 the image
    through [global_transfo2], both built on a random resized crop of
    size 224, and view [2 + i] is the image through [local_transfo],
    built on a random resized crop of size 96. *)
Theorem call_returns_ordered_views (args_augmix : bool)
    (global_crops_scale local_crops_scale : scalar * scalar) (K : Z)
    (image : Image) (rng : Rng) :
  (0 <= K)%Z ->
  let self :=
    DataAugmentationDINO_init args_augmix global_crops_scale
      local_crops_scale K in
  let crops :=
    fst (DataAugmentationDINO_call Image Rng apply_transform self image rng) in
  let rng1 := snd (compose (global_transfo1 self) image rng) in
  let rng2 := snd (compose (global_transfo2 self) image rng1) in
  Z.of_nat (length crops) = (2 + K)%Z
  /\ nth_error crops 0 = Some (fst (compose (global_transfo1 self) image rng))
  /\ nth_error crops 1
     = Some (fst (compose (global_transfo2 self) image rng1))
  /\ (forall i, (i < Z.to_nat K)%nat ->
        nth_error crops (2 + i)
        = Some (fst (compose (local_transfo self) image
                       (rng_before (local_transfo self) image rng2 i))))
  /\ (exists aug, global_transfo1 self
                  = [RandomResizedCrop 224 global_crops_scale; aug; normalize])
  /\ (exists aug, global_transfo2 self
                  = [RandomResizedCrop 224 global_crops_scale; aug; normalize])
  /\ (exists aug, local_transfo self
                  = [RandomResizedCrop 96 local_crops_scale; aug; normalize]).
Proof.
  intros HK self crops rng1 rng2.
  assert (Hcrops :
    crops
    = [fst (compose (global_transfo1 self) image rng);
       fst (compose (global_transfo2 self) image rng1)]
      ++ map (fun i => fst (compose (local_transfo self) image
                              (rng_before (local_transfo self) image rng2 i)))
             (seq 0 (Z.to_nat K))).
  { subst crops. unfold DataAugmentationDINO_call. fold compose.
    subst rng2 rng1.
    destruct (compose (global_transfo1 self) image rng) as [c1 r1].
    cbn [fst snd].
    destruct (compose (global_transfo2 self) image r1) as [c2 r2].
    cbn [fst snd app].
    rewrite local_crops_loop. cbn [fst].
    unfold py_range. cbn [local_crops_number self DataAugmentationDINO_init].
    now rewrite length_seq. }
  split; [| split; [| split; [| split; [| split; [| split]]]]].
  - rewrite Hcrops, length_app, length_map, length_seq. cbn [length]. lia.
  - now rewrite Hcrops.
  - now rewrite Hcrops.
  - intros i Hi. rewrite Hcrops. cbn [app nth_error Nat.add].
    rewrite nth_error_map, nth_error_nth' with (d := 0%nat)
      by (rewrite length_seq; lia).
    rewrite seq_nth by lia. reflexivity.
  - eexists. reflexivity.
  - eexists. reflexivity.
  - eexists. reflexivity.
Qed.

End AugmentationFacts.

(** C8, for the default six local crops, on images reduced to their side
    length: the views have sides 224, 224 and six times 96. *)
Lemma call_returns_ordered_views_witness :
  let self :=
    DataAugmentationDINO_init true (Fin (4 / 10), Fin 1)
      (Fin (5 / 100), Fin (4 / 10)) 6 in
  let crops :=
    fst (DataAugmentationDINO_call nat nat side_transform self 500%nat 0%nat) in
  (0 <= 6)%Z
  /\ Z.of_nat (length crops) = (2 + 6)%Z
  /\ crops = [224; 224; 96; 96; 96; 96; 96; 96]%nat.
Proof.
  intros self crops.
  split; [lia |].
  split; [| reflexivity].
  apply (call_returns_ordered_views nat nat side_transform true
           (Fin (4 / 10), Fin 1) (Fin (5 / 100), Fin (4 / 10)) 6
           500%nat 0%nat).
  lia.
Defined.

(** ** Unknown architectures (C9) *)

Section ArchitectureFacts.

Variables vits_names hub_xcit_names torchvision_names : list string.
Variable build_raises : model -> option exn.
Variable embed_dim_of : model -> option Z.

(** C9.  For a name that, after the DeiT renaming, is in none of the
    three model sources, the selection ends normally: it binds neither
    [student] nor [teacher] nor [embed_dim] and only prints
    ["Unknow architecture: ..."].  [train_dino] goes on to the next
    statement, the wrapping of the networks, which reads the unbound
    [student]. *)
Theorem unknown_arch_only_printed (arch : string) (patch_size : Z)
    (drop_path_rate : scalar) :
  let arch' := str_replace arch "deit" "vit" in
  str_in arch' vits_names = false ->
  str_in arch' hub_xcit_names = false ->
  str_in arch' torchvision_names = false ->
  let locals :=
    mkArchLocals arch' None None None [append "Unknow architecture: " arch'] in
  select_arch vits_names hub_xcit_names torchvision_names build_raises
    embed_dim_of arch patch_size drop_path_rate
  = Ok locals
  /\ wrap_networks locals = Raise (UnboundLocalError "student").
Proof.
  intros arch' Hv Hh Ht locals. subst locals. unfold select_arch.
  fold arch'. rewrite Hv, Hh, Ht. split; reflexivity.
Qed.

End ArchitectureFacts.

(** C9, for [--arch xcit], a name the argument parser accepts. *)
Lemma unknown_arch_only_printed_witness :
  let locals :=
    mkArchLocals "xcit" None None None ["Unknow architecture: xcit"%string] in
  (In "xcit"%string (arch_choices some_hub_xcit_names some_torchvision_archs)
   /\ str_in (str_replace "xcit" "deit" "vit") some_vits_names = false
   /\ str_in (str_replace "xcit" "deit" "vit") some_hub_xcit_names = false
   /\ str_in (str_replace "xcit" "deit" "vit") some_torchvision_names = false)
  /\ select_arch some_vits_names some_hub_xcit_names some_torchvision_names
       some_build_raises some_embed_dim "xcit" 16 (Fin (1 / 10))
     = Ok locals
  /\ wrap_networks locals = Raise (UnboundLocalError "student").
Proof.
  intros locals. split.
  - split; [cbn; tauto | repeat split].
  - apply (unknown_arch_only_printed some_vits_names some_hub_xcit_names
             some_torchvision_names some_build_raises some_embed_dim
             "xcit" 16 (Fin (1 / 10)));
      reflexivity.
Defined.

(** ** Teacher parameters (C3, C6, C7) *)

Lemma mzip_sadd_maps (f g : scalar -> scalar) (a b : matrix) :
  mzip sadd (map (map f) a) (map (map g) b)
  = mzip (fun x y => (f x + g y)%S) a b.
Proof.
  unfold mzip. revert b. induction a as [| r a IH]; intros [| r' b];
    cbn [map zip_with]; try reflexivity.
  f_equal; [| apply IH].
  revert r'. induction r as [| x r IHr]; intros [| y r'];
    cbn [map zip_with]; try reflexivity.
  f_equal. apply IHr.
Qed.

(** The update of one parameter, entry by entry. *)
Lemma ema_param_entries (m : scalar) (param_q param_k : Tensor) :
  ema_param m param_q param_k
  = mkTensor
      (mzip (fun k q => (k * m + (Fin 1 - m) * q)%S)
            (rows param_k) (rows param_q))
      (ncols param_k) (requires_grad param_k).
Proof.
  unfold ema_param, mmul_scalar. now rewrite mzip_sadd_maps.
Qed.

(** Every pair of corresponding parameters is updated, and nothing else. *)
Lemma ema_update_nth (m : scalar) (student teacher : ParameterSet) (i : nat)
    (name_q name_k : string) (param_q param_k : Tensor) :
  nth_error student i = Some (name_q, param_q) ->
  nth_error teacher i = Some (name_k, param_k) ->
  nth_error (ema_update m student teacher) i
  = Some (name_k, ema_param m param_q param_k).
Proof.
  revert teacher i.
  induction student as [| [nq q] student IH]; intros [| [nk k] teacher] [| i];
    cbn [nth_error ema_update]; try discriminate.
  - intros H1 H2. now inversion H1; inversion H2; subst.
  - apply IH.
Qed.

Lemma ema_update_frozen (m : scalar) (student teacher : ParameterSet) :
  Forall (fun kv => requires_grad (snd kv) = false) teacher ->
  Forall (fun kv => requires_grad (snd kv) = false)
         (ema_update m student teacher).
Proof.
  intros H. revert student.
  induction H as [| [nk k] teacher Hk H IH]; intros [| [nq q] student];
    cbn [ema_update].
  - constructor.
  - constructor.
  - now constructor.
  - constructor; [exact Hk | apply IH].
Qed.

Lemma mzip_full (f : scalar -> scalar -> scalar) (shape : list nat)
    (a b : scalar) :
  mzip f (full shape a) (full shape b) = full shape (f a b).
Proof.
  unfold mzip, full. induction shape as [| n shape IH]; cbn [map zip_with];
    [reflexivity |].
  f_equal; [| exact IH].
  induction n as [| n IHn]; cbn [repeat zip_with]; [reflexivity |].
  now rewrite IHn.
Qed.

(** Teacher parameters all 1.0 against student parameters all 2.0 of the
    same shapes, at momentum 0.9: every teacher parameter becomes 1.1 and
    still requires no grad. *)
Lemma ema_update_constant (student teacher : ParameterSet) :
  Forall2 (fun sq tk =>
             exists shape,
               rows (snd sq) = full shape (Fin 2)
               /\ rows (snd tk) = full shape (Fin 1)
               /\ requires_grad (snd tk) = false)
          student teacher ->
  Forall2 (fun tk tk' =>
             fst tk' = fst tk
             /\ exists shape,
                  rows (snd tk) = full shape (Fin 1)
                  /\ rows (snd tk') = full shape (Fin (11 / 10))
                  /\ requires_grad (snd tk') = false)
          teacher (ema_update (Fin (9 / 10)) student teacher).
Proof.
  intros H.
  induction H as [| [nq q] [nk k] student teacher (shape & Hq & Hk & Hg) H IH];
    cbn [ema_update]; constructor; [| exact IH].
  cbn [fst snd] in *. split; [reflexivity |].
  exists shape. split; [exact Hk |].
  rewrite ema_param_entries. cbn [rows requires_grad].
  split; [| exact Hg].
  rewrite Hq, Hk, mzip_full. f_equal. cbn. f_equal. lra.
Qed.

Lemma str_in_In (s : string) (l : list string) : str_in s l = true <-> In s l.
Proof.
  unfold str_in. rewrite existsb_exists. split.
  - intros (x & Hx & He). apply String.eqb_eq in He. now subst.
  - intros H. exists s. split; [exact H | apply String.eqb_refl].
Qed.

Lemma lookup_state_in (state : list (string * Tensor)) (k : string)
    (v : Tensor) :
  NoDup (map fst state) -> In (k, v) state -> lookup_state k state = Some v.
Proof.
  unfold lookup_state. induction state as [| [k' v'] state IH];
    intros Hnd Hin; [contradiction |].
  cbn [map fst] in Hnd. inversion Hnd as [| ? ? Hnot Hnd']; subst.
  cbn [find fst]. destruct Hin as [Heq | Hin].
  - inversion Heq; subst. now rewrite String.eqb_refl.
  - destruct (String.eqb k k') eqn:E.
    + apply String.eqb_eq in E. subst k'. exfalso. apply Hnot.
      change k with (fst (k, v)). now apply in_map.
    + now apply IH.
Qed.

(** Loading the state of a student of the same architecture: every
    teacher tensor takes the values of the student tensor of its name. *)
Lemma load_same_architecture (state student teacher0 : ParameterSet) :
  NoDup (map fst state) -> incl student state ->
  Forall2 (fun s t => fst t = fst s /\ same_shape (snd t) (snd s) = true)
          student teacher0 ->
  forallb (fun kv => match lookup_state (fst kv) state with
                     | Some v => same_shape (snd kv) v
                     | None => false
                     end) teacher0 = true
  /\ values
       (freeze
          (map (fun kv =>
                  match lookup_state (fst kv) state with
                  | Some v => (fst kv, mkTensor (rows v) (ncols (snd kv))
                                                (requires_grad (snd kv)))
                  | None => kv
                  end) teacher0))
     = values student.
Proof.
  intros Hnd Hincl H.
  induction H as [| [ks s] [kt t] student teacher0 [Hk Hs] H IH];
    [split; reflexivity |].
  cbn [fst snd] in Hk, Hs. subst kt.
  assert (Hl : lookup_state ks state = Some s)
    by (apply lookup_state_in; [assumption | apply Hincl; now left]).
  destruct IH as [IH1 IH2]; [intros x Hx; apply Hincl; now right |].
  cbn [forallb map fst snd]. rewrite Hl, Hs, IH1. split; [reflexivity |].
  unfold values, freeze in *. cbn [map fst snd rows]. now rewrite IH2.
Qed.

Lemma freeze_frozen (ps : ParameterSet) : frozen (freeze ps).
Proof.
  unfold frozen, freeze. induction ps as [| kv ps IH]; cbn [map];
    constructor; [reflexivity | exact IH].
Qed.

Section TrainingFacts.

Variables Views Optimizer : Type.
Variable teacher_net : ParameterSet -> Views -> Tensor.
Variable student_net : ParameterSet -> Views -> Tensor.
Variable first_two : Views -> Views.
Variable optimizer_step :
  Optimizer -> list param_group -> ParameterSet -> Views -> Tensor ->
  DINOLoss -> Z -> Optimizer * ParameterSet.
Variable repr_finite : R -> string.

Let State := TrainState Optimizer.
Let step :=
  train_iteration Views Optimizer teacher_net student_net first_two
    optimizer_step repr_finite.
Let run :=
  train_batches Views Optimizer teacher_net student_net first_two
    optimizer_step repr_finite.

(** With both table entries in range the loop over the parameter groups
    writes the learning rate to every group and the weight decay to the
    first. *)
Lemma set_schedules_rest (lr_schedule wd_schedule : list scalar) (it : Z)
    (lr : scalar) (i : nat) (groups : list param_group) :
  py_index lr_schedule it = Ok lr ->
  set_schedules lr_schedule wd_schedule it (S i) groups
  = (map (fun g' => mkParamGroup lr (group_weight_decay g')) groups, None).
Proof.
  intros Hlr. revert i. induction groups as [| g groups IH]; intros i;
    cbn [set_schedules map]; [reflexivity |].
  rewrite Hlr. cbn [Nat.eqb]. now rewrite IH.
Qed.

Lemma set_schedules_written (lr_schedule wd_schedule : list scalar) (it : Z)
    (lr wd : scalar) (groups : list param_group) :
  py_index lr_schedule it = Ok lr -> py_index wd_schedule it = Ok wd ->
  set_schedules lr_schedule wd_schedule it 0 groups
  = (scheduled_groups lr wd groups, None).
Proof.
  intros Hlr Hwd. destruct groups as [| g groups]; [reflexivity |].
  cbn [set_schedules scheduled_groups]. rewrite Hlr. cbn [Nat.eqb].
  rewrite Hwd. now rewrite (set_schedules_rest _ _ _ lr).
Qed.

(** What one iteration does to the teacher and the student: an iteration
    that completes has made the student the one the optimizer step returns
    on the parameter groups the state keeps, and has applied the EMA update
    with the momentum of the global step to the teacher and that student;
    an iteration that exits or raises leaves the teacher as it was. *)
Lemma train_iteration_teacher (sch : Schedules) (epoch len : Z) (st : State)
    (it : Z) (images : Views) (peers : list Tensor) :
  match step sch epoch len st it images peers with
  | Continue st' =>
      (exists m,
         py_index (momentum_schedule sch) (len * epoch + it) = Ok m
         /\ teacher Optimizer st'
            = ema_update m (student Optimizer st') (teacher Optimizer st))
      /\ student Optimizer st'
         = snd (optimizer_step (optimizer Optimizer st)
                  (param_groups Optimizer st') (student Optimizer st) images
                  (teacher_net (teacher Optimizer st) (first_two images))
                  (dino_loss Optimizer st) epoch)
  | SysExit _ st' | Raised _ st' =>
      teacher Optimizer st' = teacher Optimizer st
  end.
Proof.
  subst step. unfold train_iteration.
  destruct (set_schedules _ _ _ _ _) as [groups [e |]]; [reflexivity |].
  destruct (forward _ _ _ _ _) as [[loss dl'] |]; [| reflexivity].
  destruct (isfinite loss); cbn [negb]; [| reflexivity].
  cbn [param_groups].
  destruct (optimizer_step _ _ _ _ _ _ _) as [opt' student'] eqn:Hopt.
  destruct (py_index (momentum_schedule sch) _) as [m |];
    [| reflexivity].
  cbn [teacher student param_groups]. split; [| now rewrite Hopt].
  exists m. split; reflexivity.
Qed.

(** C3.  An iteration whose loss is finite (with its three schedule
    entries in the tables) completes, and after the optimizer step it has
    replaced the teacher by its EMA update against the student the
    optimizer step produced, with [m] the momentum schedule at the global
    step: every teacher parameter [k] paired with the student parameter [q]
    at its position holds [k * m + (1 - m) * q] entry by entry, with its
    [requires_grad] flag untouched.  With [m = 0.9], such student
    parameters all 2.0 and teacher parameters all 1.0 that require no grad,
    every teacher parameter ends all 1.1 and requires no grad. *)
Theorem teacher_ema_after_step (sch : Schedules) (epoch len : Z)
    (st : State) (it : Z) (images : Views) (peers : list Tensor)
    (lr wd m loss : scalar) (dino_loss' : DINOLoss)
    (optimizer' : Optimizer) (student' : ParameterSet) :
  py_index (lr_schedule sch) (len * epoch + it) = Ok lr ->
  py_index (wd_schedule sch) (len * epoch + it) = Ok wd ->
  py_index (momentum_schedule sch) (len * epoch + it) = Ok m ->
  forward (dino_loss Optimizer st)
    (student_net (student Optimizer st) images)
    (teacher_net (teacher Optimizer st) (first_two images)) epoch peers
  = Ok (loss, dino_loss') ->
  isfinite loss = true ->
  let groups := scheduled_groups lr wd (param_groups Optimizer st) in
  optimizer_step (optimizer Optimizer st) groups (student Optimizer st) images
    (teacher_net (teacher Optimizer st) (first_two images))
    (dino_loss Optimizer st) epoch
  = (optimizer', student') ->
  let teacher' := ema_update m student' (teacher Optimizer st) in
  step sch epoch len st it images peers
  = Continue (mkTrainState Optimizer student' teacher' dino_loss' optimizer'
                groups (stdout Optimizer st))
  /\ (forall i name_q name_k param_q param_k,
        nth_error student' i = Some (name_q, param_q) ->
        nth_error (teacher Optimizer st) i = Some (name_k, param_k) ->
        nth_error teacher' i
        = Some (name_k,
                mkTensor
                  (mzip (fun k q => (k * m + (Fin 1 - m) * q)%S)
                        (rows param_k) (rows param_q))
                  (ncols param_k) (requires_grad param_k)))
  /\ (m = Fin (9 / 10) ->
      Forall2 (fun sq tk =>
                 exists shape,
                   rows (snd sq) = full shape (Fin 2)
                   /\ rows (snd tk) = full shape (Fin 1)
                   /\ requires_grad (snd tk) = false)
              student' (teacher Optimizer st) ->
      Forall2 (fun tk tk' =>
                 fst tk' = fst tk
                 /\ exists shape,
                      rows (snd tk) = full shape (Fin 1)
                      /\ rows (snd tk') = full shape (Fin (11 / 10))
                      /\ requires_grad (snd tk') = false)
              (teacher Optimizer st) teacher').
Proof.
  intros Hlr Hwd Hm Hfwd Hfin groups Hopt teacher'. split; [| split].
  - subst step. unfold train_iteration.
    rewrite (set_schedules_written _ _ _ lr wd _ Hlr Hwd).
    fold groups. rewrite Hfwd, Hfin. cbn [negb]. now rewrite Hopt, Hm.
  - intros i nq nk q k Hq Hk. subst teacher'. rewrite <- ema_param_entries.
    now apply ema_update_nth with (name_q := nq).
  - intros -> Hconst. now apply ema_update_constant.
Qed.

(** The report of a loss that is not finite. *)
Lemma train_iteration_non_finite (sch : Schedules) (epoch len : Z)
    (st : State) (it : Z) (images : Views) (peers : list Tensor)
    (lr wd loss : scalar) (dino_loss' : DINOLoss) :
  py_index (lr_schedule sch) (len * epoch + it) = Ok lr ->
  py_index (wd_schedule sch) (len * epoch + it) = Ok wd ->
  forward (dino_loss Optimizer st)
    (student_net (student Optimizer st) images)
    (teacher_net (teacher Optimizer st) (first_two images)) epoch peers
  = Ok (loss, dino_loss') ->
  isfinite loss = false ->
  step sch epoch len st it images peers
  = SysExit 1
      (mkTrainState Optimizer (student Optimizer st) (teacher Optimizer st)
         dino_loss' (optimizer Optimizer st)
         (scheduled_groups lr wd (param_groups Optimizer st))
         (stdout Optimizer st
          ++ [append "Loss is "
                (append match loss with
                        | PInf => "inf"
                        | NInf => "-inf"
                        | _ => "nan"
                        end ", stopping training")])).
Proof.
  intros Hlr Hwd Hfwd Hfin.
  subst step. unfold train_iteration.
  rewrite (set_schedules_written _ _ _ lr wd _ Hlr Hwd), Hfwd, Hfin.
  cbn [negb]. destruct loss; [discriminate | | |]; reflexivity.
Qed.

(** C6.  In an iteration whose loss is not finite the process exits with
    status 1 right after the loss is computed: the learning rate and the
    weight decay of the step are written to the parameter groups, as before
    every loss, but the optimizer step is not taken and the student and
    the teacher are left as they were; the report
    ["Loss is <loss>, stopping training"] is printed, and the remaining
    batches are not run. *)
Theorem non_finite_loss_exits (sch : Schedules) (epoch len : Z) (st : State)
    (it : Z) (images : Views) (peers : list Tensor)
    (rest : list (Views * list Tensor)) (lr wd loss : scalar)
    (dino_loss' : DINOLoss) :
  py_index (lr_schedule sch) (len * epoch + it) = Ok lr ->
  py_index (wd_schedule sch) (len * epoch + it) = Ok wd ->
  forward (dino_loss Optimizer st)
    (student_net (student Optimizer st) images)
    (teacher_net (teacher Optimizer st) (first_two images)) epoch peers
  = Ok (loss, dino_loss') ->
  isfinite loss = false ->
  let report :=
    append "Loss is "
      (append match loss with
              | PInf => "inf"
              | NInf => "-inf"
              | _ => "nan"
              end ", stopping training") in
  let st' :=
    mkTrainState Optimizer (student Optimizer st) (teacher Optimizer st)
      dino_loss' (optimizer Optimizer st)
      (scheduled_groups lr wd (param_groups Optimizer st))
      (stdout Optimizer st ++ [report]) in
  step sch epoch len st it images peers = SysExit 1 st'
  /\ run sch epoch len st it ((images, peers) :: rest) = SysExit 1 st'.
Proof.
  intros Hlr Hwd Hfwd Hfin report st'.
  pose proof (train_iteration_non_finite sch epoch len st it images peers
                lr wd loss dino_loss' Hlr Hwd Hfwd Hfin) as Hstep.
  split; [exact Hstep |].
  subst run. cbn [train_batches]. fold step. now rewrite Hstep.
Qed.

(** Running one more batch: the loop goes on from the state the batches
    before it reached, and a loop that has stopped stays stopped. *)
Lemma train_batches_snoc (sch : Schedules) (epoch len : Z)
    (batches : list (Views * list Tensor)) (images : Views)
    (peers : list Tensor) (st : State) (it : Z) :
  run sch epoch len st it (batches ++ [(images, peers)])
  = match run sch epoch len st it batches with
    | Continue st_k =>
        step sch epoch len st_k (it + Z.of_nat (length batches)) images peers
    | stop => stop
    end.
Proof.
  unfold run, step. revert st it.
  induction batches as [| [images0 peers0] batches IH]; intros st it.
  - cbn [app train_batches length].
    replace (it + Z.of_nat 0)%Z with it by lia.
    now destruct (train_iteration _ _ _ _ _ _ _ _ _ _ _ _ _ _).
  - cbn [app train_batches length].
    destruct (train_iteration _ _ _ _ _ _ _ _ _ _ _ _ images0 peers0)
      as [st1 | c st1 | e st1]; try reflexivity.
    rewrite IH.
    now replace (it + 1 + Z.of_nat (length batches))%Z
      with (it + Z.of_nat (S (length batches)))%Z by lia.
Qed.

Lemma firstn_snoc {A} (l : list A) (k : nat) (a : A) :
  nth_error l k = Some a -> firstn (S k) l = firstn k l ++ [a].
Proof.
  revert k. induction l as [| x l IH]; intros [| k] H; try discriminate.
  - cbn in H. inversion H; subst. reflexivity.
  - cbn [nth_error] in H. cbn [firstn app]. f_equal. now apply IH.
Qed.

(** The teacher stays frozen over the batches of an epoch. *)
Lemma train_batches_frozen (sch : Schedules) (epoch len : Z)
    (batches : list (Views * list Tensor)) (st : State) (it : Z) :
  frozen (teacher Optimizer st) ->
  frozen (teacher Optimizer (outcome_state (run sch epoch len st it batches))).
Proof.
  revert st it. induction batches as [| [images peers] batches IH];
    intros st it Hfrozen; [exact Hfrozen |].
  pose proof (train_iteration_teacher sch epoch len st it images peers) as H.
  unfold run, step in *. cbn [train_batches].
  destruct (train_iteration _ _ _ _ _ _ _ _ _ _ _ _ images peers)
    as [st1 | c st1 | e st1]; cbn [outcome_state].
  - apply IH. destruct H as [(m & _ & Ht) _]. rewrite Ht.
    now apply ema_update_frozen.
  - now rewrite H.
  - now rewrite H.
Qed.

(** C7.  The teacher starts as a copy of the values of a student of the
    same architecture, with gradient tracking off on every parameter.
    Then, whatever batches are run from a state whose teacher is frozen,
    the teacher stays frozen, and the [k]-th batch changes it by the EMA
    rule and in no other way: when the batches before it completed, a
    [k]-th iteration that completes leaves the teacher
    [ema_update m student' teacher_k], with [teacher_k] the teacher the
    batches before left, [m] the momentum schedule at the global step and
    [student'] the student the optimizer step of this iteration returned;
    a [k]-th iteration that exits or raises leaves the teacher as it was,
    and so does every batch after a stop. *)
Theorem teacher_frozen_and_only_ema :
  (forall student0 teacher0 : ParameterSet,
      NoDup (map fst student0) ->
      Forall2 (fun s t => fst t = fst s /\ same_shape (snd t) (snd s) = true)
              student0 teacher0 ->
      exists teacher1,
        init_teacher student0 teacher0 = Ok teacher1
        /\ values teacher1 = values student0
        /\ frozen teacher1)
  /\ (forall (sch : Schedules) (epoch len : Z)
             (batches : list (Views * list Tensor)) (st : State) (it : Z),
        frozen (teacher Optimizer st) ->
        frozen (teacher Optimizer
                  (outcome_state (run sch epoch len st it batches)))
        /\ forall (k : nat) (images : Views) (peers : list Tensor),
             nth_error batches k = Some (images, peers) ->
             let before := run sch epoch len st it (firstn k batches) in
             let after := run sch epoch len st it (firstn (S k) batches) in
             match before with
             | Continue st_k =>
                 after
                 = step sch epoch len st_k (it + Z.of_nat k) images peers
                 /\ match after with
                    | Continue st' =>
                        (exists m,
                           py_index (momentum_schedule sch)
                             (len * epoch + (it + Z.of_nat k)) = Ok m
                           /\ teacher Optimizer st'
                              = ema_update m (student Optimizer st')
                                  (teacher Optimizer st_k))
                        /\ student Optimizer st'
                           = snd (optimizer_step (optimizer Optimizer st_k)
                                    (param_groups Optimizer st')
                                    (student Optimizer st_k) images
                                    (teacher_net (teacher Optimizer st_k)
                                       (first_two images))
                                    (dino_loss Optimizer st_k) epoch)
                    | SysExit _ st' | Raised _ st' =>
                        teacher Optimizer st' = teacher Optimizer st_k
                    end
             | SysExit _ _ | Raised _ _ => after = before
             end).
Proof.
  split.
  - intros student0 teacher0 Hnd Harch.
    destruct (load_same_architecture student0 student0 teacher0 Hnd
                (incl_refl _) Harch) as [Hcheck Hvalues].
    assert (Hnames : map fst teacher0 = map fst student0).
    { clear - Harch. induction Harch as [| s t ? ? [Hk _] _ IH];
        cbn [map]; [reflexivity | now rewrite Hk, IH]. }
    unfold init_teacher, load_state_dict.
    replace (forallb (fun kv => str_in (fst kv) (map fst teacher0)) student0)
      with true.
    + rewrite Hcheck. cbn [andb bind]. eexists. split; [reflexivity |].
      split; [exact Hvalues | apply freeze_frozen].
    + symmetry. apply forallb_forall. intros kv Hkv.
      apply str_in_In. rewrite Hnames. now apply in_map.
  - intros sch epoch len batches st it Hfrozen.
    split; [now apply train_batches_frozen |].
    intros k images peers Hk. cbn zeta.
    rewrite (firstn_snoc batches k (images, peers) Hk), train_batches_snoc.
    assert (Hlen : length (firstn k batches) = k).
    { rewrite length_firstn. apply Nat.min_l.
      assert (k < length batches)%nat by (apply nth_error_Some; congruence).
      lia. }
    rewrite Hlen.
    destruct (run sch epoch len st it (firstn k batches))
      as [st_k | c st_k | e st_k]; try reflexivity.
    split; [reflexivity |].
    apply train_iteration_teacher.
Qed.

End TrainingFacts.

(** ** The theorems on small inputs *)

(** The loss of the small engine on two views of one sample is finite. *)
Lemma small_forward_finite :
  exists loss,
    forward (small_loss default_center_momentum 2)
      (column [Fin 1; Fin 2]) (column [Fin 3; Fin 5]) 0 []
    = Ok (Fin loss,
          update_center (small_loss default_center_momentum 2)
            (column [Fin 3; Fin 5]) []).
Proof.
  destruct (forward_on_views (small_loss default_center_momentum 2)
              (column [Fin 1; Fin 2]) (column [Fin 3; Fin 5]) 0 [] 2 1
              (Fin (4 / 100)) eq_refl (le_n 2) eq_refl eq_refl eq_refl)
    as (so & to & _ & _ & _ & Hfwd).
  rewrite Hfwd. cbn [view_pairs flat_map seq filter Nat.eqb negb map app
                     fold_left].
  assert (Hfin : forall iq v, (iq < 2)%nat -> (v < 2)%nat ->
            isfinite (pair_term (small_loss default_center_momentum 2)
                        (column [Fin 1; Fin 2]) (column [Fin 3; Fin 5])
                        (Fin (4 / 100)) 1 (iq, v)) = true).
  { intros iq v Hiq Hv.
    apply (finite_pair_term _ _ _ _ _ _ (1 / 10)%R (4 / 100)%R [Fin 0]);
      try reflexivity; try lra; try (cbn; lia); repeat constructor. }
  destruct (isfinite_fin _ (Hfin 0 1 ltac:(lia) ltac:(lia)))%nat as [x ->].
  destruct (isfinite_fin _ (Hfin 1 0 ltac:(lia) ltac:(lia)))%nat as [y ->].
  cbn [sadd]. unfold of_nat. rewrite sdiv_fin by (apply not_0_INR; lia).
  eexists. reflexivity.
Qed.

(** The first iteration of the small setup completes: the two parameter
    groups hold the scheduled values and the teacher is updated. *)
Lemma small_iteration_continues (m : scalar)
    (student0 teacher0 : ParameterSet) :
  small_iteration (column [Fin 1; Fin 2]) (column [Fin 3; Fin 5]) m
    (small_state student0 teacher0) 0
  = Continue
      (mkTrainState unit student0 (ema_update m student0 teacher0)
         (update_center (small_loss default_center_momentum 2)
            (column [Fin 3; Fin 5]) [])
         tt [mkParamGroup (Fin 1) (Fin 1); mkParamGroup (Fin 1) (Fin 0)] []).
Proof.
  destruct small_forward_finite as [loss Hl].
  unfold small_iteration, train_iteration.
  change (set_schedules (lr_schedule (small_schedules m))
            (wd_schedule (small_schedules m)) (3 * 0 + 0) 0
            (param_groups unit (small_state student0 teacher0)))
    with ([mkParamGroup (Fin 1) (Fin 1); mkParamGroup (Fin 1) (Fin 0)],
          @None exn).
  change (py_index (momentum_schedule (small_schedules m)) (3 * 0 + 0))
    with (Ok m).
  unfold constant_net, small_state.
  cbn [dino_loss student teacher optimizer stdout].
  rewrite Hl. reflexivity.
Qed.

(** C3, on the small setup: student weight all 2.0, teacher weight all 1.0
    and frozen, momentum 0.9. *)
Lemma teacher_ema_after_step_witness :
  let st := small_state (weight (Fin 2) true) (weight (Fin 1) false) in
  let teacher' :=
    ema_update (Fin (9 / 10)) (weight (Fin 2) true) (weight (Fin 1) false) in
  exists loss,
    (forward (dino_loss unit st) (column [Fin 1; Fin 2])
       (column [Fin 3; Fin 5]) 0 []
     = Ok (Fin loss,
           update_center (dino_loss unit st) (column [Fin 3; Fin 5]) [])
     /\ isfinite (Fin loss) = true)
    /\ small_iteration (column [Fin 1; Fin 2]) (column [Fin 3; Fin 5])
         (Fin (9 / 10)) st 0
       = Continue
           (mkTrainState unit (weight (Fin 2) true) teacher'
              (update_center (dino_loss unit st) (column [Fin 3; Fin 5]) [])
              tt [mkParamGroup (Fin 1) (Fin 1); mkParamGroup (Fin 1) (Fin 0)]
              [])
    /\ Forall2 (fun tk tk' =>
                  fst tk' = fst tk
                  /\ exists shape,
                       rows (snd tk) = full shape (Fin 1)
                       /\ rows (snd tk') = full shape (Fin (11 / 10))
                       /\ requires_grad (snd tk') = false)
               (weight (Fin 1) false) teacher'.
Proof.
  intros st teacher'.
  destruct small_forward_finite as [loss Hl]. exists loss.
  split; [split; [exact Hl | reflexivity] |].
  destruct (teacher_ema_after_step unit unit
              (constant_net (column [Fin 3; Fin 5]))
              (constant_net (column [Fin 1; Fin 2])) (fun images => images)
              idle_optimizer_step (fun _ => "finite"%string)
              (small_schedules (Fin (9 / 10))) 0%Z 3%Z st 0%Z tt []
              (Fin 1) (Fin 1) (Fin (9 / 10)) (Fin loss)
              (update_center (dino_loss unit st) (column [Fin 3; Fin 5]) [])
              tt (weight (Fin 2) true)
              eq_refl eq_refl eq_refl Hl eq_refl eq_refl)
    as (Hstep & _ & Hconst).
  split; [exact Hstep |].
  apply Hconst; [reflexivity |].
  repeat constructor. exists [2; 2]%nat. repeat split.
Defined.

(** C6, on the small setup with networks that return NaN. *)
Lemma non_finite_loss_exits_witness :
  let st := small_state (weight (Fin 2) true) (weight (Fin 1) false) in
  let st' :=
    mkTrainState unit (student unit st) (teacher unit st)
      (update_center (small_loss default_center_momentum 2)
         (column [NaN; NaN]) [])
      tt [mkParamGroup (Fin 1) (Fin 1); mkParamGroup (Fin 1) (Fin 0)]
      ["Loss is nan, stopping training"%string] in
  (isfinite NaN = false
   /\ forward (dino_loss unit st) (column [NaN; NaN]) (column [NaN; NaN]) 0 []
      = Ok (NaN, dino_loss unit st'))
  /\ small_iteration (column [NaN; NaN]) (column [NaN; NaN]) (Fin (9 / 10))
       st 0
     = SysExit 1 st'
  /\ train_batches unit unit (constant_net (column [NaN; NaN]))
       (constant_net (column [NaN; NaN])) (fun images => images)
       idle_optimizer_step (fun _ => "finite"%string)
       (small_schedules (Fin (9 / 10))) 0 3 st 0 [(tt, []); (tt, [])]
     = SysExit 1 st'.
Proof.
  intros st st'.
  assert (Hfwd : forward (dino_loss unit st) (column [NaN; NaN])
                   (column [NaN; NaN]) 0 []
                 = Ok (NaN, dino_loss unit st')) by reflexivity.
  split; [split; [reflexivity | exact Hfwd] |].
  apply (non_finite_loss_exits unit unit (constant_net (column [NaN; NaN]))
           (constant_net (column [NaN; NaN])) (fun images => images)
           idle_optimizer_step (fun _ => "finite"%string)
           (small_schedules (Fin (9 / 10))) 0 3 st 0 tt [] [(tt, [])]
           (Fin 1) (Fin 1) NaN (dino_loss unit st'));
    reflexivity.
Defined.

(** C6 as stated fails on the report: it holds the loss but not the step.
    From one state of the small setup, a NaN loss at global step 1 and a
    NaN loss at global step 2 make the process exit with the same line
    printed, ["Loss is nan, stopping training"], so the step cannot be read
    off the report. *)
Lemma fatal_report_omits_the_step :
  let st := small_state (weight (Fin 2) true) (weight (Fin 1) false) in
  let run_at it :=
    small_iteration (column [NaN; NaN]) (column [NaN; NaN]) (Fin (9 / 10))
      st it in
  (exists st',
     run_at 1%Z = SysExit 1 st' /\ run_at 2%Z = SysExit 1 st'
     /\ stdout unit st' = ["Loss is nan, stopping training"%string])
  /\ ~ (exists step_of_report : list string -> Z,
          forall it, (1 <= it <= 2)%Z ->
            step_of_report (stdout unit (outcome_state (run_at it))) = it).
Proof.
  intros st run_at.
  assert (H1 : run_at 1%Z
               = SysExit 1
                   (mkTrainState unit (student unit st) (teacher unit st)
                      (update_center (small_loss default_center_momentum 2)
                         (column [NaN; NaN]) [])
                      tt
                      [mkParamGroup (Fin 1) (Fin 1);
                       mkParamGroup (Fin 1) (Fin 0)]
                      ["Loss is nan, stopping training"%string]))
    by reflexivity.
  assert (H2 : run_at 2%Z
               = SysExit 1
                   (mkTrainState unit (student unit st) (teacher unit st)
                      (update_center (small_loss default_center_momentum 2)
                         (column [NaN; NaN]) [])
                      tt
                      [mkParamGroup (Fin 1) (Fin 1);
                       mkParamGroup (Fin 1) (Fin 0)]
                      ["Loss is nan, stopping training"%string]))
    by reflexivity.
  split.
  - eexists. split; [exact H1 |]. split; [exact H2 | reflexivity].
  - intros [f Hf].
    pose proof (Hf 1%Z ltac:(lia)) as E1.
    pose proof (Hf 2%Z ltac:(lia)) as E2.
    rewrite H1 in E1. rewrite H2 in E2. cbn [outcome_state stdout] in E1, E2.
    rewrite E1 in E2. discriminate E2.
Qed.

(** C7, on the small setup: a teacher with other weights is initialised
    from the student, and the first of two iterations moves a frozen
    teacher of all 1.0 towards the student of all 2.0 at momentum 0.9. *)
Lemma teacher_frozen_and_only_ema_witness :
  let student0 := weight (Fin 2) true in
  let teacher0 := weight (Fin 0) true in
  let st := small_state student0 (weight (Fin 1) false) in
  let run :=
    train_batches unit unit (constant_net (column [Fin 3; Fin 5]))
      (constant_net (column [Fin 1; Fin 2])) (fun images => images)
      idle_optimizer_step (fun _ => "finite"%string)
      (small_schedules (Fin (9 / 10))) 0 3 st 0 in
  (NoDup (map fst student0)
   /\ Forall2 (fun s t => fst t = fst s /\ same_shape (snd t) (snd s) = true)
              student0 teacher0
   /\ frozen (teacher unit st))
  /\ (exists teacher1,
        init_teacher student0 teacher0 = Ok teacher1
        /\ values teacher1 = values student0
        /\ frozen teacher1)
  /\ frozen (teacher unit (outcome_state (run [(tt, []); (tt, [])])))
  /\ exists st1,
       run [(tt, [])] = Continue st1
       /\ student unit st1 = student0
       /\ teacher unit st1
          = ema_update (Fin (9 / 10)) student0 (weight (Fin 1) false)
       /\ values (teacher unit st1)
          = [("weight"%string, full [2; 2]%nat (Fin (11 / 10)))].
Proof.
  intros student0 teacher0 st run.
  assert (Hnd : NoDup (map fst student0))
    by (constructor; [intros [] | constructor]).
  assert (Harch : Forall2 (fun s t => fst t = fst s
                                      /\ same_shape (snd t) (snd s) = true)
                          student0 teacher0) by repeat constructor.
  assert (Hfrozen : frozen (teacher unit st)) by repeat constructor.
  destruct (teacher_frozen_and_only_ema unit unit
              (constant_net (column [Fin 3; Fin 5]))
              (constant_net (column [Fin 1; Fin 2])) (fun images => images)
              idle_optimizer_step (fun _ => "finite"%string))
    as [Hinit Hrun].
  destruct (Hrun (small_schedules (Fin (9 / 10))) 0%Z 3%Z [(tt, []); (tt, [])]
              st 0%Z Hfrozen) as [Hf Hstep].
  split; [split; [exact Hnd | split; [exact Harch | exact Hfrozen]] |].
  split; [exact (Hinit student0 teacher0 Hnd Harch) |].
  split; [exact Hf |].
  specialize (Hstep 0%nat tt [] eq_refl). cbn zeta in Hstep.
  cbn [firstn train_batches] in Hstep. destruct Hstep as [Hafter Hteacher].
  pose proof (small_iteration_continues (Fin (9 / 10)) student0
                (weight (Fin 1) false)) as Hsmall.
  unfold small_iteration in Hsmall. fold st in Hsmall.
  change (0 + Z.of_nat 0)%Z with 0%Z in Hafter, Hteacher.
  rewrite Hsmall in Hafter. rewrite Hsmall in Hteacher.
  destruct Hteacher as [(m & Hm & Ht) Hs].
  eexists. split; [subst run; cbn [train_batches]; rewrite Hsmall; reflexivity |].
  split; [reflexivity |]. split; [reflexivity |].
  cbn.
  replace (1 * (9 / 10) + (1 + - (9 / 10)) * 2)%R with (11 / 10)%R by lra.
  reflexivity.
Defined.

(** ** The library models on small inputs *)

Example chunk_uneven : chunk [1; 2; 3; 4; 5]%nat 4 = Ok [[1; 2]; [3; 4]; [5]]%nat.
Proof. reflexivity. Qed.

Example chunk_no_rows : chunk (@nil nat) 3 = Ok [[]; []; []].
Proof. reflexivity. Qed.

Example chunk_zero_chunks : chunk [1]%nat 0 = Raise RuntimeError.
Proof. reflexivity. Qed.

Example py_index_from_the_end : py_index [10; 20; 30]%nat (-1) = Ok 30%nat.
Proof. reflexivity. Qed.

Example py_index_out_of_range : py_index [10; 20; 30]%nat 3 = Raise IndexError.
Proof. reflexivity. Qed.

Example str_replace_deit :
  str_replace "deit_small" "deit" "vit" = "vit_small"%string.
Proof. reflexivity. Qed.

Example view_pairs_three_views :
  view_pairs 3 = [(0, 1); (0, 2); (1, 0); (1, 2)]%nat.
Proof. reflexivity. Qed.

Example linspace_three :
  np_linspace (Fin 0) (Fin 1) 3 = Ok [Fin 0; Fin (1 / 2); Fin 1].
Proof.
  assert (H3 : (0 <= 3)%Z) by lia.
  destruct (np_linspace_fin 0 1 3 H3) as (l & Hl & Hlen & Hnth).
  rewrite Hl. f_equal. change (Z.to_nat 3) with 3%nat in Hlen, Hnth.
  destruct l as [| a [| b [| c [| d l]]]]; try discriminate Hlen.
  assert (H0 := Hnth 0%nat). assert (H1 := Hnth 1%nat).
  assert (H2 := Hnth 2%nat).
  specialize (H0 ltac:(lia)). specialize (H1 ltac:(lia)).
  specialize (H2 ltac:(lia)).
  cbn [nth] in H0, H1, H2. subst a b c.
  unfold ramp_value. cbn [INR Nat.sub].
  f_equal; [f_equal; lra |]. f_equal; [f_equal; lra |].
  f_equal. f_equal. lra.
Qed.

(** * Further properties of the code *)

(** ** The iterations of an epoch *)

Lemma py_index_in_range {A} (l : list A) (i : Z) :
  (0 <= i < Z.of_nat (length l))%Z -> exists a, py_index l i = Ok a.
Proof.
  intros Hi. destruct l as [| a0 l]; [cbn in Hi; lia |].
  exists (nth (Z.to_nat i) (a0 :: l) a0). now apply py_index_nth.
Qed.

Section TrainingLoopFacts.

Variables Views Optimizer : Type.
Variable teacher_net : ParameterSet -> Views -> Tensor.
Variable student_net : ParameterSet -> Views -> Tensor.
Variable first_two : Views -> Views.
Variable optimizer_step :
  Optimizer -> list param_group -> ParameterSet -> Views -> Tensor ->
  DINOLoss -> Z -> Optimizer * ParameterSet.
Variable repr_finite : R -> string.

Let State := TrainState Optimizer.
Let step :=
  train_iteration Views Optimizer teacher_net student_net first_two
    optimizer_step repr_finite.
Let run :=
  train_batches Views Optimizer teacher_net student_net first_two
    optimizer_step repr_finite.
Let run_epochs :=
  train_epochs Views Optimizer teacher_net student_net first_two
    optimizer_step repr_finite.

(** X1.  With the three schedules of [epochs * len(data_loader)] entries,
    the global iteration [len(data_loader) * epoch + it] of every batch of
    every epoch is inside the tables and belongs to no other batch, so an
    iteration raises only what the loss computation raises, and then with
    the learning rate and the weight decay of the step already written to
    the parameter groups.  If [forward] returns, the iteration completes
    or, on a loss that is not finite, exits with status 1, in both cases
    with these values in the parameter groups. *)
Theorem train_iteration_within_schedules (sch : Schedules)
    (epochs len epoch it : Z) (st : State) (images : Views)
    (peers : list Tensor) :
  Z.of_nat (length (lr_schedule sch)) = (epochs * len)%Z ->
  Z.of_nat (length (wd_schedule sch)) = (epochs * len)%Z ->
  Z.of_nat (length (momentum_schedule sch)) = (epochs * len)%Z ->
  (0 <= epoch < epochs)%Z -> (0 <= it < len)%Z ->
  (0 <= len * epoch + it < epochs * len)%Z
  /\ (forall epoch' it',
        (0 <= epoch' < epochs)%Z -> (0 <= it' < len)%Z ->
        (len * epoch' + it' = len * epoch + it)%Z ->
        epoch' = epoch /\ it' = it)
  /\ exists lr wd,
       py_index (lr_schedule sch) (len * epoch + it) = Ok lr
       /\ py_index (wd_schedule sch) (len * epoch + it) = Ok wd
       /\ let groups := scheduled_groups lr wd (param_groups Optimizer st) in
          match forward (dino_loss Optimizer st)
                  (student_net (student Optimizer st) images)
                  (teacher_net (teacher Optimizer st) (first_two images))
                  epoch peers with
          | Raise e =>
              step sch epoch len st it images peers
              = Raised e
                  (mkTrainState Optimizer (student Optimizer st)
                     (teacher Optimizer st) (dino_loss Optimizer st)
                     (optimizer Optimizer st) groups (stdout Optimizer st))
          | Ok (loss, _) =>
              if isfinite loss
              then exists st',
                     step sch epoch len st it images peers = Continue st'
                     /\ param_groups Optimizer st' = groups
              else exists st',
                     step sch epoch len st it images peers = SysExit 1 st'
                     /\ param_groups Optimizer st' = groups
          end.
Proof.
  intros Hlr Hwd Hm He Hi.
  assert (Hrange : (0 <= len * epoch + it < epochs * len)%Z).
  { assert (len * (epoch + 1) <= len * epochs)%Z
      by (apply Z.mul_le_mono_nonneg_l; lia).
    assert (0 <= len * epoch)%Z by (apply Z.mul_nonneg_nonneg; lia).
    lia. }
  split; [exact Hrange |]. split.
  { intros e' i' He' Hi' Heq.
    assert (e' = epoch); [| subst; lia].
    destruct (Z.lt_trichotomy e' epoch) as [Hlt | [Heq' | Hgt]];
      [| exact Heq' |]; exfalso.
    - assert (len * (e' + 1) <= len * epoch)%Z
        by (apply Z.mul_le_mono_nonneg_l; lia). lia.
    - assert (len * (epoch + 1) <= len * e')%Z
        by (apply Z.mul_le_mono_nonneg_l; lia). lia. }
  destruct (py_index_in_range (lr_schedule sch) (len * epoch + it)%Z)
    as [lr Elr]; [lia |].
  destruct (py_index_in_range (wd_schedule sch) (len * epoch + it)%Z)
    as [wd Ewd]; [lia |].
  destruct (py_index_in_range (momentum_schedule sch) (len * epoch + it)%Z)
    as [m Em]; [lia |].
  exists lr, wd. split; [exact Elr |]. split; [exact Ewd |]. cbn zeta.
  subst step. unfold train_iteration.
  rewrite (set_schedules_written _ _ _ lr wd _ Elr Ewd).
  destruct (forward _ _ _ _ _) as [[loss dl'] | e]; [| reflexivity].
  destruct (isfinite loss); cbn [negb].
  - destruct (optimizer_step _ _ _ _ _ _ _) as [opt' student'].
    rewrite Em. eexists. split; reflexivity.
  - eexists. split; reflexivity.
Qed.

(** A loop over batches that runs to its end has run every prefix of them
    to its end. *)
Lemma train_batches_prefix (sch : Schedules) (epoch len : Z)
    (batches rest : list (Views * list Tensor)) (st st' : State) (it : Z) :
  run sch epoch len st it (batches ++ rest) = Continue st' ->
  exists st_k, run sch epoch len st it batches = Continue st_k.
Proof.
  unfold run. revert st it.
  induction batches as [| [images peers] batches IH]; intros st it Hrun.
  - now exists st.
  - cbn [app train_batches] in *.
    destruct (train_iteration _ _ _ _ _ _ _ _ _ _ _ _ images peers)
      as [st1 | c st1 | e st1]; try discriminate Hrun.
    now apply IH.
Qed.

(** X2.  An epoch that runs to the end of its batches has applied exactly
    one EMA update per batch, in order: the batches before the [k]-th one
    and the [k]-th one itself complete, in states [st_k] and [st_k1], and
    the teacher of [st_k1] is the EMA update of the teacher of [st_k] with
    the momentum of global iteration [len(data_loader) * epoch + it + k]
    against the student of [st_k1], the one the optimizer step of the
    [k]-th iteration returned. *)
Theorem train_batches_one_update_per_batch (sch : Schedules) (epoch len : Z)
    (batches : list (Views * list Tensor)) (st st' : State) (it : Z) :
  run sch epoch len st it batches = Continue st' ->
  forall (k : nat) (images : Views) (peers : list Tensor),
    nth_error batches k = Some (images, peers) ->
    exists st_k st_k1 m,
      run sch epoch len st it (firstn k batches) = Continue st_k
      /\ run sch epoch len st it (firstn (S k) batches) = Continue st_k1
      /\ py_index (momentum_schedule sch) (len * epoch + (it + Z.of_nat k))
         = Ok m
      /\ teacher Optimizer st_k1
         = ema_update m (student Optimizer st_k1) (teacher Optimizer st_k)
      /\ student Optimizer st_k1
         = snd (optimizer_step (optimizer Optimizer st_k)
                  (param_groups Optimizer st_k1) (student Optimizer st_k)
                  images
                  (teacher_net (teacher Optimizer st_k) (first_two images))
                  (dino_loss Optimizer st_k) epoch).
Proof.
  intros Hrun k images peers Hk.
  assert (Hlen : length (firstn k batches) = k).
  { rewrite length_firstn. apply Nat.min_l.
    assert (k < length batches)%nat by (apply nth_error_Some; congruence).
    lia. }
  rewrite <- (firstn_skipn (S k) batches) in Hrun.
  destruct (train_batches_prefix sch epoch len _ _ st st' it Hrun)
    as [st_k1 Hk1].
  pose proof Hk1 as Hk1'.
  rewrite (firstn_snoc batches k (images, peers) Hk) in Hk1'.
  destruct (train_batches_prefix sch epoch len _ _ st st_k1 it Hk1')
    as [st_k Hk0].
  unfold run in Hk1'.
  rewrite (train_batches_snoc Views Optimizer teacher_net student_net
             first_two optimizer_step repr_finite) in Hk1'.
  fold run in Hk1'. rewrite Hk0, Hlen in Hk1'.
  pose proof (train_iteration_teacher Views Optimizer teacher_net student_net
                first_two optimizer_step repr_finite sch epoch len st_k
                (it + Z.of_nat k) images peers) as H.
  rewrite Hk1' in H. destruct H as [(m & Hm & Ht) Hs].
  exists st_k, st_k1, m. repeat split; assumption.
Qed.

Lemma py_range_from_nth (a b : Z) (k : nat) (epoch : Z) :
  nth_error (py_range_from a b) k = Some epoch -> epoch = (a + Z.of_nat k)%Z.
Proof.
  unfold py_range_from. intros H.
  rewrite nth_error_map in H.
  destruct (nth_error (seq 0 (Z.to_nat (b - a))) k) as [i |] eqn:E;
    [| discriminate H].
  cbn in H. inversion H; subst.
  assert (Hk : (k < length (seq 0 (Z.to_nat (b - a))))%nat)
    by (apply nth_error_Some; congruence).
  rewrite length_seq in Hk.
  rewrite (nth_error_nth' _ 0%nat) in E by (now rewrite length_seq).
  rewrite seq_nth in E by exact Hk. inversion E. reflexivity.
Qed.

(** Running one more epoch. *)
Lemma train_epochs_snoc (sch : Schedules) (len saveckp_freq : Z)
    (data_loader : Z -> list (Views * list Tensor)) (epochs : list Z)
    (epoch : Z) (st : State)
    (saved : list (checkpoint_path * SaveDict Optimizer)) :
  run_epochs sch len saveckp_freq data_loader (epochs ++ [epoch]) st saved
  = match run_epochs sch len saveckp_freq data_loader epochs st saved with
    | (Continue st_k, saved_k) =>
        match run sch epoch len st_k 0 (data_loader epoch) with
        | Continue st' =>
            (Continue st',
             saved_k ++ epoch_writes Optimizer saveckp_freq st' epoch)
        | stop => (stop, saved_k)
        end
    | stopped => stopped
    end.
Proof.
  unfold run_epochs, run. revert st saved.
  induction epochs as [| e epochs IH]; intros st saved.
  - cbn [app train_epochs].
    now destruct (train_batches _ _ _ _ _ _ _ _ _ _ _ _ _).
  - cbn [app train_epochs].
    destruct (train_batches _ _ _ _ _ _ _ _ e _ _ _ _)
      as [st1 | c st1 | x st1]; try reflexivity.
    apply IH.
Qed.

(** X4.  The epoch loop writes checkpoints for the epochs that ran to
    their end and for no other.  If the epochs before the [k]-th one of
    [range(start_epoch, epochs)] completed, the [k]-th one,
    [start_epoch + k], is run from the state they left; when it runs to
    its end the master process writes [checkpoint.pth] and then, if
    [saveckp_freq] is not zero and divides the epoch, the numbered
    checkpoint of the epoch, both holding the state the epoch reached with
    ['epoch'] set to the next epoch; when it exits or raises nothing is
    written and the loop ends with that outcome.  After a stop no later
    epoch runs or writes. *)
Theorem train_epochs_checkpoints (sch : Schedules)
    (len saveckp_freq : Z) (data_loader : Z -> list (Views * list Tensor))
    (start_epoch epochs : Z) (st : State)
    (saved : list (checkpoint_path * SaveDict Optimizer))
    (k : nat) (epoch : Z) :
  nth_error (py_range_from start_epoch epochs) k = Some epoch ->
  let upto n :=
    run_epochs sch len saveckp_freq data_loader
      (firstn n (py_range_from start_epoch epochs)) st saved in
  epoch = (start_epoch + Z.of_nat k)%Z
  /\ match upto k with
     | (Continue st_k, saved_k) =>
         match run sch epoch len st_k 0 (data_loader epoch) with
         | Continue st' =>
             let d := save_dict Optimizer st' epoch in
             upto (S k)
             = (Continue st',
                saved_k
                ++ (checkpoint_pth, d)
                   :: (if negb (saveckp_freq =? 0)%Z
                          && (epoch mod saveckp_freq =? 0)%Z
                       then [(checkpoint_numbered epoch, d)]
                       else []))
             /\ saved_epoch Optimizer d = (epoch + 1)%Z
             /\ saved_teacher Optimizer d = teacher Optimizer st'
             /\ saved_student Optimizer d = student Optimizer st'
         | stop => upto (S k) = (stop, saved_k)
         end
     | stopped => upto (S k) = stopped
     end.
Proof.
  intros Hk upto. split; [now apply py_range_from_nth in Hk |].
  subst upto. cbn beta.
  rewrite (firstn_snoc _ k epoch Hk), train_epochs_snoc.
  destruct (run_epochs sch len saveckp_freq data_loader
              (firstn k (py_range_from start_epoch epochs)) st saved)
    as [[st_k | c st_k | e st_k] saved_k]; try reflexivity.
  destruct (run sch epoch len st_k 0 (data_loader epoch))
    as [st' | c st' | e st']; try reflexivity.
  cbn zeta. repeat split.
Qed.

End TrainingLoopFacts.

(** One batch of the small setup runs to its end. *)
Lemma small_epoch_continues (m : scalar) (student0 teacher0 : ParameterSet) :
  train_batches unit unit (constant_net (column [Fin 3; Fin 5]))
    (constant_net (column [Fin 1; Fin 2])) (fun images => images)
    idle_optimizer_step (fun _ => "finite"%string) (small_schedules m) 0 3
    (small_state student0 teacher0) 0 [(tt, [])]
  = Continue
      (mkTrainState unit student0 (ema_update m student0 teacher0)
         (update_center (small_loss default_center_momentum 2)
            (column [Fin 3; Fin 5]) [])
         tt [mkParamGroup (Fin 1) (Fin 1); mkParamGroup (Fin 1) (Fin 0)] []).
Proof.
  cbn [train_batches].
  pose proof (small_iteration_continues m student0 teacher0) as H.
  unfold small_iteration in H. now rewrite H.
Qed.

(** X1, for the second batch of a single epoch of three batches. *)
Lemma train_iteration_within_schedules_witness :
  let sch := small_schedules (Fin (9 / 10)) in
  let st := small_state (weight (Fin 2) true) (weight (Fin 1) false) in
  let step :=
    train_iteration unit unit (constant_net (column [Fin 3; Fin 5]))
      (constant_net (column [Fin 1; Fin 2])) (fun images => images)
      idle_optimizer_step (fun _ => "finite"%string) in
  (Z.of_nat (length (momentum_schedule sch)) = (1 * 3)%Z
   /\ (0 <= 0 < 1)%Z /\ (0 <= 1 < 3)%Z)
  /\ (0 <= 3 * 0 + 1 < 1 * 3)%Z
  /\ (forall epoch' it',
        (0 <= epoch' < 1)%Z -> (0 <= it' < 3)%Z ->
        (3 * epoch' + it' = 3 * 0 + 1)%Z -> epoch' = 0%Z /\ it' = 1%Z)
  /\ exists lr wd,
       py_index (lr_schedule sch) (3 * 0 + 1) = Ok lr
       /\ py_index (wd_schedule sch) (3 * 0 + 1) = Ok wd
       /\ let groups := scheduled_groups lr wd (param_groups unit st) in
          match forward (dino_loss unit st) (column [Fin 1; Fin 2])
                  (column [Fin 3; Fin 5]) 0 [] with
          | Raise e =>
              step sch 0%Z 3%Z st 1%Z tt []
              = Raised e
                  (mkTrainState unit (student unit st) (teacher unit st)
                     (dino_loss unit st) (optimizer unit st) groups
                     (stdout unit st))
          | Ok (loss, _) =>
              if isfinite loss
              then exists st',
                     step sch 0%Z 3%Z st 1%Z tt [] = Continue st'
                     /\ param_groups unit st' = groups
              else exists st',
                     step sch 0%Z 3%Z st 1%Z tt [] = SysExit 1 st'
                     /\ param_groups unit st' = groups
          end.
Proof.
  intros sch st step.
  split; [split; [reflexivity | lia] |].
  apply (train_iteration_within_schedules unit unit
           (constant_net (column [Fin 3; Fin 5]))
           (constant_net (column [Fin 1; Fin 2])) (fun images => images)
           idle_optimizer_step (fun _ => "finite"%string)
           sch 1%Z 3%Z 0%Z 1%Z st tt []); (reflexivity || lia).
Defined.

(** X2, on one batch of the small setup: the teacher of all 1.0 moves to
    all 1.1. *)
Lemma train_batches_one_update_per_batch_witness :
  let sch := small_schedules (Fin (9 / 10)) in
  let st := small_state (weight (Fin 2) true) (weight (Fin 1) false) in
  let run :=
    train_batches unit unit (constant_net (column [Fin 3; Fin 5]))
      (constant_net (column [Fin 1; Fin 2])) (fun images => images)
      idle_optimizer_step (fun _ => "finite"%string) sch 0 3 st 0 in
  exists st',
    run [(tt, [])] = Continue st'
    /\ exists st_k st_k1 m,
         run (firstn 0 [(tt, [])]) = Continue st_k
         /\ run (firstn 1 [(tt, [])]) = Continue st_k1
         /\ py_index (momentum_schedule sch) (3 * 0 + (0 + Z.of_nat 0)) = Ok m
         /\ teacher unit st_k1
            = ema_update m (student unit st_k1) (teacher unit st_k)
         /\ student unit st_k1
            = snd (idle_optimizer_step (optimizer unit st_k)
                     (param_groups unit st_k1) (student unit st_k) tt
                     (column [Fin 3; Fin 5]) (dino_loss unit st_k) 0).
Proof.
  intros sch st run.
  pose proof (small_epoch_continues (Fin (9 / 10)) (weight (Fin 2) true)
                (weight (Fin 1) false)) as Hrun.
  eexists. split; [exact Hrun |].
  exact (train_batches_one_update_per_batch unit unit
           (constant_net (column [Fin 3; Fin 5]))
           (constant_net (column [Fin 1; Fin 2])) (fun images => images)
           idle_optimizer_step (fun _ => "finite"%string)
           sch 0%Z 3%Z [(tt, [])] st _ 0%Z Hrun 0%nat tt [] eq_refl).
Defined.

(** X4, for the first epoch of the small setup with a checkpoint every
    epoch: both files are written, with ['epoch'] 1. *)
Lemma train_epochs_checkpoints_witness :
  let sch := small_schedules (Fin (9 / 10)) in
  let st := small_state (weight (Fin 2) true) (weight (Fin 1) false) in
  let upto n :=
    train_epochs unit unit (constant_net (column [Fin 3; Fin 5]))
      (constant_net (column [Fin 1; Fin 2])) (fun images => images)
      idle_optimizer_step (fun _ => "finite"%string) sch 3 1
      (fun _ => [(tt, [])]) (firstn n (py_range_from 0 1)) st [] in
  exists st',
    upto 0%nat = (Continue st, [])
    /\ upto 1%nat
       = (Continue st',
          [(checkpoint_pth, save_dict unit st' 0);
           (checkpoint_numbered 0, save_dict unit st' 0)])
    /\ saved_epoch unit (save_dict unit st' 0) = 1%Z
    /\ teacher unit st'
       = ema_update (Fin (9 / 10)) (weight (Fin 2) true)
           (weight (Fin 1) false).
Proof.
  intros sch st upto.
  pose proof (train_epochs_checkpoints unit unit
                (constant_net (column [Fin 3; Fin 5]))
                (constant_net (column [Fin 1; Fin 2])) (fun images => images)
                idle_optimizer_step (fun _ => "finite"%string)
                sch 3%Z 1%Z (fun _ => [(tt, [])]) 0%Z 1%Z st [] 0%nat 0%Z
                eq_refl) as [_ H].
  change (firstn 0 (py_range_from 0 1)) with (@nil Z) in H.
  cbn [train_epochs] in H. cbn beta in H. subst sch st.
  rewrite (small_epoch_continues (Fin (9 / 10)) (weight (Fin 2) true)
             (weight (Fin 1) false)) in H.
  cbn zeta in H. destruct H as (H1 & H2 & _).
  eexists. split; [reflexivity |]. split; [exact H1 |].
  split; [exact H2 | reflexivity].
Defined.

(** ** The EMA update of the teacher *)

Lemma smul_one_minus_one_l (x : scalar) :
  isfinite x = true -> ((Fin 1 - Fin 1) * x)%S = Fin 0.
Proof.
  intros H. apply isfinite_fin in H. destruct H as [r ->].
  cbn. f_equal. lra.
Qed.

Lemma tensor_eta (t : Tensor) :
  mkTensor (rows t) (ncols t) (requires_grad t) = t.
Proof. now destruct t. Qed.

Lemma mzip_momentum_one (a b : matrix) :
  Forall2 (fun rk rq => length rk = length rq /\ finite_row rq) a b ->
  mzip (fun k q => (k * Fin 1 + (Fin 1 - Fin 1) * q)%S) a b = a.
Proof.
  intros H. unfold mzip. induction H as [| rk rq ks qs [Hlen Hfin] H IH];
    cbn [zip_with]; [reflexivity |].
  f_equal; [| exact IH]. clear IH H.
  revert rq Hlen Hfin. induction rk as [| x rk IHr]; intros [| y rq] Hlen Hfin;
    cbn [zip_with]; try reflexivity; try discriminate.
  inversion Hfin; subst.
  rewrite smul_one_r, smul_one_minus_one_l, sadd_zero_r by assumption.
  f_equal. apply IHr; [cbn in Hlen; lia | assumption].
Qed.

Lemma ema_param_momentum_one (param_q param_k : Tensor) :
  Forall2 (fun rk rq => length rk = length rq /\ finite_row rq)
          (rows param_k) (rows param_q) ->
  ema_param (Fin 1) param_q param_k = param_k.
Proof.
  intros H. rewrite ema_param_entries, mzip_momentum_one by assumption.
  apply tensor_eta.
Qed.

(** X6.  At momentum 1, the value the momentum schedule ends at, the
    update leaves the teacher exactly as it is, whatever the (finite)
    student of the same shapes holds. *)
Theorem ema_update_momentum_one (student teacher : ParameterSet) :
  Forall2 (fun sq tk =>
             Forall2 (fun rk rq => length rk = length rq /\ finite_row rq)
                     (rows (snd tk)) (rows (snd sq)))
          student teacher ->
  ema_update (Fin 1) student teacher = teacher.
Proof.
  intros H. induction H as [| [nq q] [nk k] student teacher Hqk H IH];
    cbn [ema_update]; [reflexivity |].
  cbn [snd] in Hqk. now rewrite ema_param_momentum_one, IH.
Qed.

(** X6, on the 2 x 2 weight. *)
Lemma ema_update_momentum_one_witness :
  ema_update (Fin 1) (weight (Fin 2) true) (weight (Fin 1) false)
  = weight (Fin 1) false.
Proof.
  apply (ema_update_momentum_one (weight (Fin 2) true) (weight (Fin 1) false)).
  repeat constructor.
Defined.

(** X8.  The update pairs the parameters by position and stops at the
    shorter list: for paired parameters of matching shapes it keeps the
    number, names, column counts and [requires_grad] flags of the teacher
    parameters, also when the student has fewer or more parameters, and a
    teacher parameter at a position the student does not reach is left
    untouched. *)
Theorem ema_update_keeps_structure (m : scalar) (student teacher : ParameterSet) :
  paired_shapes student teacher ->
  Forall2 (fun tk tk' =>
             fst tk' = fst tk
             /\ ncols (snd tk') = ncols (snd tk)
             /\ requires_grad (snd tk') = requires_grad (snd tk))
          teacher (ema_update m student teacher)
  /\ forall p, (length student <= p)%nat ->
       nth_error (ema_update m student teacher) p = nth_error teacher p.
Proof.
  intros _. split.
  - revert student. induction teacher as [| [nk k] teacher IH];
      intros [| [nq q] student]; cbn [ema_update]; try constructor.
    + now repeat split.
    + clear. induction teacher as [| t teacher IH]; constructor;
        [now repeat split | exact IH].
    + now repeat split.
    + apply IH.
  - revert teacher. induction student as [| [nq q] student IH];
      intros teacher p Hp.
    + now destruct teacher.
    + destruct teacher as [| [nk k] teacher]; [reflexivity |].
      destruct p as [| p]; [cbn in Hp; lia |].
      cbn [ema_update nth_error]. apply IH. cbn in Hp. lia.
Qed.

(** X8, for a student of one parameter and a teacher of two. *)
Lemma ema_update_keeps_structure_witness :
  let student := weight (Fin 2) true in
  let teacher :=
    weight (Fin 1) false ++ [("bias"%string, mkTensor [[Fin 3]] 1 false)] in
  paired_shapes student teacher
  /\ Forall2 (fun tk tk' =>
                fst tk' = fst tk
                /\ ncols (snd tk') = ncols (snd tk)
                /\ requires_grad (snd tk') = requires_grad (snd tk))
             teacher (ema_update (Fin (9 / 10)) student teacher)
  /\ forall p, (length student <= p)%nat ->
       nth_error (ema_update (Fin (9 / 10)) student teacher) p
       = nth_error teacher p.
Proof.
  intros student teacher.
  assert (Hshapes : paired_shapes student teacher).
  { intros [| p] q k Hq Hk; [| destruct p; discriminate Hq].
    cbn in Hq, Hk. inversion Hq; inversion Hk; subst. repeat constructor. }
  split; [exact Hshapes |].
  exact (ema_update_keeps_structure (Fin (9 / 10)) student teacher Hshapes).
Defined.

(** ** The teacher distribution and the sign of the loss *)

Lemma row_sat_finite (P : R -> Prop) (r : list scalar) :
  row_sat P r -> finite_row r.
Proof.
  intros H. induction H as [| x r (v & -> & _) H IH]; constructor;
    [reflexivity | exact IH].
Qed.

Lemma fold_sadd_real_sum (l : list scalar) (a : R) :
  finite_row l -> fold_left sadd l (Fin a) = Fin (a + real_sum l).
Proof.
  intros Hl. revert a. induction Hl as [| x l Hx Hl IH]; intros a;
    cbn [fold_left real_sum].
  - f_equal. lra.
  - apply isfinite_fin in Hx. destruct Hx as [v ->]. cbn [sadd].
    rewrite IH. f_equal. lra.
Qed.

Lemma vsum_real_sum (l : list scalar) :
  finite_row l -> vsum l = Fin (real_sum l).
Proof.
  intros Hl. unfold vsum. rewrite fold_sadd_real_sum by assumption.
  f_equal. lra.
Qed.

Lemma real_sum_nonneg (l : list scalar) :
  row_sat (fun v => 0 <= v)%R l -> (0 <= real_sum l)%R.
Proof.
  intros H. induction H as [| x l (v & -> & Hv) H IH]; cbn [real_sum]; lra.
Qed.

Lemma real_sum_ge_entry (l : list scalar) (v : R) :
  row_sat (fun v => 0 <= v)%R l -> In (Fin v) l -> (v <= real_sum l)%R.
Proof.
  intros H Hin. induction H as [| x l (w & -> & Hw) H IH]; [contradiction |].
  cbn [real_sum]. pose proof (real_sum_nonneg l H) as Hs.
  destruct Hin as [Heq | Hin].
  - inversion Heq; subst. lra.
  - specialize (IH Hin). lra.
Qed.

Lemma exp_row_sat (r : list scalar) :
  finite_row r -> row_sat (fun v => 0 < v)%R (map sexp r).
Proof.
  intros H. induction H as [| x r Hx H IH]; cbn [map]; constructor;
    [| exact IH].
  apply isfinite_fin in Hx. destruct Hx as [v ->]. exists (exp v).
  split; [reflexivity | apply exp_pos].
Qed.

Lemma row_sat_impl (P Q : R -> Prop) (r : list scalar) :
  (forall v, P v -> Q v) -> row_sat P r -> row_sat Q r.
Proof.
  intros HPQ H. induction H as [| x r (v & -> & Hv) H IH]; constructor;
    [| exact IH].
  exists v. split; [reflexivity | now apply HPQ].
Qed.

Lemma real_sum_div (l : list scalar) (s : R) :
  finite_row l -> s <> 0%R ->
  real_sum (map (fun x => x / Fin s)%S l) = (real_sum l / s)%R.
Proof.
  intros Hl Hs. induction Hl as [| x l Hx Hl IH]; cbn [map real_sum].
  - unfold Rdiv. lra.
  - apply isfinite_fin in Hx. destruct Hx as [v ->].
    rewrite sdiv_fin by assumption. rewrite IH. unfold Rdiv. lra.
Qed.

(** The softmax of a finite row that is not empty is a distribution. *)
Lemma softmax_row_distribution (r : list scalar) :
  finite_row r -> r <> [] ->
  row_sat (fun v => 0 < v <= 1)%R (softmax_row r)
  /\ vsum (softmax_row r) = Fin 1.
Proof.
  intros Hr Hne. unfold softmax_row.
  pose proof (exp_row_sat r Hr) as He.
  assert (Hepos : row_sat (fun v => 0 <= v)%R (map sexp r))
    by (apply (row_sat_impl _ _ _ (fun v H => Rlt_le 0 v H)), He).
  pose proof (row_sat_finite _ _ He) as Hefin.
  rewrite (vsum_real_sum (map sexp r)) by assumption.
  set (S := real_sum (map sexp r)).
  assert (HS : (0 < S)%R).
  { subst S. destruct r as [| x r]; [contradiction |].
    inversion Hr as [| ? ? Hx Hr']; subst.
    apply isfinite_fin in Hx. destruct Hx as [v ->].
    cbn [map sexp real_sum].
    assert (Hrest : row_sat (fun v => 0 <= v)%R (map sexp r))
      by (apply (row_sat_impl _ _ _ (fun v H => Rlt_le 0 v H)), exp_row_sat, Hr').
    pose proof (real_sum_nonneg _ Hrest). pose proof (exp_pos v). lra. }
  split.
  - assert (Hle : forall v, In (Fin v) (map sexp r) -> (v <= S)%R)
      by (intros v Hv; now apply real_sum_ge_entry).
    clear Hepos Hefin. clearbody S.
    induction He as [| x e (v & -> & Hv) He IH]; cbn [map]; constructor.
    + exists (v / S)%R. split; [apply sdiv_fin; lra |].
      assert (v <= S)%R by (apply Hle; now left).
      split.
      * apply Rdiv_lt_0_compat; assumption.
      * apply (Rmult_le_reg_r S); [assumption |].
        unfold Rdiv. rewrite Rmult_assoc, Rinv_l by lra. lra.
    + apply IH. intros w Hw. apply Hle. now right.
  - rewrite vsum_real_sum.
    + rewrite real_sum_div by (try assumption; lra). fold S.
      f_equal. field. lra.
    + clear - Hefin HS. clearbody S. induction Hefin as [| x e Hx He IH]; cbn [map];
        constructor; [| exact IH].
      apply isfinite_fin in Hx. destruct Hx as [v ->].
      rewrite sdiv_fin by lra. reflexivity.
Qed.

(** The log-softmax of a finite row has no positive entry. *)
Lemma log_softmax_row_nonpos (r : list scalar) :
  finite_row r -> row_sat (fun v => v <= 0)%R (log_softmax_row r).
Proof.
  intros Hr. unfold log_softmax_row.
  destruct r as [| x0 r0]; [constructor |].
  set (r := x0 :: r0) in *.
  pose proof (exp_row_sat r Hr) as He.
  assert (Hepos : row_sat (fun v => 0 <= v)%R (map sexp r))
    by (apply (row_sat_impl _ _ _ (fun v H => Rlt_le 0 v H)), He).
  rewrite (vsum_real_sum (map sexp r)) by (now apply row_sat_finite in He).
  set (S := real_sum (map sexp r)).
  assert (Hle : forall v, In (Fin v) r -> (exp v <= S)%R).
  { intros v Hv. apply real_sum_ge_entry; [assumption |].
    change (Fin (exp v)) with (sexp (Fin v)). now apply in_map. }
  assert (HS : (0 < S)%R).
  { inversion Hr as [| ? ? Hx _]; subst.
    apply isfinite_fin in Hx. destruct Hx as [v Hv].
    pose proof (Hle v ltac:(left; exact Hv)). pose proof (exp_pos v). lra. }
  cbn [slog]. rewrite sgn_pos by assumption.
  clear He Hepos. clearbody S. clearbody r.
  induction Hr as [| y l Hy Hl IH]; cbn [map]; constructor.
  - apply isfinite_fin in Hy. destruct Hy as [v ->].
    exists (v + - ln S)%R. split; [reflexivity |].
    assert (Hv : (exp v <= S)%R) by (apply Hle; now left).
    assert (ln (exp v) <= ln S)%R.
    { destruct Hv as [Hlt | Heq].
      - left. apply ln_increasing; [apply exp_pos | assumption].
      - right. now rewrite Heq. }
    rewrite ln_exp in H. lra.
  - apply IH. intros w Hw. apply Hle. now right.
Qed.

(** The term of a teacher view of distributions against a finite student
    view is a finite number that is not negative. *)
Lemma pair_loss_nonneg (q s : matrix) :
  matrix_sat (fun v => 0 < v <= 1)%R q -> finite_matrix s ->
  length q = length s -> q <> [] ->
  exists t, vmean (map vsum (mzip smul (mneg q) (log_softmax s))) = Fin t
            /\ (0 <= t)%R.
Proof.
  intros Hq Hs Hlen Hne.
  assert (Hrows : row_sat (fun v => 0 <= v)%R
                    (map vsum (mzip smul (mneg q) (log_softmax s)))
                  /\ length (map vsum (mzip smul (mneg q) (log_softmax s)))
                     = length q).
  { clear Hne. revert s Hs Hlen.
    induction Hq as [| r q Hr Hq IH]; intros [| r' s] Hs Hlen;
      try discriminate.
    - split; [constructor | reflexivity].
    - inversion Hs as [| ? ? Hr' Hs']; subst.
      destruct (IH s Hs' ltac:(cbn in Hlen; lia)) as [IH1 IH2].
      cbn [mneg log_softmax mzip map zip_with length]. split; [| now f_equal].
      constructor; [| exact IH1].
      assert (Hprod : row_sat (fun v => 0 <= v)%R
                        (zip_with smul (map sneg r) (log_softmax_row r'))).
      { pose proof (log_softmax_row_nonpos r' Hr') as Hlp.
        clear - Hr Hlp. revert Hlp. generalize (log_softmax_row r').
        induction Hr as [| x r (a & -> & Ha) Hr IH]; intros lp Hlp;
          [constructor |].
        destruct Hlp as [| y lp (b & -> & Hb) Hlp]; cbn [map zip_with];
          constructor; [| now apply IH].
        exists (- a * b)%R. split; [reflexivity | nra]. }
      exists (real_sum (zip_with smul (map sneg r) (log_softmax_row r'))).
      split; [apply vsum_real_sum; now apply row_sat_finite in Hprod |].
      now apply real_sum_nonneg. }
  destruct Hrows as [Hsat Hl]. unfold vmean. rewrite Hl.
  rewrite vsum_real_sum by (now apply row_sat_finite in Hsat).
  assert (Hn : (0 < INR (length q))%R)
    by (apply lt_0_INR; destruct q; [contradiction | cbn; lia]).
  unfold of_nat. rewrite sdiv_fin by lra.
  eexists. split; [reflexivity |].
  apply Rmult_le_pos; [now apply real_sum_nonneg |].
  left. now apply Rinv_0_lt_compat.
Qed.

(** X10.  On an embedding batch of at least one sample per view with finite
    embeddings of the width of the center, a finite one-row center and
    finite temperatures other than zero, the call returns and the loss is
    not negative: it is not [-inf], and when it is a number it is not below
    zero. *)
Theorem forward_loss_nonneg (self : DINOLoss)
    (student_output teacher_output : Tensor) (epoch : Z) (peers : list Tensor)
    (n b : nat) (st tp : R) (c : list scalar) :
  ncrops self = Z.of_nat n -> (2 <= n)%nat -> (1 <= b)%nat ->
  length (rows student_output) = (n * b)%nat ->
  length (rows teacher_output) = (2 * b)%nat ->
  widths_agree self [student_output; teacher_output] ->
  py_index (teacher_temp_schedule self) epoch = Ok (Fin tp) ->
  student_temp self = Fin st -> st <> 0%R -> tp <> 0%R ->
  rows (center self) = [c] -> finite_row c ->
  finite_matrix (rows student_output) -> finite_matrix (rows teacher_output) ->
  exists loss,
    forward self student_output teacher_output epoch peers
    = Ok (loss, update_center self teacher_output peers)
    /\ loss <> NInf
    /\ forall v, loss = Fin v -> (0 <= v)%R.
Proof.
  intros Hn Hn2 Hb HS HT _ Htemp Hst Hst0 Htp Hc Hcfin HSfin HTfin.
  destruct (forward_on_views self student_output teacher_output epoch peers
              n b (Fin tp) Hn Hn2 HS HT Htemp)
    as (so & to & _ & _ & _ & Hfwd).
  rewrite Hfwd.
  assert (Hterms : row_sat (fun v => 0 <= v)%R
            (map (pair_term self student_output teacher_output (Fin tp) b)
                 (view_pairs n))).
  { unfold row_sat. rewrite Forall_map, Forall_forall. intros [iq v] Hin.
    apply in_view_pairs in Hin. destruct Hin as (Hiq & Hv & _).
    unfold pair_term. cbn [fst snd].
    assert (Hlt : length (teacher_prob self teacher_output (Fin tp))
                  = (2 * b)%nat).
    { unfold teacher_prob, softmax, mdiv_scalar, msub_row.
      now rewrite !length_map. }
    assert (Hls : length (student_scaled self student_output) = (n * b)%nat).
    { unfold student_scaled, mdiv_scalar. now rewrite length_map. }
    apply pair_loss_nonneg.
    - apply Forall_narrow. unfold teacher_prob, softmax.
      rewrite Forall_map.
      assert (Hin : finite_matrix
                (mdiv_scalar (msub_row (rows teacher_output) (center_row self))
                             (Fin tp))).
      { apply finite_mdiv_scalar; [assumption |].
        apply finite_msub_row; [| assumption].
        unfold center_row. now rewrite Hc. }
      revert Hin. apply Forall_impl. intros r Hr.
      destruct r as [| x r]; [constructor |].
      now apply softmax_row_distribution.
    - apply Forall_narrow. unfold student_scaled. rewrite Hst.
      now apply finite_mdiv_scalar.
    - unfold view. rewrite !length_narrow; [reflexivity | nia | nia].
    - intros Hnil. apply (f_equal (@length _)) in Hnil.
      unfold view in Hnil. rewrite length_narrow in Hnil; [cbn in Hnil; lia |].
      nia. }
  rewrite fold_sadd_real_sum by (now apply row_sat_finite in Hterms).
  unfold of_nat. rewrite sdiv_fin by (apply not_0_INR; lia).
  eexists. split; [reflexivity |]. split; [discriminate |].
  intros v Hv. inversion Hv; subst v.
  pose proof (real_sum_nonneg _ Hterms).
  apply Rmult_le_pos; [lra |].
  left. apply Rinv_0_lt_compat, lt_0_INR. lia.
Qed.

(** X10, on two views of one sample. *)
Lemma forward_loss_nonneg_witness :
  let self := small_loss default_center_momentum 2 in
  ((1 / 10)%R <> 0%R /\ (4 / 100)%R <> 0%R /\ (1 <= 1)%nat
   /\ widths_agree self [column [Fin 1; Fin 2]; column [Fin 3; Fin 5]])
  /\ exists loss,
       forward self (column [Fin 1; Fin 2]) (column [Fin 3; Fin 5]) 0 []
       = Ok (loss, update_center self (column [Fin 3; Fin 5]) [])
       /\ loss <> NInf
       /\ forall v, loss = Fin v -> (0 <= v)%R.
Proof.
  intros self.
  split; [repeat split; try lra; try lia; repeat constructor |].
  apply (forward_loss_nonneg self (column [Fin 1; Fin 2])
           (column [Fin 3; Fin 5]) 0 [] 2 1 (1 / 10) (4 / 100) [Fin 0]);
    try reflexivity; try lra; try lia; repeat constructor.
Defined.

(** ** The temperature table and the domain of the constructor *)

Lemma ramp_value_between (w t : R) (W e : nat) :
  (e < W)%nat -> between w t (ramp_value w t W e).
Proof.
  intros He. destruct (Nat.eq_dec W 1) as [-> | HW].
  - assert (e = 0)%nat by lia. subst e. rewrite ramp_value_first.
    unfold between, Rmin, Rmax. destruct (Rle_dec w t); lra.
  - unfold ramp_value.
    assert (Hd : (0 < INR (W - 1))%R) by (apply lt_0_INR; lia).
    set (c := (INR e / INR (W - 1))%R).
    assert (Hc : (0 <= c <= 1)%R).
    { unfold c. split.
      - apply Rmult_le_pos; [apply pos_INR | left; now apply Rinv_0_lt_compat].
      - apply Rmult_le_reg_r with (INR (W - 1)); [exact Hd |].
        unfold Rdiv. rewrite Rmult_assoc, Rinv_l by lra.
        rewrite Rmult_1_r, Rmult_1_l. apply le_INR. lia. }
    replace (w + INR e * ((t - w) / INR (W - 1)))%R with (w + c * (t - w))%R
      by (unfold c; field; lra).
    clearbody c. unfold between, Rmin, Rmax. destruct (Rle_dec w t); nra.
Qed.

(** X11.  The table the constructor builds holds only finite temperatures
    between [warmup_teacher_temp] and [teacher_temp]: with both of them
    positive every temperature [forward] can read, also through a negative
    epoch, is positive, so the sharpening never divides by zero. *)
Theorem teacher_temp_schedule_bounds
    (out_dim ncrops_arg W n : Z) (w t : R) (st cm : scalar) :
  (0 <= out_dim)%Z -> (0 <= W <= n)%Z ->
  exists self,
    DINOLoss_init out_dim ncrops_arg (Fin w) (Fin t) W n st cm = Ok self
    /\ row_sat (between w t) (teacher_temp_schedule self)
    /\ forall epoch, (- n <= epoch < n)%Z ->
         exists temp,
           py_index (teacher_temp_schedule self) epoch = Ok (Fin temp)
           /\ between w t temp
           /\ ((0 < w)%R -> (0 < t)%R -> (0 < temp)%R).
Proof.
  intros Hd [HW Hn].
  destruct (np_linspace_fin w t W HW) as (l & Hl & Hlen & Hnth).
  unfold DINOLoss_init, torch_zeros_row, np_ones.
  replace (out_dim <? 0)%Z with false by (symmetry; apply Z.ltb_ge; lia).
  replace (n - W <? 0)%Z with false by (symmetry; apply Z.ltb_ge; lia).
  cbn [bind]. rewrite Hl. cbn [bind].
  eexists. split; [reflexivity |]. cbn [teacher_temp_schedule].
  set (sched := l ++ _).
  assert (Hlen' : length sched = Z.to_nat n).
  { unfold sched. rewrite length_app, length_map, repeat_length, Hlen. lia. }
  assert (Hsat : row_sat (between w t) sched).
  { unfold sched, row_sat. apply Forall_app. split.
    - apply Forall_forall. intros x Hx.
      destruct (In_nth l x NaN Hx) as (i & Hi & Hx').
      exists (ramp_value w t (Z.to_nat W) i). split.
      + rewrite <- Hx'. apply Hnth. lia.
      + apply ramp_value_between. lia.
    - rewrite Forall_map. apply Forall_forall. intros x Hx.
      apply repeat_spec in Hx. subst x. exists (1 * t)%R.
      split; [reflexivity |].
      unfold between, Rmin, Rmax. destruct (Rle_dec w t); lra. }
  split; [exact Hsat |]. intros epoch He.
  assert (Hin : exists x, py_index sched epoch = Ok x /\ In x sched).
  { unfold py_index. rewrite Hlen'.
    set (j := (if (epoch <? 0)%Z then Z.of_nat (Z.to_nat n) + epoch
               else epoch)%Z).
    assert (Hj : (0 <= j < Z.of_nat (Z.to_nat n))%Z)
      by (unfold j; destruct (Z.ltb_spec epoch 0); lia).
    replace (0 <=? j)%Z with true by (symmetry; apply Z.leb_le; lia).
    replace (j <? Z.of_nat (Z.to_nat n))%Z with true
      by (symmetry; apply Z.ltb_lt; lia).
    cbn [andb].
    destruct (nth_error sched (Z.to_nat j)) as [x |] eqn:E.
    - exists x. split; [reflexivity |]. eapply nth_error_In, E.
    - apply nth_error_None in E. lia. }
  destruct Hin as (x & Hx & Hmem).
  unfold row_sat in Hsat. rewrite Forall_forall in Hsat.
  destruct (Hsat x Hmem) as (v & -> & Hv).
  exists v. split; [exact Hx |]. split; [exact Hv |].
  intros Hw Ht. unfold between, Rmin in Hv.
  destruct (Rle_dec w t); lra.
Qed.

(** X11, for a warmup of three epochs out of five, from 0.04 to 0.07. *)
Lemma teacher_temp_schedule_bounds_witness :
  ((0 <= 8)%Z /\ (0 <= 3 <= 5)%Z)
  /\ exists self,
       DINOLoss_init 8 10 (Fin (4 / 100)) (Fin (7 / 100)) 3 5
         default_student_temp default_center_momentum = Ok self
       /\ row_sat (between (4 / 100) (7 / 100)) (teacher_temp_schedule self)
       /\ forall epoch, (- 5 <= epoch < 5)%Z ->
            exists temp,
              py_index (teacher_temp_schedule self) epoch = Ok (Fin temp)
              /\ between (4 / 100) (7 / 100) temp
              /\ ((0 < 4 / 100)%R -> (0 < 7 / 100)%R -> (0 < temp)%R).
Proof.
  split; [lia |].
  apply (teacher_temp_schedule_bounds 8 10 3 5 (4 / 100) (7 / 100)); lia.
Defined.

(** X12.  The constructor returns exactly when the output dimension is not
    negative and [0 <= warmup_teacher_temp_epochs <= nepochs]: a negative
    [out_dim] is the [RuntimeError] of [torch.zeros], and a warmup that is
    negative or longer than the training is the [ValueError] of
    [np.linspace] or of [np.ones]. *)
Theorem DINOLoss_init_domain (out_dim ncrops_arg W n : Z)
    (w t st cm : scalar) :
  match DINOLoss_init out_dim ncrops_arg w t W n st cm with
  | Ok self =>
      (0 <= out_dim)%Z /\ (0 <= W <= n)%Z
      /\ length (teacher_temp_schedule self) = Z.to_nat n
      /\ rows (center self) = [repeat (Fin 0) (Z.to_nat out_dim)]
      /\ student_temp self = st /\ center_momentum self = cm
      /\ ncrops self = ncrops_arg
  | Raise RuntimeError => (out_dim < 0)%Z
  | Raise ValueError => (0 <= out_dim)%Z /\ (W < 0 \/ n < W)%Z
  | Raise _ => False
  end.
Proof.
  unfold DINOLoss_init, torch_zeros_row, np_ones, np_linspace.
  destruct (Z.ltb_spec out_dim 0) as [Hd | Hd]; cbn [bind]; [exact Hd |].
  destruct (Z.ltb_spec W 0) as [HW | HW]; cbn [bind]; [lia |].
  destruct (Z.ltb_spec (n - W) 0) as [Hn | Hn]; cbn [bind]; [lia |].
  cbn [teacher_temp_schedule center rows student_temp center_momentum ncrops].
  repeat split; try lia.
  rewrite length_app, length_map, repeat_length.
  assert (Hl : forall (y : list scalar) (stop : scalar) (k : nat),
             length y = k ->
             length (if Nat.ltb 1 k then removelast y ++ [stop] else y) = k).
  { intros y stop k Hy. destruct (Nat.ltb_spec 1 k); [| exact Hy].
    rewrite length_app. cbn [length].
    destruct y as [| a y] using rev_ind; [cbn in Hy; lia |].
    rewrite removelast_last. rewrite length_app in Hy. cbn in Hy. lia. }
  rewrite Hl; [lia |].
  rewrite length_map.
  destruct (Nat.ltb 0 (Z.to_nat W - 1)); [destruct (is_zero _) |];
    now rewrite !length_map, length_seq.
Qed.

(** ** The domain of [forward] *)

Lemma py_index_cases {A} (l : list A) (i : Z) :
  let n := Z.of_nat (length l) in
  if ((- n <=? i) && (i <? n))%Z
  then exists a, py_index l i = Ok a
  else py_index l i = Raise IndexError.
Proof.
  cbn zeta. unfold py_index.
  set (n := Z.of_nat (length l)).
  destruct (Z.leb_spec (- n) i) as [Hlo | Hlo];
    destruct (Z.ltb_spec i n) as [Hhi | Hhi]; cbn [andb];
    destruct (Z.ltb_spec i 0) as [Hneg | Hneg];
    try (destruct (Z.leb_spec 0 (n + i)); destruct (Z.ltb_spec (n + i) n);
         cbn [andb]; try lia);
    try (destruct (Z.leb_spec 0 i); destruct (Z.ltb_spec i n);
         cbn [andb]; try lia);
    try reflexivity.
  - destruct (nth_error l (Z.to_nat (n + i))) as [a |] eqn:E;
      [now exists a |].
    apply nth_error_None in E. lia.
  - destruct (nth_error l (Z.to_nat i)) as [a |] eqn:E; [now exists a |].
    apply nth_error_None in E. lia.
Qed.

(** The number of pieces of [chunk]: at least one, and a single one exactly
    when one chunk is asked for or the tensor has a single row. *)
Lemma chunk_pieces {A} (l : list A) (chunks : Z) :
  (0 < chunks)%Z ->
  exists pieces,
    chunk l chunks = Ok pieces
    /\ (1 <= length pieces)%nat
    /\ (length pieces = 1%nat <-> chunks = 1%Z \/ length l = 1%nat).
Proof.
  intros Hc. unfold chunk.
  replace (chunks <=? 0)%Z with false by (symmetry; apply Z.leb_gt; lia).
  set (c := Z.to_nat chunks). assert (Hc1 : (1 <= c)%nat) by (unfold c; lia).
  assert (Hcz : chunks = 1%Z <-> c = 1%nat) by (unfold c; lia).
  enough (exists pieces,
             (if Nat.eqb ((length l + c - 1) / c) 0 && Nat.eqb (length l) 0
              then Ok (repeat [] c)
              else Ok (split l ((length l + c - 1) / c))) = Ok pieces
             /\ (1 <= length pieces)%nat
             /\ (length pieces = 1%nat <-> c = 1%nat \/ length l = 1%nat))
    as (pieces & H1 & H2 & H3)
    by (exists pieces; split; [exact H1 | split; [exact H2 | tauto]]).
  clearbody c. clear Hcz Hc chunks.
  set (n := length l).
  destruct (Nat.eq_dec n 0) as [Hn | Hn].
  - rewrite Hn. replace ((0 + c - 1) / c)%nat with 0%nat
      by (symmetry; apply Nat.div_small; lia).
    cbn [Nat.eqb andb]. eexists. split; [reflexivity |].
    rewrite repeat_length. lia.
  - set (s := ((n + c - 1) / c)%nat).
    assert (Hs1 : (1 <= s)%nat)
      by (unfold s; apply Nat.div_le_lower_bound; lia).
    replace (Nat.eqb s 0) with false by (symmetry; apply Nat.eqb_neq; lia).
    cbn [andb]. eexists. split; [reflexivity |].
    unfold split. fold n. rewrite length_map, length_seq.
    replace (Nat.eqb s 0) with false by (symmetry; apply Nat.eqb_neq; lia).
    split; [lia |].
    assert (Hk : ((n + s - 1) / s <= 1 <-> n <= s)%nat).
    { split; intros H.
      - destruct (Nat.le_gt_cases n s) as [Hle | Hgt]; [exact Hle |].
        assert (2 <= (n + s - 1) / s)%nat
          by (apply Nat.div_le_lower_bound; lia).
        lia.
      - assert ((n + s - 1) / s < 2)%nat
          by (apply Nat.Div0.div_lt_upper_bound; lia).
        lia. }
    assert (Hsn : (n <= s <-> c = 1 \/ n = 1)%nat).
    { unfold s. split; intros H.
      - destruct (Nat.eq_dec c 1) as [| Hc]; [now left |]. right.
        destruct (Nat.eq_dec n 1) as [| Hn1]; [assumption | exfalso].
        assert ((n + c - 1) / c < n)%nat; [| lia].
        apply Nat.Div0.div_lt_upper_bound. nia.
      - destruct H as [-> | ->].
        + rewrite Nat.div_1_r. lia.
        + apply Nat.div_le_lower_bound; lia. }
    lia.
Qed.

(** The count of the loop is zero exactly when no pair of different views
    exists. *)
Lemma inner_loop_count (q : matrix) (student_out : list matrix) (iq : nat)
    (vs : list nat) (acc : scalar * nat) :
  snd (fold_left
         (fun acc v =>
            if Nat.eqb v iq then acc
            else
              let loss := pair_loss q (nth v student_out []) in
              ((fst acc + loss)%S, S (snd acc)))
         vs acc)
  = (snd acc + length (filter (fun v => negb (Nat.eqb v iq)) vs))%nat.
Proof.
  revert acc. induction vs as [| v vs IH]; intros acc; cbn [fold_left filter].
  - cbn. lia.
  - rewrite IH. destruct (Nat.eqb v iq); cbn [negb snd length]; lia.
Qed.

Lemma other_views_none (iq k : nat) :
  length (filter (fun v => negb (Nat.eqb v iq)) (seq 0 k)) = 0%nat
  <-> (k = 0 \/ (k = 1 /\ iq = 0))%nat.
Proof.
  split.
  - intros H. apply length_zero_iff_nil in H.
    destruct k as [| [| k]]; [now left | |].
    + right. split; [reflexivity |]. cbn in H.
      destruct iq; [reflexivity | discriminate].
    + exfalso. cbn [seq filter] in H.
      destruct iq as [| [| iq]]; cbn in H; discriminate.
  - intros [-> | [-> ->]]; reflexivity.
Qed.

Lemma loss_loop_count_zero (teacher_out student_out : list matrix) :
  snd (loss_loop teacher_out student_out) = 0%nat
  <-> (length teacher_out = 0 \/ length student_out = 0
       \/ (length student_out = 1 /\ length teacher_out = 1))%nat.
Proof.
  unfold loss_loop, enumerate.
  set (k := length student_out).
  assert (H : forall (a : nat) (acc : scalar * nat),
             snd (fold_left
                    (fun acc iqq =>
                       let '(iq, q) := iqq in
                       fold_left
                         (fun acc v =>
                            if Nat.eqb v iq then acc
                            else
                              let loss := pair_loss q (nth v student_out []) in
                              ((fst acc + loss)%S, S (snd acc)))
                         (seq 0 k) acc)
                    (combine (seq a (length teacher_out)) teacher_out) acc)
             = 0%nat
             <-> snd acc = 0%nat
                 /\ forall iq, (a <= iq < a + length teacher_out)%nat ->
                      (k = 0 \/ (k = 1 /\ iq = 0))%nat).
  { induction teacher_out as [| q teacher_out IH]; intros a acc.
    - cbn. split; [intros H; split; [exact H | intros; lia] | tauto].
    - cbn [length seq combine fold_left]. rewrite IH, inner_loop_count.
      pose proof (other_views_none a k) as Hz. split.
      + intros [H0 Hall]. split; [lia |]. intros iq Hiq.
        destruct (Nat.eq_dec iq a) as [-> | Hne]; [apply Hz; lia |].
        apply Hall. lia.
      + intros [H0 Hall]. split.
        * assert (length (filter (fun v => negb (Nat.eqb v a)) (seq 0 k))
                  = 0%nat) by (apply Hz, Hall; lia).
          lia.
        * intros iq Hiq. apply Hall. lia. }
  rewrite H. cbn [snd]. split.
  - intros [_ Hall].
    destruct (length teacher_out) as [| [| t]]; [now left | |].
    + destruct (Hall 0%nat ltac:(lia)) as [-> | [-> _]]; tauto.
    + destruct (Hall 1%nat ltac:(lia)) as [-> | [_ ?]]; [tauto | lia].
  - intros [Ht | [Hk | [Hk Ht]]]; (split; [reflexivity |]); intros iq Hiq.
    + lia.
    + now left.
    + right. split; [exact Hk | lia].
Qed.

(** The outcomes of [forward] by the number of chunks, the epoch and the
    pairs of different views. *)
Lemma forward_cases (self : DINOLoss) (student_output teacher_output : Tensor)
    (epoch : Z) (peers : list Tensor) :
  let len := Z.of_nat (length (teacher_temp_schedule self)) in
  let unsplit :=
    length (rows teacher_output) = 1%nat
    /\ (ncrops self = 1%Z \/ length (rows student_output) = 1%nat) in
  match forward self student_output teacher_output epoch peers with
  | Ok (_, self') =>
      (0 < ncrops self)%Z /\ (- len <= epoch < len)%Z /\ ~ unsplit
      /\ self' = update_center self teacher_output peers
  | Raise RuntimeError => (ncrops self <= 0)%Z
  | Raise IndexError => (0 < ncrops self)%Z /\ ~ (- len <= epoch < len)%Z
  | Raise ZeroDivisionError =>
      (0 < ncrops self)%Z /\ (- len <= epoch < len)%Z /\ unsplit
  | Raise _ => False
  end.
Proof.
  cbn zeta. unfold forward.
  destruct (Z.leb_spec (ncrops self) 0) as [Hn | Hn].
  { unfold chunk at 1.
    replace (ncrops self <=? 0)%Z with true by (symmetry; apply Z.leb_le; lia).
    exact Hn. }
  destruct (chunk_pieces (mdiv_scalar (rows student_output) (student_temp self))
              (ncrops self) Hn) as (so & -> & Hso1 & Hso).
  cbn [bind]. pose proof (py_index_cases (teacher_temp_schedule self) epoch) as Hi.
  cbn zeta in Hi.
  destruct (Z.leb_spec (- Z.of_nat (length (teacher_temp_schedule self))) epoch)
    as [Hlo | Hlo];
    destruct (Z.ltb_spec epoch (Z.of_nat (length (teacher_temp_schedule self))))
      as [Hhi | Hhi]; cbn [andb] in Hi;
    try (rewrite Hi; cbn [bind]; split; [exact Hn | lia]).
  destruct Hi as [temp ->]. cbn [bind].
  destruct (chunk_pieces
              (softmax (mdiv_scalar (msub_row (rows teacher_output)
                                       (center_row self)) temp))
              2 ltac:(lia)) as (to & -> & Hto1 & Hto).
  cbn [bind].
  unfold softmax, mdiv_scalar, msub_row in Hto. rewrite !length_map in Hto.
  unfold mdiv_scalar in Hso. rewrite length_map in Hso.
  pose proof (loss_loop_count_zero to so) as Hz.
  destruct (loss_loop to so) as [total n_loss_terms]. cbn [snd] in Hz.
  destruct (Nat.eqb_spec n_loss_terms 0) as [H0 | H0].
  - split; [exact Hn |]. split; [lia |].
    apply Hz in H0. unfold matrix in *.
    destruct H0 as [H0 | [H0 | [Hs Ht]]]; lia.
  - split; [exact Hn |]. split; [lia |]. split; [| reflexivity].
    intros [Ht Hs]. apply H0, Hz. right. right. split.
    + now apply Hso.
    + apply Hto. now right.
Qed.

(** X13.  The failures of [forward] come in this order: a [ncrops] that is
    not positive is the [RuntimeError] of [chunk]; then an epoch outside
    [[-len, len)] of the temperature table is an [IndexError]; then, for a
    teacher batch of the width of the center with a single row and a
    student output that is not split (one chunk asked for, or a single
    row), no pair of different views exists and the division by the number
    of terms is a [ZeroDivisionError].  A call that returns has met none
    of the three and carries the updated center. *)
Theorem forward_domain (self : DINOLoss) (student_output teacher_output : Tensor)
    (epoch : Z) (peers : list Tensor) :
  let len := Z.of_nat (length (teacher_temp_schedule self)) in
  let unsplit :=
    length (rows teacher_output) = 1%nat
    /\ (ncrops self = 1%Z \/ length (rows student_output) = 1%nat) in
  let result := forward self student_output teacher_output epoch peers in
  ((ncrops self <= 0)%Z -> result = Raise RuntimeError)
  /\ ((0 < ncrops self)%Z -> ~ (- len <= epoch < len)%Z ->
      result = Raise IndexError)
  /\ ((0 < ncrops self)%Z -> (- len <= epoch < len)%Z ->
      widths_agree self [teacher_output] -> unsplit ->
      result = Raise ZeroDivisionError)
  /\ (forall loss self', result = Ok (loss, self') ->
        (0 < ncrops self)%Z /\ (- len <= epoch < len)%Z /\ ~ unsplit
        /\ self' = update_center self teacher_output peers).
Proof.
  cbn zeta.
  pose proof (forward_cases self student_output teacher_output epoch peers)
    as H.
  cbn zeta in H.
  destruct (forward self student_output teacher_output epoch peers)
    as [[loss self'] | e].
  - destruct H as (H1 & H2 & H3 & H4).
    split; [intros; lia |]. split; [intros; tauto |].
    split; [intros; tauto |].
    intros loss0 self0 Heq. inversion Heq; subst. tauto.
  - destruct e; try contradiction.
    + split; [intros; lia |]. split; [reflexivity |].
      split; [intros; tauto | discriminate].
    + split; [reflexivity |]. split; [intros; lia |].
      split; [intros; lia | discriminate].
    + split; [intros; lia |]. split; [intros; tauto |].
      split; [reflexivity | discriminate].
Qed.

(** X13, on the small engine: no chunk, an epoch past the table, and a
    single row. *)
Lemma forward_domain_witness :
  forward (small_loss default_center_momentum 0) (column [Fin 1; Fin 2])
    (column [Fin 3; Fin 5]) 0 []
  = Raise RuntimeError
  /\ forward (small_loss default_center_momentum 2) (column [Fin 1; Fin 2])
       (column [Fin 3; Fin 5]) 1 []
     = Raise IndexError
  /\ forward (small_loss default_center_momentum 2) (column [Fin 1])
       (column [Fin 3]) 0 []
     = Raise ZeroDivisionError.
Proof.
  split; [| split].
  - apply (proj1 (forward_domain (small_loss default_center_momentum 0)
                    (column [Fin 1; Fin 2]) (column [Fin 3; Fin 5]) 0 [])).
    cbn. lia.
  - apply (proj1 (proj2 (forward_domain (small_loss default_center_momentum 2)
                           (column [Fin 1; Fin 2]) (column [Fin 3; Fin 5])
                           1 []))); cbn; lia.
  - apply (proj1 (proj2 (proj2
             (forward_domain (small_loss default_center_momentum 2)
                (column [Fin 1]) (column [Fin 3]) 0 [])))).
    + cbn. lia.
    + cbn. lia.
    + repeat constructor.
    + cbn. split; [reflexivity | now right].
Defined.

(** ** The center across workers *)

Lemma sadd_comm (x y : scalar) : (x + y)%S = (y + x)%S.
Proof. destruct x, y; cbn; try reflexivity. f_equal. lra. Qed.

Lemma zip_sadd_comm (a b : list scalar) :
  zip_with sadd a b = zip_with sadd b a.
Proof.
  revert b. induction a as [| x a IH]; intros [| y b]; cbn [zip_with];
    try reflexivity.
  now rewrite sadd_comm, IH.
Qed.

Lemma all_reduce_shift (x y : list scalar) (l : list (list scalar)) :
  all_reduce (zip_with sadd x y) l = zip_with sadd x (all_reduce y l).
Proof.
  unfold all_reduce. revert y. induction l as [| z l IH]; intros y;
    cbn [fold_left]; [reflexivity |].
  now rewrite <- zip_sadd_assoc, IH.
Qed.

(** The all-reduced sum a worker obtains from its own contribution and
    those of the others is the sum over all workers in rank order. *)
Lemma all_reduce_any_rank (f : Tensor -> list scalar) (workers : list Tensor)
    (i : nat) (t : Tensor) :
  nth_error workers i = Some t ->
  all_reduce (f t) (map f (other_workers i workers))
  = all_reduce (f (hd t workers)) (map f (tl workers)).
Proof.
  revert workers. induction i as [| i IH]; intros [| a workers] Hi;
    try discriminate.
  - cbn in Hi. inversion Hi; subst. reflexivity.
  - cbn [nth_error] in Hi. specialize (IH workers Hi).
    unfold other_workers in *.
    change (skipn (S (S i)) (a :: workers)) with (skipn (S i) workers).
    cbn [firstn app map hd tl].
    change (all_reduce (f t)
              (f a :: map f (firstn i workers ++ skipn (S i) workers)))
      with (all_reduce (zip_with sadd (f t) (f a))
              (map f (firstn i workers ++ skipn (S i) workers))).
    rewrite zip_sadd_comm, all_reduce_shift, IH.
    destruct workers as [| b workers]; [destruct i; discriminate |].
    cbn [hd tl map].
    change (all_reduce (f a) (f b :: map f workers))
      with (all_reduce (zip_with sadd (f a) (f b)) (map f workers)).
    now rewrite all_reduce_shift.
Qed.

Lemma length_other_workers (i : nat) (workers : list Tensor) (t : Tensor) :
  nth_error workers i = Some t ->
  S (length (other_workers i workers)) = length workers.
Proof.
  intros Hi. assert (i < length workers)%nat
    by (apply nth_error_Some; congruence).
  unfold other_workers. rewrite length_app, length_firstn, length_skipn. lia.
Qed.

(** X14.  Workers that hold the same loss engine and local batches of the
    same number of rows, all of the width of the center, leave
    [update_center] with the same engine, each one all-reducing its own
    column sums with those of the others: the centers of the replicas stay
    in step without being broadcast. *)
Theorem update_center_same_on_all_workers (self : DINOLoss)
    (workers : list Tensor) (i j : nat) (ti tj : Tensor) :
  widths_agree self workers ->
  nth_error workers i = Some ti -> nth_error workers j = Some tj ->
  length (rows ti) = length (rows tj) ->
  update_center self ti (other_workers i workers)
  = update_center self tj (other_workers j workers).
Proof.
  intros _ Hi Hj Hlen. unfold update_center, get_world_size.
  rewrite (all_reduce_any_rank (fun p => sum_dim0 (ncols p) (rows p))
             workers i ti Hi).
  rewrite (all_reduce_any_rank (fun p => sum_dim0 (ncols p) (rows p))
             workers j tj Hj).
  rewrite (length_other_workers i workers ti Hi).
  rewrite (length_other_workers j workers tj Hj).
  rewrite Hlen.
  destruct workers as [| a workers]; [destruct i; discriminate |].
  reflexivity.
Qed.

(** X14, for three workers with one row each: ranks 0 and 2 agree. *)
Lemma update_center_same_on_all_workers_witness :
  let self := small_loss default_center_momentum 2 in
  let workers := [column [Fin 1]; column [Fin 2]; column [Fin 4]] in
  widths_agree self workers
  /\ update_center self (column [Fin 1]) [column [Fin 2]; column [Fin 4]]
     = update_center self (column [Fin 4]) [column [Fin 1]; column [Fin 2]].
Proof.
  intros self workers.
  assert (Hw : widths_agree self workers) by (repeat constructor).
  split; [exact Hw |].
  exact (update_center_same_on_all_workers self workers 0 2
           (column [Fin 1]) (column [Fin 4]) Hw eq_refl eq_refl eq_refl).
Defined.

(** ** AugMix *)

Section AugmixFacts.

Import Augmix.

Variables Image Rng : Type.
Variable dirichlet : list Z -> Rng -> list scalar * Rng.
Variable beta_1_1 : Rng -> scalar * Rng.
Variable randint_1_4 : Rng -> Z * Rng.
Variable choice : list aug_op -> Rng -> aug_op * Rng.
Variable apply_op : aug_op -> Image -> R -> Rng -> Image * Rng.
Variable preprocess : Image -> list scalar.
Variable ToPILImage : list scalar -> Image.

Let chain_of := chain Image Rng choice apply_op.
Let mix_chains_of :=
  mix_chains Image Rng randint_1_4 choice apply_op preprocess.
Let augment_and_mix_of :=
  augment_and_mix Image Rng dirichlet beta_1_1 randint_1_4 choice apply_op
    preprocess ToPILImage.

(** X16.  A chain of [rounds] rounds is that many times one operator of the
    first eight of the list followed by one operator of the rest, each at
    the severity of the profile and none from outside the list: whatever
    the operators do, a property that every first operator takes from
    [Before n] to [Between n] and every second operator from [Between n]
    to [Before (n + 1)] goes from [Before 0] on the image to
    [Before rounds] on the result.  Without [all_ops] the second operator
    is always [translate_y], and [color], [contrast], [brightness] and
    [sharpness] are not in the list. *)
Theorem chain_alternates_listed_ops (p : profile)
    (Before Between : nat -> Image -> Prop) (rounds : list nat)
    (image : Image) (rng : Rng) :
  let aug_list := if all_ops p then augmentations_all else augmentations in
  (forall l rng', l <> [] -> In (fst (choice l rng')) l) ->
  (forall op n img rng', In op (firstn 8 aug_list) -> Before n img ->
     Between n (fst (apply_op op img (aug_severity p) rng'))) ->
  (forall op n img rng', In op (skipn 8 aug_list) -> Between n img ->
     Before (S n) (fst (apply_op op img (aug_severity p) rng'))) ->
  Before 0%nat image ->
  Before (length rounds)
    (fst (chain_of (aug_severity p) (firstn 8 aug_list) (skipn 8 aug_list)
            rounds image rng))
  /\ (all_ops p = false ->
      skipn 8 aug_list = [translate_y]
      /\ forall op, In op [color; contrast; brightness; sharpness] ->
           ~ In op aug_list).
Proof.
  intros aug_list Hchoice H1 H2 H0. split.
  - assert (Hne1 : firstn 8 aug_list <> [])
      by (unfold aug_list; destruct (all_ops p); discriminate).
    assert (Hne2 : skipn 8 aug_list <> [])
      by (unfold aug_list; destruct (all_ops p); discriminate).
    assert (Hgen : forall k,
               Before k image ->
               Before (k + length rounds)
                 (fst (chain_of (aug_severity p) (firstn 8 aug_list)
                         (skipn 8 aug_list) rounds image rng)));
      [| exact (Hgen 0%nat H0)].
    clear H0. revert image rng.
    induction rounds as [| r rounds IH]; intros image rng k Hk.
    + cbn. now rewrite Nat.add_0_r.
    + subst chain_of. cbn [chain length].
      pose proof (Hchoice (firstn 8 aug_list) rng Hne1) as Hop1.
      destruct (choice (firstn 8 aug_list) rng) as [op1 rng1].
      pose proof (H1 op1 k image rng1 Hop1 Hk) as Hmid.
      destruct (apply_op op1 image (aug_severity p) rng1) as [img1 rng2].
      pose proof (Hchoice (skipn 8 aug_list) rng2 Hne2) as Hop2.
      destruct (choice (skipn 8 aug_list) rng2) as [op2 rng3].
      pose proof (H2 op2 k img1 rng3 Hop2 Hmid) as Hafter.
      destruct (apply_op op2 img1 (aug_severity p) rng3) as [img2 rng4].
      replace (k + S (length rounds))%nat with (S k + length rounds)%nat
        by lia.
      now apply IH.
  - intros Hops. unfold aug_list. rewrite Hops. split; [reflexivity |].
    intros op Hop Hin. cbn in Hop, Hin.
    repeat (destruct Hop as [<- | Hop];
            [repeat (destruct Hin as [Hin | Hin]; [discriminate Hin |]);
             exact Hin |]).
    exact Hop.
Qed.

Lemma chain_keeps_size (sev : R) (l1 l2 : list aug_op) (rounds : list nat)
    (image : Image) (rng : Rng) :
  (forall op img s rng',
     length (preprocess (fst (apply_op op img s rng')))
     = length (preprocess img)) ->
  length (preprocess (fst (chain_of sev l1 l2 rounds image rng)))
  = length (preprocess image).
Proof.
  intros Hsize. revert image rng.
  induction rounds as [| r rounds IH]; intros image rng; [reflexivity |].
  subst chain_of. cbn [chain].
  destruct (choice l1 rng) as [op1 rng1].
  pose proof (Hsize op1 image sev rng1) as Hs1.
  destruct (apply_op op1 image sev rng1) as [img1 rng2].
  destruct (choice l2 rng2) as [op2 rng3].
  pose proof (Hsize op2 img1 sev rng3) as Hs2.
  destruct (apply_op op2 img1 sev rng3) as [img2 rng4].
  cbn [fst] in *. rewrite IH. congruence.
Qed.

Lemma skipn_cons_nth {A} (k : nat) (l : list A) (x : A) (rest : list A) :
  skipn k l = x :: rest -> nth_error l k = Some x /\ skipn (S k) l = rest.
Proof.
  revert l. induction k as [| k IH]; intros [| a l] H; try discriminate.
  - cbn in H. inversion H; subst. split; reflexivity.
  - cbn [skipn] in H. destruct (IH l H) as [H1 H2]. split; assumption.
Qed.

Lemma py_index_nth_error {A} (l : list A) (k : nat) (a : A) :
  nth_error l k = Some a -> py_index l (Z.of_nat k) = Ok a.
Proof.
  intros H. assert (Hk : (k < length l)%nat)
    by (apply nth_error_Some; congruence).
  unfold py_index.
  replace (Z.of_nat k <? 0)%Z with false by (symmetry; apply Z.ltb_ge; lia).
  replace (0 <=? Z.of_nat k)%Z with true by (symmetry; apply Z.leb_le; lia).
  replace (Z.of_nat k <? Z.of_nat (length l))%Z with true
    by (symmetry; apply Z.ltb_lt; lia).
  cbn [andb]. now rewrite Nat2Z.id, H.
Qed.

Lemma row_sat_add_weighted (lo hi W w : R) (mix pre : list scalar) :
  (0 <= w)%R -> length mix = length pre ->
  row_sat (fun v => W * lo <= v <= W * hi)%R mix ->
  row_sat (fun v => lo <= v <= hi)%R pre ->
  row_sat (fun v => (W + w) * lo <= v <= (W + w) * hi)%R
    (zip_with sadd mix (map (fun x => Fin w * x)%S pre)).
Proof.
  intros Hw Hlen Hmix. revert pre Hlen.
  induction Hmix as [| x mix (a & -> & Ha) Hmix IH]; intros pre Hlen Hpre;
    [constructor |].
  destruct Hpre as [| y pre (b & -> & Hb) Hpre]; [discriminate |].
  cbn [map zip_with]. constructor.
  - exists (a + w * b)%R. split; [reflexivity | nra].
  - apply IH; [cbn in Hlen; lia | assumption].
Qed.

Lemma mix_chains_range (p : profile) (l1 l2 : list aug_op) (image : Image)
    (ws : list scalar) (lo hi : R) :
  (forall img, row_sat (fun v => lo <= v <= hi)%R (preprocess img)) ->
  (forall op img s rng',
     length (preprocess (fst (apply_op op img s rng')))
     = length (preprocess img)) ->
  forall (rest : list scalar) (k : nat) (mix : list scalar) (rng : Rng)
         (W : R),
    skipn k ws = rest -> row_sat (fun v => 0 <= v)%R rest ->
    length mix = length (preprocess image) ->
    row_sat (fun v => W * lo <= v <= W * hi)%R mix ->
    exists mix' rng',
      mix_chains_of p l1 l2 image ws (seq k (length rest)) mix rng
      = Ok (mix', rng')
      /\ length mix' = length (preprocess image)
      /\ row_sat (fun v => (W + real_sum rest) * lo <= v
                           <= (W + real_sum rest) * hi)%R mix'.
Proof.
  intros Hpre Hsize rest.
  induction rest as [| x rest IH]; intros k mix rng W Hskip Hrest Hlen Hmix.
  - exists mix, rng. split; [reflexivity |]. split; [assumption |].
    cbn [real_sum]. now rewrite Rplus_0_r.
  - inversion Hrest as [| ? ? (w & -> & Hw) Hrest']; subst.
    destruct (skipn_cons_nth k ws (Fin w) rest Hskip) as [Hnth Hskip'].
    subst mix_chains_of. cbn [length seq mix_chains].
    destruct (chain_depth Rng randint_1_4 p rng) as [depth rng1].
    pose proof (chain_keeps_size (aug_severity p) l1 l2 (py_range depth)
                  image rng1 Hsize) as Hcs.
    subst chain_of.
    destruct (chain Image Rng choice apply_op (aug_severity p) l1 l2
                (py_range depth) image rng1) as [image_aug rng2].
    cbn [fst] in Hcs.
    rewrite (py_index_nth_error ws k (Fin w) Hnth). cbn [bind].
    destruct (IH (S k)
                (zip_with sadd mix
                   (map (fun x => (Fin w * x)%S) (preprocess image_aug)))
                rng2 (W + w)%R Hskip' Hrest') as (mix' & rng' & Hrun & Hl & Hs).
    + rewrite length_zip_with by (rewrite length_map; congruence).
      exact Hlen.
    + apply row_sat_add_weighted;
        [exact Hw | congruence | exact Hmix | apply Hpre].
    + exists mix', rng'. split; [exact Hrun |]. split; [exact Hl |].
      cbn [real_sum].
      replace (W + (w + real_sum rest))%R with (W + w + real_sum rest)%R
        by lra.
      exact Hs.
Qed.

(** X17.  The mixture is convex.  When the Dirichlet draw gives one weight
    per chain, none negative and adding up to 1, the Beta draw lies in
    [[0, 1]], [preprocess] maps every image into [[lo, hi]] and the
    operators keep the number of pixel values, the call returns, and the
    tensor it hands to [ToPILImage] has the size of the preprocessed input
    with every value in [[lo, hi]]. *)
Theorem augment_and_mix_convex (p : profile) (image : Image) (rng rng1 rng2 : Rng)
    (ws : list scalar) (m lo hi : R) :
  dirichlet (repeat 1%Z (Z.to_nat (mixture_width p))) rng = (ws, rng1) ->
  length ws = Z.to_nat (mixture_width p) ->
  row_sat (fun v => 0 <= v)%R ws -> real_sum ws = 1%R ->
  beta_1_1 rng1 = (Fin m, rng2) -> (0 <= m <= 1)%R ->
  (forall img, row_sat (fun v => lo <= v <= hi)%R (preprocess img)) ->
  (forall op img s rng',
     length (preprocess (fst (apply_op op img s rng')))
     = length (preprocess img)) ->
  exists mixed rng',
    augment_and_mix_of p image rng = Ok (ToPILImage mixed, rng')
    /\ length mixed = length (preprocess image)
    /\ row_sat (fun v => lo <= v <= hi)%R mixed.
Proof.
  intros Hd Hlen Hws Hsum Hb Hm Hpre Hsize.
  subst augment_and_mix_of. unfold augment_and_mix. rewrite Hd, Hb.
  set (l1 := firstn 8 _). set (l2 := skipn 8 _).
  destruct (mix_chains_range p l1 l2 image ws lo hi Hpre Hsize ws 0%nat
              (map (fun _ => Fin 0) (preprocess image)) rng2 0%R eq_refl Hws)
    as (mix & rng' & Hrun & Hl & Hs).
  { now rewrite length_map. }
  { clear. induction (preprocess image) as [| x l IH]; cbn [map];
      constructor; [| exact IH].
    exists 0%R. split; [reflexivity | lra]. }
  subst mix_chains_of. unfold py_range. rewrite <- Hlen, Hrun. cbn [bind].
  eexists. eexists. split; [reflexivity |].
  rewrite Hsum, Rplus_0_l in Hs.
  assert (Hs' : row_sat (fun v => lo <= v <= hi)%R mix).
  { revert Hs. apply Forall_impl. intros x (v & -> & Hv).
    exists v. split; [reflexivity | lra]. }
  split.
  - rewrite length_zip_with by (rewrite !length_map; congruence).
    now rewrite length_map.
  - clear - Hm Hs' Hl Hpre. pose proof (Hpre image) as Hp.
    revert Hl Hs'. generalize mix. clear mix.
    induction Hp as [| x pre (a & -> & Ha) Hp IH]; intros mix Hl Hmix;
      [constructor |].
    destruct Hmix as [| y mix (b & -> & Hb) Hmix]; [discriminate |].
    cbn [map zip_with]. constructor.
    + exists ((1 + - m) * a + m * b)%R. split; [reflexivity | nra].
    + apply IH; [cbn in Hl; lia | assumption].
Qed.

End AugmixFacts.

(** X16, for two rounds of the fallback profile of [aug] with operators
    that log their names: four operators are applied. *)
Lemma chain_alternates_listed_ops_witness :
  let aug_list := Augmix.augmentations_all in
  (forall l draws, l <> [] -> In (fst (first_choice l draws)) l)
  /\ length
       (fst (Augmix.chain (list Augmix.aug_op) nat first_choice log_op 2
               (firstn 8 aug_list) (skipn 8 aug_list) [0; 1]%nat [] 0%nat))
     = 4%nat.
Proof.
  intros aug_list.
  assert (Hchoice : forall l draws, l <> [] -> In (fst (first_choice l draws)) l).
  { intros [| op l] draws Hl; [contradiction | now left]. }
  split; [exact Hchoice |].
  refine (proj1 (chain_alternates_listed_ops (list Augmix.aug_op) nat
                   first_choice log_op Augmix.aug_fallback
                   (fun n img => length img = (2 * n)%nat)
                   (fun n img => length img = (2 * n + 1)%nat)
                   [0; 1]%nat [] 0%nat Hchoice _ _ eq_refl)).
  - intros op n img draws _ H. cbn [log_op fst].
    rewrite length_app, H. reflexivity.
  - intros op n img draws _ H. cbn [log_op fst].
    rewrite length_app, H. cbn [length]. lia.
Defined.

Lemma bit_pixels_range (image : list bool) :
  row_sat (fun v => 0 <= v <= 1)%R (bit_pixels image).
Proof.
  induction image as [| b image IH]; cbn [bit_pixels map]; constructor;
    [| exact IH].
  destruct b; eexists; (split; [reflexivity | lra]).
Qed.

(** X17, for the fallback profile of [aug] on a black and a white pixel. *)
Lemma augment_and_mix_convex_witness :
  (real_sum [Fin 1] = 1%R /\ (0 <= 1 / 2 <= 1)%R)
  /\ exists mixed draws,
       Augmix.augment_and_mix (list bool) nat sole_weight half_beta
         one_randint first_choice invert_op bit_pixels threshold_image
         Augmix.aug_fallback [false; true] 0%nat
       = Ok (threshold_image mixed, draws)
       /\ length mixed = 2%nat
       /\ row_sat (fun v => 0 <= v <= 1)%R mixed.
Proof.
  split; [split; [cbn; lra | lra] |].
  apply (augment_and_mix_convex (list bool) nat sole_weight half_beta
           one_randint first_choice invert_op bit_pixels threshold_image
           Augmix.aug_fallback [false; true] 0%nat 1%nat 2%nat
           [Fin 1] (1 / 2) 0 1).
  - reflexivity.
  - reflexivity.
  - constructor; [| constructor]. exists 1%R. split; [reflexivity | lra].
  - cbn. lra.
  - reflexivity.
  - lra.
  - exact bit_pixels_range.
  - intros op img s draws. unfold invert_op, bit_pixels. cbn [fst].
    now rewrite !length_map.
Defined.

(** *** The magnitudes of the operators *)

Lemma py_int_nonneg (x : R) :
  (0 <= x)%R ->
  (0 <= Augmix.py_int x)%Z /\ (IZR (Augmix.py_int x) <= x)%R.
Proof.
  intros Hx. unfold Augmix.py_int.
  destruct (Rle_dec 0 x) as [_ | Hn]; [| contradiction].
  destruct (base_Int_part x) as [Hle Hgt]. split; [| exact Hle].
  assert (H : (-1 < Int_part x)%Z) by (apply lt_IZR; lra). lia.
Qed.

Lemma py_int_le (x : R) (k : Z) :
  (0 <= x <= IZR k)%R -> (0 <= Augmix.py_int x <= k)%Z.
Proof.
  intros [H0 Hk]. destruct (py_int_nonneg x H0) as [Hz Hle].
  split; [exact Hz |]. apply le_IZR. lra.
Qed.

(** X18.  For a level drawn by [sample_level] at a severity of at most 10,
    that is [0.1 <= u <= severity <= 10], the magnitudes stay in the ranges
    of the imaging calls: [posterize] keeps between 0 and 4 bits,
    [rotate] turns by at most [3 * severity <= 30] degrees either way,
    the [solarize] threshold is in [[0, 256]], a shear is at most
    [0.03 * severity] either way, a translation is at most a third of the
    image side either way, and the enhancement factor of [color],
    [contrast], [brightness] and [sharpness] is in
    [(0.1, 0.1 + 0.18 * severity]], below 1 up to severity 4. *)
Theorem op_magnitude_bounds (op : Augmix.aug_op) (IMAGE_SIZE : Z)
    (u severity : R) (flip : bool) :
  (1 / 10 <= u <= severity)%R -> (severity <= 10)%R -> (0 <= IMAGE_SIZE)%Z ->
  match op, Augmix.op_magnitude op IMAGE_SIZE u flip with
  | (Augmix.autocontrast | Augmix.equalize), Augmix.NoParam => True
  | Augmix.posterize, Augmix.IntParam bits => (0 <= bits <= 4)%Z
  | Augmix.rotate, Augmix.IntParam degrees =>
      (Z.abs degrees <= 30)%Z /\ (IZR (Z.abs degrees) <= 3 * severity)%R
  | Augmix.solarize, Augmix.IntParam threshold => (0 <= threshold <= 256)%Z
  | (Augmix.shear_x | Augmix.shear_y), Augmix.FloatParam level =>
      (Rabs level <= 3 / 100 * severity)%R
  | (Augmix.translate_x | Augmix.translate_y), Augmix.IntParam pixels =>
      (3 * Z.abs pixels <= IMAGE_SIZE)%Z
  | (Augmix.color | Augmix.contrast | Augmix.brightness | Augmix.sharpness),
    Augmix.FloatParam factor =>
      (1 / 10 < factor <= 1 / 10 + 18 / 100 * severity)%R
      /\ ((severity <= 4)%R -> (factor < 1)%R)
  | _, _ => False
  end.
Proof.
  intros [Hu Hs] Hs10 Hsize.
  assert (Hp : forall maxval : R, (0 <= maxval)%R ->
             (0 <= u * maxval / 10 <= maxval)%R
             /\ (u * maxval / 10 <= severity * maxval / 10)%R)
    by (intros maxval Hm; nra).
  assert (Hint : forall (maxval : Z), (0 <= maxval)%Z ->
             (0 <= Augmix.int_parameter u (IZR maxval) <= maxval)%Z
             /\ (IZR (Augmix.int_parameter u (IZR maxval))
                 <= severity * IZR maxval / 10)%R).
  { intros maxval Hm. apply IZR_le in Hm.
    destruct (Hp (IZR maxval) Hm) as [Hr Hr'].
    unfold Augmix.int_parameter. split; [now apply py_int_le |].
    destruct (py_int_nonneg (u * IZR maxval / 10)) as [_ Hle]; lra. }
  assert (Habs : forall z, Z.abs (if flip then (- z)%Z else z) = Z.abs z)
    by (intros z; destruct flip; lia).
  destruct op; cbn [Augmix.op_magnitude]; try exact I.
  - (* posterize *)
    destruct (Hint 4%Z ltac:(lia)) as [H _]. lia.
  - (* rotate *)
    destruct (Hint 30%Z ltac:(lia)) as [H H'].
    rewrite Habs, Z.abs_eq by lia. split; [lia | lra].
  - (* solarize *)
    destruct (Hint 256%Z ltac:(lia)) as [H _]. lia.
  - (* shear_x *)
    unfold Augmix.float_parameter.
    destruct flip; [rewrite Rabs_Ropp |]; rewrite Rabs_pos_eq; nra.
  - (* shear_y *)
    unfold Augmix.float_parameter.
    destruct flip; [rewrite Rabs_Ropp |]; rewrite Rabs_pos_eq; nra.
  - (* translate_x *)
    rewrite Habs. apply IZR_le in Hsize.
    destruct (Hp (IZR IMAGE_SIZE / 3)%R ltac:(lra)) as [Hr _].
    unfold Augmix.int_parameter.
    destruct (py_int_nonneg (u * (IZR IMAGE_SIZE / 3) / 10) ltac:(lra))
      as [Hz Hle].
    rewrite Z.abs_eq by exact Hz. apply le_IZR. rewrite mult_IZR. lra.
  - (* translate_y *)
    rewrite Habs. apply IZR_le in Hsize.
    destruct (Hp (IZR IMAGE_SIZE / 3)%R ltac:(lra)) as [Hr _].
    unfold Augmix.int_parameter.
    destruct (py_int_nonneg (u * (IZR IMAGE_SIZE / 3) / 10) ltac:(lra))
      as [Hz Hle].
    rewrite Z.abs_eq by exact Hz. apply le_IZR. rewrite mult_IZR. lra.
  - unfold Augmix.float_parameter. split; [split |]; [nra | nra | intros; nra].
  - unfold Augmix.float_parameter. split; [split |]; [nra | nra | intros; nra].
  - unfold Augmix.float_parameter. split; [split |]; [nra | nra | intros; nra].
  - unfold Augmix.float_parameter. split; [split |]; [nra | nra | intros; nra].
Qed.

(** X18, for [posterize] at the severity 3 of the fallback of [aug1]. *)
Lemma op_magnitude_bounds_witness :
  ((1 / 10 <= 2 <= 3)%R /\ (3 <= 10)%R /\ (0 <= 224)%Z)
  /\ match Augmix.op_magnitude Augmix.posterize 224 2 false with
     | Augmix.IntParam bits => (0 <= bits <= 4)%Z
     | _ => False
     end.
Proof.
  split; [split; [lra | split; [lra | lia]] |].
  apply (op_magnitude_bounds Augmix.posterize 224 2 3 false); [lra | lra | lia].
Defined.

(** ** The views and the loss engine, the architecture *)

Section ViewFacts.

Variables Image Rng : Type.
Variable apply_transform : transform -> Image -> Rng -> Image * Rng.

(** X19.  [train_dino] builds the loss engine for
    [local_crops_number + 2] crops and the augmentation with the same
    [local_crops_number]: for a count that is not negative the number of
    views of every image is the [ncrops] the loss splits the student
    output in.  A negative count still gives the two global views, and an
    engine with fewer than two crops. *)
Theorem views_match_ncrops (args_augmix : bool)
    (global_crops_scale local_crops_scale : scalar * scalar)
    (out_dim K W epochs : Z) (w t : scalar) (image : Image) (rng : Rng) :
  (0 <= out_dim)%Z -> (0 <= W <= epochs)%Z ->
  let augmentation :=
    DataAugmentationDINO_init args_augmix global_crops_scale
      local_crops_scale K in
  let views :=
    fst (DataAugmentationDINO_call Image Rng apply_transform augmentation
           image rng) in
  exists dino_loss,
    train_dino_loss out_dim K w t W epochs = Ok dino_loss
    /\ ((0 <= K)%Z -> Z.of_nat (length views) = ncrops dino_loss)
    /\ ((K < 0)%Z -> length views = 2%nat /\ (ncrops dino_loss < 2)%Z).
Proof.
  intros Hd [HW Hn] augmentation views.
  unfold train_dino_loss, DINOLoss_init, torch_zeros_row, np_linspace, np_ones.
  replace (out_dim <? 0)%Z with false by (symmetry; apply Z.ltb_ge; lia).
  replace (W <? 0)%Z with false by (symmetry; apply Z.ltb_ge; lia).
  replace (epochs - W <? 0)%Z with false by (symmetry; apply Z.ltb_ge; lia).
  cbn [bind]. eexists. split; [reflexivity |]. cbn [ncrops].
  assert (Hlen : length views = (2 + Z.to_nat K)%nat).
  { subst views. unfold DataAugmentationDINO_call.
    destruct (Compose Image Rng apply_transform
                (global_transfo1 augmentation) image rng) as [c1 rng1].
    destruct (Compose Image Rng apply_transform
                (global_transfo2 augmentation) image rng1) as [c2 rng2].
    rewrite (local_crops_loop Image Rng apply_transform).
    cbn [fst]. rewrite !length_app, length_map, length_seq.
    unfold py_range. rewrite length_seq. reflexivity. }
  split; intros HK; rewrite Hlen; lia.
Qed.

End ViewFacts.

(** X19, for eight local crops on images reduced to their side length. *)
Lemma views_match_ncrops_witness :
  ((0 <= 16)%Z /\ (0 <= 0 <= 5)%Z)
  /\ exists dino_loss,
       train_dino_loss 16 8 (Fin (4 / 100)) (Fin (4 / 100)) 0 5 = Ok dino_loss
       /\ ((0 <= 8)%Z ->
           Z.of_nat
             (length
                (fst (DataAugmentationDINO_call nat nat side_transform
                        (DataAugmentationDINO_init false
                           (Fin (4 / 10), Fin 1) (Fin (5 / 100), Fin (4 / 10))
                           8)
                        500%nat 0%nat)))
           = ncrops dino_loss)
       /\ ((8 < 0)%Z ->
           length
             (fst (DataAugmentationDINO_call nat nat side_transform
                     (DataAugmentationDINO_init false
                        (Fin (4 / 10), Fin 1) (Fin (5 / 100), Fin (4 / 10))
                        8)
                     500%nat 0%nat))
           = 2%nat
           /\ (ncrops dino_loss < 2)%Z).
Proof.
  split; [lia |].
  apply (views_match_ncrops nat nat side_transform false
           (Fin (4 / 10), Fin 1) (Fin (5 / 100), Fin (4 / 10))
           16 8 0 5 (Fin (4 / 100)) (Fin (4 / 100)) 500%nat 0%nat); lia.
Defined.

Section ArchitectureOutcome.

Variables vits_names hub_xcit_names torchvision_names : list string.
Variable build_raises : model -> option exn.
Variable embed_dim_of : model -> option Z.

(** X20.  The selection raises only for a name that, after the DeiT
    renaming, one of the three sources knows, and then what the first of
    three steps that fails raises: building the student and building the
    teacher, by the first source that knows the name, in the order ViT,
    XCiT hub, torchvision, and reading [embed_dim] from the student, which
    raises [AttributeError] when the student lacks the attribute (a
    torchvision model without [fc]).  When it returns for such a name, the
    three steps succeeded, nothing is printed and the wrapping returns the
    student and the teacher built under the renamed name, the student with
    [drop_path_rate] and the teacher without, and [embed_dim] is the one
    read from the student.  For a name no source knows the selection
    returns and the wrapping raises on the unbound [student]. *)
Theorem select_arch_outcome (arch : string) (patch_size : Z)
    (drop_path_rate : scalar) :
  let arch' := str_replace arch "deit" "vit" in
  let built :=
    if str_in arch' vits_names
    then Some (VitsModel arch' patch_size (Some drop_path_rate),
               VitsModel arch' patch_size None)
    else if str_in arch' hub_xcit_names
    then Some (HubXcitModel arch' (Some drop_path_rate),
               HubXcitModel arch' None)
    else if str_in arch' torchvision_names
    then Some (TorchvisionModel arch', TorchvisionModel arch')
    else None in
  match select_arch vits_names hub_xcit_names torchvision_names build_raises
          embed_dim_of arch patch_size drop_path_rate with
  | Raise e =>
      exists student teacher,
        built = Some (student, teacher)
        /\ (build_raises student = Some e
            \/ (build_raises student = None
                /\ build_raises teacher = Some e)
            \/ (build_raises student = None
                /\ build_raises teacher = None
                /\ embed_dim_of student = None
                /\ e = AttributeError))
  | Ok locals =>
      args_arch locals = arch'
      /\ match built with
         | Some (student, teacher) =>
             build_raises student = None
             /\ build_raises teacher = None
             /\ printed locals = []
             /\ wrap_networks locals = Ok (student, teacher)
             /\ embed_dim_local locals = embed_dim_of student
             /\ embed_dim_of student <> None
         | None =>
             printed locals = [append "Unknow architecture: " arch']
             /\ wrap_networks locals = Raise (UnboundLocalError "student")
         end
  end.
Proof.
  cbn zeta. unfold select_arch, read_embed_dim, build.
  assert (Hsteps : forall student teacher : model,
    match
      (let* student' :=
         match build_raises student with
         | Some e => Raise e
         | None => Ok student
         end in
       let* teacher' :=
         match build_raises teacher with
         | Some e => Raise e
         | None => Ok teacher
         end in
       let* embed_dim :=
         match embed_dim_of student' with
         | Some embed_dim => Ok embed_dim
         | None => Raise AttributeError
         end in
       Ok (mkArchLocals (str_replace arch "deit" "vit") (Some student')
             (Some teacher') (Some embed_dim) []))
    with
    | Raise e =>
        exists student0 teacher0,
          Some (student, teacher) = Some (student0, teacher0)
          /\ (build_raises student0 = Some e
              \/ (build_raises student0 = None
                  /\ build_raises teacher0 = Some e)
              \/ (build_raises student0 = None
                  /\ build_raises teacher0 = None
                  /\ embed_dim_of student0 = None
                  /\ e = AttributeError))
    | Ok locals =>
        args_arch locals = str_replace arch "deit" "vit"
        /\ build_raises student = None
        /\ build_raises teacher = None
        /\ printed locals = []
        /\ wrap_networks locals = Ok (student, teacher)
        /\ embed_dim_local locals = embed_dim_of student
        /\ embed_dim_of student <> None
    end).
  { intros student teacher.
    destruct (build_raises student) as [e |] eqn:Es; cbn [bind].
    { exists student, teacher. split; [reflexivity | now left]. }
    destruct (build_raises teacher) as [e |] eqn:Et; cbn [bind].
    { exists student, teacher. split; [reflexivity |]. right. left.
      now split. }
    destruct (embed_dim_of student) as [d |] eqn:Ed; cbn [bind].
    - cbn. repeat split. discriminate.
    - exists student, teacher. split; [reflexivity |]. right. right.
      repeat split; assumption. }
  destruct (str_in _ vits_names) eqn:Hv; [apply Hsteps |].
  destruct (str_in _ hub_xcit_names) eqn:Hh; [apply Hsteps |].
  destruct (str_in _ torchvision_names) eqn:Ht; [apply Hsteps |].
  cbn. repeat split.
Qed.

End ArchitectureOutcome.

(** X20, for [deit_small], built as the ViT [vit_small], for [vgg16], a
    torchvision model without [fc], and for [ResNet], a torchvision name
    that is a class with required arguments. *)
Lemma select_arch_outcome_witness :
  let names := ["resnet18"; "vgg16"; "ResNet"]%string in
  (exists locals,
     select_arch some_vits_names some_hub_xcit_names names some_build_raises
       some_embed_dim "deit_small" 16 (Fin (1 / 10))
     = Ok locals
     /\ printed locals = []
     /\ wrap_networks locals
        = Ok (VitsModel "vit_small" 16 (Some (Fin (1 / 10))),
              VitsModel "vit_small" 16 None)
     /\ embed_dim_local locals = Some 384%Z)
  /\ select_arch some_vits_names some_hub_xcit_names names some_build_raises
       some_embed_dim "vgg16" 16 (Fin (1 / 10))
     = Raise AttributeError
  /\ select_arch some_vits_names some_hub_xcit_names names some_build_raises
       some_embed_dim "ResNet" 16 (Fin (1 / 10))
     = Raise TypeError.
Proof.
  intros names. split; [| split].
  - pose proof (select_arch_outcome some_vits_names some_hub_xcit_names
                  names some_build_raises some_embed_dim "deit_small" 16
                  (Fin (1 / 10))) as H.
    cbn zeta in H.
    destruct (select_arch _ _ _ _ _ "deit_small" _ _) as [locals | e] eqn:E;
      [| discriminate E].
    exists locals. split; [reflexivity |].
    change (str_replace "deit_small" "deit" "vit") with "vit_small"%string in H.
    cbn [str_in existsb String.eqb Ascii.eqb Bool.eqb orb some_vits_names] in H.
    destruct H as (_ & _ & _ & Hp & Hw & Hd & _).
    split; [exact Hp |]. split; [exact Hw | exact Hd].
  - pose proof (select_arch_outcome some_vits_names some_hub_xcit_names
                  names some_build_raises some_embed_dim "vgg16" 16
                  (Fin (1 / 10))) as H.
    cbn zeta in H.
    destruct (select_arch _ _ _ _ _ "vgg16" _ _) as [locals | e] eqn:E;
      [discriminate E |].
    destruct H as (student & teacher & Hb & [Hs | [[_ Ht] | (_ & _ & _ & He)]]).
    + inversion Hb; subst. discriminate Hs.
    + inversion Hb; subst. discriminate Ht.
    + now rewrite He.
  - pose proof (select_arch_outcome some_vits_names some_hub_xcit_names
                  names some_build_raises some_embed_dim "ResNet" 16
                  (Fin (1 / 10))) as H.
    cbn zeta in H.
    destruct (select_arch _ _ _ _ _ "ResNet" _ _) as [locals | e] eqn:E;
      [discriminate E |].
    destruct H as (student & teacher & Hb & [Hs | [[Hs _] | (Hs & _)]]).
    + inversion Hb; subst. cbn in Hs. now inversion Hs.
    + inversion Hb; subst. discriminate Hs.
    + inversion Hb; subst. discriminate Hs.
Defined.

(** ** A NaN in the student output *)

Lemma sadd_nan_r (x : scalar) : (x + NaN)%S = NaN.
Proof. now destruct x. Qed.

Lemma smul_nan_r (x : scalar) : (x * NaN)%S = NaN.
Proof. now destruct x. Qed.

Lemma fold_sadd_nan (l : list scalar) (a : scalar) :
  In NaN l -> fold_left sadd l a = NaN.
Proof.
  assert (Hacc : forall l', fold_left sadd l' NaN = NaN)
    by (intros l'; induction l' as [| x l' IH]; [reflexivity | exact IH]).
  revert a. induction l as [| x l IH]; intros a Hin; [contradiction |].
  cbn [fold_left]. destruct Hin as [Hx | Hin].
  - subst x. rewrite sadd_nan_r. apply Hacc.
  - now apply IH.
Qed.

(** The log-softmax of a row that holds a NaN is NaN everywhere. *)
Lemma log_softmax_row_nan (r : list scalar) :
  In NaN r -> Forall (fun x => x = NaN) (log_softmax_row r).
Proof.
  intros Hin. unfold log_softmax_row.
  assert (Hl : vsum (map sexp r) = NaN).
  { apply fold_sadd_nan. apply in_map_iff. now exists NaN. }
  rewrite Hl. cbn [slog]. apply Forall_map, Forall_forall. intros x _.
  unfold ssub. cbn [sneg]. apply sadd_nan_r.
Qed.

(** A NaN in a row of a student view makes every term with that view NaN. *)
Lemma pair_loss_nan (q s : matrix) :
  length q = length s -> Forall (fun r => r <> []) q ->
  (exists r, In r s /\ In NaN r) ->
  vmean (map vsum (mzip smul (mneg q) (log_softmax s))) = NaN.
Proof.
  intros Hlen Hq (r & Hr & Hnan).
  assert (Hin : In NaN (map vsum (mzip smul (mneg q) (log_softmax s)))).
  { revert s Hlen Hr. induction Hq as [| q0 q Hq0 Hq IH];
      intros [| s0 s] Hlen Hr; try contradiction; try discriminate.
    cbn [mneg log_softmax mzip map zip_with].
    destruct Hr as [-> | Hr].
    - left. pose proof (log_softmax_row_nan r Hnan) as Hall.
      destruct q0 as [| a q0]; [contradiction |].
      destruct r as [| x0 r0]; [contradiction |].
      unfold log_softmax_row in *. cbn [map] in Hall |- *.
      inversion Hall as [| ? ? Hx _]; subst.
      apply fold_sadd_nan. cbn [zip_with]. left.
      rewrite Hx. apply smul_nan_r.
    - right. apply IH; [cbn in Hlen; lia | exact Hr]. }
  assert (Hv : vsum (map vsum (mzip smul (mneg q) (log_softmax s))) = NaN)
    by (apply fold_sadd_nan, Hin).
  unfold vmean. rewrite Hv. reflexivity.
Qed.

Lemma forward_nan_student_output (self : DINOLoss)
    (student_output teacher_output : Tensor) (epoch : Z) (peers : list Tensor)
    (n b v : nat) (temp : scalar) (r : list scalar) :
  ncrops self = Z.of_nat n -> (2 <= n)%nat ->
  length (rows student_output) = (n * b)%nat ->
  length (rows teacher_output) = (2 * b)%nat ->
  py_index (teacher_temp_schedule self) epoch = Ok temp ->
  Forall (fun t => t <> []) (rows teacher_output) -> center_row self <> [] ->
  (v < n)%nat -> In r (view b v (rows student_output)) -> In NaN r ->
  forward self student_output teacher_output epoch peers
  = Ok (NaN, update_center self teacher_output peers).
Proof.
  intros Hn Hn2 HS HT Htemp Hrows Hc Hv Hr Hnan.
  destruct (forward_on_views self student_output teacher_output epoch peers
              n b temp Hn Hn2 HS HT Htemp)
    as (so & to & _ & _ & _ & Hfwd).
  rewrite Hfwd. f_equal. f_equal.
  set (iq := if Nat.eqb v 0 then 1%nat else 0%nat).
  assert (Hiq : (iq < 2 /\ iq <> v)%nat)
    by (unfold iq; destruct (Nat.eqb_spec v 0); lia).
  assert (Hterm : pair_term self student_output teacher_output temp b (iq, v)
                  = NaN).
  { unfold pair_term. cbn [fst snd]. apply pair_loss_nan.
    - unfold view. rewrite !length_narrow; [reflexivity | |].
      + unfold student_scaled, mdiv_scalar. rewrite length_map. nia.
      + unfold teacher_prob, softmax, mdiv_scalar, msub_row.
        rewrite !length_map. nia.
    - unfold view. apply Forall_narrow.
      unfold teacher_prob, softmax, mdiv_scalar, msub_row, softmax_row.
      rewrite !Forall_map. revert Hrows. apply Forall_impl.
      intros t Ht. destruct t as [| x t]; [contradiction |].
      destruct (center_row self) as [| y c]; [contradiction |]. discriminate.
    - exists (map (fun x => (x / student_temp self)%S) r). split.
      + unfold view, student_scaled, mdiv_scalar. rewrite narrow_map.
        now apply in_map.
      + apply in_map_iff. exists NaN. split; [reflexivity | exact Hnan]. }
  rewrite (fold_sadd_nan _ (Fin 0)); [reflexivity |].
  apply in_map_iff. exists (iq, v). split; [exact Hterm |].
  apply in_view_pairs. lia.
Qed.

Section NanFacts.

Variables Views Optimizer : Type.
Variable teacher_net : ParameterSet -> Views -> Tensor.
Variable student_net : ParameterSet -> Views -> Tensor.
Variable first_two : Views -> Views.
Variable optimizer_step :
  Optimizer -> list param_group -> ParameterSet -> Views -> Tensor ->
  DINOLoss -> Z -> Optimizer * ParameterSet.
Variable repr_finite : R -> string.

Let State := TrainState Optimizer.
Let step :=
  train_iteration Views Optimizer teacher_net student_net first_two
    optimizer_step repr_finite.

(** X21.  A NaN anywhere in the student output of an embedding batch of
    the width of the center reaches the loss: in every view pairing that holds the row the
    log-softmax of the row is NaN in every entry, so [forward] returns NaN,
    and the iteration prints ["Loss is nan, stopping training"] and exits
    with status 1: the parameter groups hold the learning rate and the
    weight decay of the step, written before the loss, and the optimizer
    step and the teacher update are not run. *)
Theorem nan_student_output_exits (sch : Schedules) (epoch len : Z)
    (st : State) (it : Z) (images : Views) (peers : list Tensor)
    (n b v : nat) (lr wd temp : scalar) (r : list scalar) :
  let student_output := student_net (student Optimizer st) images in
  let teacher_output := teacher_net (teacher Optimizer st) (first_two images) in
  let self := dino_loss Optimizer st in
  py_index (lr_schedule sch) (len * epoch + it) = Ok lr ->
  py_index (wd_schedule sch) (len * epoch + it) = Ok wd ->
  ncrops self = Z.of_nat n -> (2 <= n)%nat ->
  length (rows student_output) = (n * b)%nat ->
  length (rows teacher_output) = (2 * b)%nat ->
  py_index (teacher_temp_schedule self) epoch = Ok temp ->
  widths_agree self [student_output; teacher_output] ->
  (v < n)%nat -> In r (view b v (rows student_output)) -> In NaN r ->
  forward self student_output teacher_output epoch peers
  = Ok (NaN, update_center self teacher_output peers)
  /\ step sch epoch len st it images peers
     = SysExit 1
         (mkTrainState Optimizer (student Optimizer st) (teacher Optimizer st)
            (update_center self teacher_output peers) (optimizer Optimizer st)
            (scheduled_groups lr wd (param_groups Optimizer st))
            (stdout Optimizer st ++ ["Loss is nan, stopping training"%string])).
Proof.
  intros student_output teacher_output self Hlr Hwd Hn Hn2 HS HT Htemp Hw
    Hv Hr Hnan.
  assert (Hd : (0 < length (center_row self))%nat).
  { inversion Hw as [| ? ? [Hwf Hcols] _]; subst. rewrite <- Hcols.
    unfold wf_tensor in Hwf.
    apply (Forall_narrow _ _ (v * b) b) in Hwf. fold (view b v) in Hwf.
    rewrite Forall_forall in Hwf.
    rewrite <- (Hwf r Hr). destruct r; [contradiction | cbn; lia]. }
  assert (Hrows : Forall (fun t => t <> []) (rows teacher_output)).
  { inversion Hw as [| ? ? _ Hw']; subst.
    inversion Hw' as [| ? ? [Hwf Hcols] _]; subst.
    unfold wf_tensor in Hwf. revert Hwf. apply Forall_impl.
    intros t Ht Hnil. subst t. cbn in Ht. lia. }
  assert (Hc : center_row self <> [])
    by (intros Hnil; rewrite Hnil in Hd; cbn in Hd; lia).
  pose proof (forward_nan_student_output self student_output teacher_output
                epoch peers n b v temp r Hn Hn2 HS HT Htemp Hrows Hc Hv Hr
                Hnan) as Hfwd.
  split; [exact Hfwd |].
  exact (train_iteration_non_finite Views Optimizer teacher_net student_net
           first_two optimizer_step repr_finite sch epoch len st it images
           peers lr wd NaN _ Hlr Hwd Hfwd eq_refl).
Qed.

End NanFacts.

(** X21, on the small setup with a NaN in the second student view. *)
Lemma nan_student_output_exits_witness :
  let st := small_state (weight (Fin 2) true) (weight (Fin 1) false) in
  (In [NaN] (view 1 1 (rows (column [Fin 1; NaN]))) /\ In NaN [NaN])
  /\ forward (dino_loss unit st) (column [Fin 1; NaN]) (column [Fin 3; Fin 5])
       0 []
     = Ok (NaN, update_center (dino_loss unit st) (column [Fin 3; Fin 5]) [])
  /\ small_iteration (column [Fin 1; NaN]) (column [Fin 3; Fin 5])
       (Fin (9 / 10)) st 0
     = SysExit 1
         (mkTrainState unit (weight (Fin 2) true) (weight (Fin 1) false)
            (update_center (dino_loss unit st) (column [Fin 3; Fin 5]) [])
            tt [mkParamGroup (Fin 1) (Fin 1); mkParamGroup (Fin 1) (Fin 0)]
            ["Loss is nan, stopping training"%string]).
Proof.
  intros st. split; [split; now left |].
  apply (nan_student_output_exits unit unit
           (constant_net (column [Fin 3; Fin 5]))
           (constant_net (column [Fin 1; NaN])) (fun images => images)
           idle_optimizer_step (fun _ => "finite"%string)
           (small_schedules (Fin (9 / 10))) 0%Z 3%Z st 0%Z tt []
           2%nat 1%nat 1%nat (Fin 1) (Fin 1) (Fin (4 / 100)) [NaN]);
    try reflexivity; try lia; try (now left);
    try discriminate; repeat constructor; discriminate.
Defined.

(** ** Options of the command line *)

(** X22.  [--augmix] switches AugMix off for the empty string only: every
    other value on the command line, ["False"] and ["0"] included, and a
    command line without the option give the transform its three AugMix
    pipelines, [aug1] and [aug2] for the global crops and [aug] for the
    local ones, each between a random resized crop and the normalization. *)
Theorem augmix_only_off_for_empty_string (value : option string)
    (global_crops_scale local_crops_scale : scalar * scalar) (K : Z) :
  let self :=
    DataAugmentationDINO_init (parse_augmix value) global_crops_scale
      local_crops_scale K in
  (parse_augmix value = false <-> value = Some ""%string)
  /\ parse_augmix (Some "False"%string) = true
  /\ parse_augmix (Some "0"%string) = true
  /\ (value <> Some ""%string ->
      global_transfo1 self
      = [RandomResizedCrop 224 global_crops_scale; augmix_aug1; normalize]
      /\ global_transfo2 self
         = [RandomResizedCrop 224 global_crops_scale; augmix_aug2; normalize]
      /\ local_transfo self
         = [RandomResizedCrop 96 local_crops_scale; augmix_aug; normalize])
  /\ (value = Some ""%string ->
      ~ In augmix_aug1 (global_transfo1 self)
      /\ ~ In augmix_aug2 (global_transfo2 self)
      /\ ~ In augmix_aug (local_transfo self)).
Proof.
  cbn zeta.
  assert (Hoff : parse_augmix value = false <-> value = Some ""%string).
  { destruct value as [s |]; cbn [parse_augmix]; [| split; discriminate].
    unfold py_bool_of_str. destruct (String.eqb_spec s "") as [-> | Hne];
      cbn [negb]; split; try reflexivity; try discriminate.
    intros H. inversion H. contradiction. }
  split; [exact Hoff |]. split; [reflexivity |]. split; [reflexivity |].
  split.
  - intros Hv. destruct (parse_augmix value) eqn:E.
    + repeat split.
    + exfalso. apply Hv, Hoff. reflexivity.
  - intros ->. cbn. repeat split; intros [H | [H | [H | []]]]; discriminate H.
Qed.

(** X23.  Every optimizer name the parser accepts is one [train_dino]
    handles, and no other name is: [optimizer] is bound exactly for
    [adamw], [sgd] and [lars], and SGD starts with a learning rate of 0
    that the schedule sets later. *)
Theorem optimizer_bound_for_parser_choices (args_optimizer : string) :
  (In args_optimizer optimizer_choices
   <-> exists kind, select_optimizer args_optimizer = Some kind)
  /\ (forall lr momentum,
        select_optimizer args_optimizer = Some (SGD lr momentum) ->
        args_optimizer = "sgd"%string /\ lr = Fin 0).
Proof.
  unfold select_optimizer, optimizer_choices.
  destruct (String.eqb_spec args_optimizer "adamw") as [-> | H1].
  { split; [split; [eexists; reflexivity | cbn; tauto] | discriminate]. }
  destruct (String.eqb_spec args_optimizer "sgd") as [-> | H2].
  { split; [split; [eexists; reflexivity | cbn; tauto] |].
    intros lr momentum H. inversion H. split; reflexivity. }
  destruct (String.eqb_spec args_optimizer "lars") as [-> | H3].
  { split; [split; [eexists; reflexivity | cbn; tauto] | discriminate]. }
  split; [| discriminate]. split.
  - intros [H | [H | [H | []]]]; congruence.
  - intros [kind H]. discriminate H.
Qed.
